(** * Device communication protocol stack of the keyboard firmware

    A shallow embedding of
    - the IS31FL3731 LED driver ([LedSlaveDriver_Init],
      [LedSlaveDriver_Update], [SetLeds]),
    - the module driver ([UhkModuleSlaveDriver_Init],
      [UhkModuleSlaveDriver_Update], [UhkModuleSlaveDriver_Disconnect]),
    - the serial framing engine ([serial_packet_read],
      [serial_packet_write], [serial_packet_finalize], [serial_packet_abort],
      [serial_packet_queue_byte], [serial_send_ping_response], ...),
    together with the properties the specification states about them (C1
    to C10) and further properties read off the code (X1 to X24).

    Conventions.  A [uint8_t] / [uint16_t] / [uint32_t] is a [Z] whose
    wrap-around is written out with [u8] / [u16].  A byte buffer is a
    [list Z].  Global arrays indexed by a driver or slave id are total
    functions from the id.  Every call handed to the external bus layer or
    to the byte interface of the host link is appended to a log. *)

From Stdlib Require Import ZArith List Bool Lia.
Import ListNotations.
Open Scope Z_scope.

(** ** Machine integers and buffers *)

Definition u8 (x : Z) : Z := x mod 256.
Definition u16 (x : Z) : Z := x mod 65536.

(** [buf[i]] for an index held in an unsigned integer. *)
Definition byte_at (buf : list Z) (i : Z) : Z := nth (Z.to_nat i) buf 0.

(** The [n] bytes found at [buf + off]. *)
Definition bytes_from (buf : list Z) (off n : Z) : list Z :=
  firstn (Z.to_nat n) (skipn (Z.to_nat off) buf).

(** [memcpy(dst + off, bytes, length bytes)] inside the bounds of [dst]. *)
Definition memcpy_at (dst : list Z) (off : Z) (bytes : list Z) : list Z :=
  firstn (Z.to_nat off) dst ++ bytes
    ++ skipn (Z.to_nat off + length bytes) dst.

(** [memset(buf, v, n)] on a buffer of [n] bytes. *)
Definition memset (v : Z) (n : Z) : list Z := repeat v (Z.to_nat n).

(** ** Requests handed to the I2C bus layer

    The bus layer is external: a request is fire-and-forget, so the model
    records it.  [I2cAsyncWrite a d] stands for a call
    [I2cAsyncWrite(a, p, n)] where [d] is the [n] bytes at [p] when the call
    is made. *)

Record i2c_message_t := mk_i2c_message {
  msg_data : list Z;
  msg_length : Z
}.

Inductive i2c_request :=
| I2cAsyncWrite (i2cAddress : Z) (data : list Z)
| I2cAsyncWriteMessage (i2cAddress : Z) (message : i2c_message_t)
| I2cAsyncReadMessage (i2cAddress : Z).

(** Status values of the I2C drivers; [kStatus_I2c code] is whatever the
    bus layer answered to a request. *)
Inductive uhk_status_t :=
| kStatus_Uhk_IdleSlave
| kStatus_Uhk_NoTransfer
| kStatus_I2c (code : Z).

Inductive led_driver_phase_t :=
| LedDriverPhase_SetFunctionFrame
| LedDriverPhase_SetShutdownModeNormal
| LedDriverPhase_SetFrame1
| LedDriverPhase_InitLedControlRegisters
| LedDriverPhase_InitLedValues
| LedDriverPhase_Initialized.

Record led_driver_state_t := mk_led_driver_state {
  phase : led_driver_phase_t;
  ledIndex : Z;
  i2cAddress : Z;
  sourceLedValues : list Z;
  targetLedValues : list Z;
  setupLedControlRegistersCommand : list Z
}.

Record uhk_slave_t := mk_uhk_slave {
  isConnected : bool
}.

Inductive uhk_module_phase_t :=
| UhkModulePhase_RequestModuleFeatures
| UhkModulePhase_ReceiveModuleFeatures
| UhkModulePhase_ProcessModuleFeatures
| UhkModulePhase_RequestKeyStates
| UhkModulePhase_ReceiveKeystates
| UhkModulePhase_ProcessKeystates
| UhkModulePhase_SetTestLed
| UhkModulePhase_SetLedPwmBrightness.

Record uhk_module_vars_t := mk_uhk_module_vars {
  isTestLedOn : bool;
  ledPwmBrightness : Z
}.

Record uhk_module_state_t := mk_uhk_module_state {
  module_phase : uhk_module_phase_t;
  targetVars : uhk_module_vars_t;
  rxMessage : i2c_message_t;
  firmwareI2cAddress : Z;
  bootloaderI2cAddress : Z;
  features : list Z
}.

(** The globals of the two drivers and of the scheduler table they share,
    and the log of the requests issued to the bus so far (oldest first). *)
Record firmware := mk_firmware {
  Slaves : Z -> uhk_slave_t;
  LedDriverStates : Z -> led_driver_state_t;
  UhkModuleVars : Z -> uhk_module_vars_t;
  uhkModuleStates : Z -> uhk_module_state_t;
  txMessage : i2c_message_t;
  CurrentKeyStates : Z -> list Z;
  i2c_log : list i2c_request
}.

(** [a[i] = v] on an array modelled as a function. *)
Definition store {A : Type} (a : Z -> A) (i : Z) (v : A) : Z -> A :=
  fun j => if j =? i then v else a j.

Definition set_Slaves (fw : firmware) (s : Z -> uhk_slave_t) : firmware :=
  mk_firmware s (LedDriverStates fw) (UhkModuleVars fw) (uhkModuleStates fw)
    (txMessage fw) (CurrentKeyStates fw) (i2c_log fw).

Definition set_LedDriverState (fw : firmware) (i : Z) (s : led_driver_state_t)
  : firmware :=
  mk_firmware (Slaves fw) (store (LedDriverStates fw) i s) (UhkModuleVars fw)
    (uhkModuleStates fw) (txMessage fw) (CurrentKeyStates fw) (i2c_log fw).

Definition set_uhkModuleState (fw : firmware) (i : Z) (s : uhk_module_state_t)
  : firmware :=
  mk_firmware (Slaves fw) (LedDriverStates fw) (UhkModuleVars fw)
    (store (uhkModuleStates fw) i s) (txMessage fw) (CurrentKeyStates fw)
    (i2c_log fw).

Definition set_txMessage (fw : firmware) (m : i2c_message_t) : firmware :=
  mk_firmware (Slaves fw) (LedDriverStates fw) (UhkModuleVars fw)
    (uhkModuleStates fw) m (CurrentKeyStates fw) (i2c_log fw).

Definition set_CurrentKeyStates (fw : firmware) (i : Z) (k : list Z)
  : firmware :=
  mk_firmware (Slaves fw) (LedDriverStates fw) (UhkModuleVars fw)
    (uhkModuleStates fw) (txMessage fw) (store (CurrentKeyStates fw) i k)
    (i2c_log fw).

Definition issue (fw : firmware) (r : i2c_request) : firmware :=
  mk_firmware (Slaves fw) (LedDriverStates fw) (UhkModuleVars fw)
    (uhkModuleStates fw) (txMessage fw) (CurrentKeyStates fw)
    (i2c_log fw ++ [r]).

(** [data[i] = v] on an array held as a list. *)
Definition array_set (data : list Z) (i : nat) (v : Z) : list Z :=
  if (i <? length data)%nat then firstn i data ++ v :: skipn (S i) data
  else data.

Definition set_phase (s : led_driver_state_t) (p : led_driver_phase_t) :=
  mk_led_driver_state p (ledIndex s) (i2cAddress s) (sourceLedValues s)
    (targetLedValues s) (setupLedControlRegistersCommand s).

Definition set_ledIndex (s : led_driver_state_t) (i : Z) :=
  mk_led_driver_state (phase s) i (i2cAddress s) (sourceLedValues s)
    (targetLedValues s) (setupLedControlRegistersCommand s).

Definition set_targetLedValues (s : led_driver_state_t) (t : list Z) :=
  mk_led_driver_state (phase s) (ledIndex s) (i2cAddress s)
    (sourceLedValues s) t (setupLedControlRegistersCommand s).

(** ** The host link

    [status_t] as far as the framing engine names its values. *)
Inductive status_t :=
| kStatus_Success
| kStatus_Fail
| kStatus_InvalidArgument
| kStatus_Timeout
| kStatus_UnknownCommand
| kStatus_SecurityViolation
| kStatus_AbortDataPhase
| kStatus_Ping
| kStatus_NoResponse
| kStatus_NoResponseExpected.

Definition is_success (s : status_t) : bool :=
  match s with kStatus_Success => true | _ => false end.

Inductive packet_type_t := kPacketType_Command | kPacketType_Data.

Record framing_header_t := mk_framing_header {
  startByte : Z;
  packetType : Z
}.

Record framing_data_packet_t := mk_framing_data_packet {
  header : framing_header_t;
  dp_length : Z;
  dp_crc16 : Z
}.

Record serial_framing_packet_t := mk_serial_framing_packet {
  dataPacket : framing_data_packet_t;
  fp_data : list Z
}.

(** [g_serialContext] *)
Record serial_data_t := mk_serial_data {
  sc_data : list Z;
  framingPacket : serial_framing_packet_t;
  isAckNeeded : bool;
  isBackToBackWrite : bool;
  isAckAbortNeeded : bool
}.

(** The fields [callbackBuffer] and [writeOffset] of [g_serialContext].
    Of the functions at hand only [serial_packet_queue_byte] touches them,
    and it touches nothing else, so they are kept apart from the fields
    above.  [writeOffset] is a [uint32_t]. *)
Record callback_queue_t := mk_callback_queue {
  callbackBuffer : list Z;
  writeOffset : Z
}.

(** The active peripheral and the host clock, which are external.  The
    peer is a script: [incoming] are the bytes it will deliver, in order; a
    read that asks for more bytes than are left fails with
    [kStatus_Timeout].  [written] lists every buffer handed to
    [byteInterface->write], oldest first; [write_status] are the statuses
    with which the next writes answer ([kStatus_Success] once the list is
    used up).  [delays] lists the arguments of the [host_delay] calls. *)
Record link := mk_link {
  incoming : list Z;
  written : list (list Z);
  write_status : list status_t;
  delays : list Z
}.

Record serial_world := mk_serial_world {
  g_serialContext : serial_data_t;
  activePeripheral : link
}.

Definition with_context (w : serial_world) (c : serial_data_t) : serial_world :=
  mk_serial_world c (activePeripheral w).

Definition set_sc_data (c : serial_data_t) (d : list Z) : serial_data_t :=
  mk_serial_data d (framingPacket c) (isAckNeeded c) (isBackToBackWrite c)
    (isAckAbortNeeded c).

Definition set_framingPacket (c : serial_data_t) (f : serial_framing_packet_t) :=
  mk_serial_data (sc_data c) f (isAckNeeded c) (isBackToBackWrite c)
    (isAckAbortNeeded c).

Definition set_isAckNeeded (c : serial_data_t) (b : bool) : serial_data_t :=
  mk_serial_data (sc_data c) (framingPacket c) b (isBackToBackWrite c)
    (isAckAbortNeeded c).

Definition set_isBackToBackWrite (c : serial_data_t) (b : bool) : serial_data_t :=
  mk_serial_data (sc_data c) (framingPacket c) (isAckNeeded c) b
    (isAckAbortNeeded c).

Definition set_isAckAbortNeeded (c : serial_data_t) (b : bool) : serial_data_t :=
  mk_serial_data (sc_data c) (framingPacket c) (isAckNeeded c)
    (isBackToBackWrite c) b.

(** [byteInterface->write(peripheral, buffer, byteCount)] *)
Definition byteInterface_write (buffer : list Z) (w : serial_world)
  : status_t * serial_world :=
  let l := activePeripheral w in
  (hd kStatus_Success (write_status l),
   mk_serial_world (g_serialContext w)
     (mk_link (incoming l) (written l ++ [buffer]) (tl (write_status l))
        (delays l))).

(** [byteInterface->read(peripheral, buffer, byteCount)]: the status and
    the bytes stored into [buffer]. *)
Definition byteInterface_read (byteCount : Z) (w : serial_world)
  : status_t * list Z * serial_world :=
  let l := activePeripheral w in
  let n := Z.to_nat byteCount in
  (if (n <=? length (incoming l))%nat then kStatus_Success else kStatus_Timeout,
   firstn n (incoming l),
   mk_serial_world (g_serialContext w)
     (mk_link (skipn n (incoming l)) (written l) (write_status l) (delays l))).

Definition host_delay (ms : Z) (w : serial_world) : serial_world :=
  let l := activePeripheral w in
  mk_serial_world (g_serialContext w)
    (mk_link (incoming l) (written l) (write_status l) (delays l ++ [ms])).

(** The halfword a two byte union holds on the little-endian target. *)
Definition halfword (bytes : list Z) : Z := byte_at bytes 0 + 256 * byte_at bytes 1.

Definition halfword_bytes (h : Z) : list Z := [h mod 256; h / 256 mod 256].

(** Modelled from the spec: the memory image of the packed
    [serial_framing_packet_t], whose declaration ([serial_packet.h]) is not
    part of the sources at hand.  The wire format is start byte, packet
    type, 16 bit length, 16 bit crc, payload; [sizeof(framing_data_packet_t)]
    is therefore 6. *)
Definition sizeof_framing_data_packet_t : Z := 6.

Definition framing_header_bytes (p : framing_data_packet_t) : list Z :=
  [startByte (header p); packetType (header p)] ++ halfword_bytes (dp_length p).

Definition serial_framing_packet_bytes (f : serial_framing_packet_t) : list Z :=
  framing_header_bytes (dataPacket f) ++ halfword_bytes (dp_crc16 (dataPacket f))
    ++ fp_data f.

(** Modelled from the spec: CRC-16/XMODEM, the checksum the CRC16 utility
    ([crc16.h], not part of the sources at hand) has to implement:
    polynomial 0x1021, initial value 0, most significant bit first. *)
Fixpoint crc16_xmodem_bits (n : nat) (crc : Z) : Z :=
  match n with
  | O => crc
  | S n' =>
      let shifted := Z.shiftl crc 1 in
      crc16_xmodem_bits n'
        (if Z.testbit crc 15 then Z.land (Z.lxor shifted 4129) 65535
         else Z.land shifted 65535)
  end.

Definition crc16_xmodem_byte (crc byte : Z) : Z :=
  crc16_xmodem_bits 8 (Z.lxor crc (Z.shiftl byte 8)).

Definition crc16_xmodem_update (crc : Z) (bytes : list Z) : Z :=
  fold_left crc16_xmodem_byte bytes crc.

(** [sourceLedValues[i] != targetLedValues[i]] *)
Definition led_differs (source target : list Z) (i : Z) : bool :=
  negb (byte_at source i =? byte_at target i).

(** ** Concrete data for running the model

    The final step of CRC-16/XMODEM, a driver state in the [Initialized]
    phase, a firmware state whose modules wait in the [SetTestLed] phase with
    the test LED to be switched on, stand-ins for the collaborators of the
    module driver, and an idle context of the framing engine with buffers of
    32 bytes. *)
Definition crc16_xmodem_finalize (crc : Z) : Z := crc mod 65536.

Definition example_led_state (index : Z) (source target : list Z)
  : led_driver_state_t :=
  mk_led_driver_state LedDriverPhase_Initialized index 116 source target
    (repeat 0 19).

Definition example_firmware : firmware :=
  mk_firmware
    (fun _ => mk_uhk_slave true)
    (fun _ => mk_led_driver_state LedDriverPhase_SetFunctionFrame 0 116
                (repeat 0 144) (repeat 0 144) (repeat 0 19))
    (fun _ => mk_uhk_module_vars true 255)
    (fun _ => mk_uhk_module_state UhkModulePhase_SetTestLed
                (mk_uhk_module_vars false 0) (mk_i2c_message (repeat 0 64) 0)
                8 16 [])
    (mk_i2c_message (repeat 0 64) 0)
    (fun _ => [])
    [].

Definition example_features_keyCount (features : list Z) : Z :=
  byte_at features 0.

Definition example_CRC16_IsMessageValid (m : i2c_message_t) : bool := true.

Definition example_BoolBitsToBytes (src dst : list Z) (n : Z) : list Z := dst.

Definition example_i2c_answer (log : list i2c_request) (r : i2c_request) : Z :=
  0.

(** A memory that holds zeros behind every source table. *)
Definition example_memory_behind (fw : firmware) (ledDriverId k : Z) : Z := 0.

Definition idle_serial_data : serial_data_t :=
  mk_serial_data (repeat 0 32)
    (mk_serial_framing_packet
       (mk_framing_data_packet (mk_framing_header 0 0) 0 0) (repeat 0 32))
    false false false.

Section Firmware.

(** Constants of [is31fl3731_driver.h] and of the scheduler's header,
    which are not part of the sources at hand. *)
Variable LED_DRIVER_LED_COUNT : Z.
Variable PMW_REGISTER_UPDATE_CHUNK_SIZE : Z.
Variable PWM_REGISTER_BUFFER_LENGTH : Z.
Variable LED_CONTROL_REGISTERS_COMMAND_LENGTH : Z.
Variable FRAME_REGISTER_PWM_FIRST : Z.
Variable LED_DRIVER_REGISTER_FRAME : Z.
Variable LED_DRIVER_REGISTER_SHUTDOWN : Z.
Variable LED_DRIVER_FRAME_FUNCTION : Z.
Variable LED_DRIVER_FRAME_1 : Z.
Variable SHUTDOWN_MODE_NORMAL : Z.
Variable LedDriverId_Left : Z.
Variable SlaveId_LeftKeyboardHalf : Z.
Variable SlaveId_LeftLedDriver : Z.

Definition setFunctionFrameBuffer : list Z :=
  [LED_DRIVER_REGISTER_FRAME; LED_DRIVER_FRAME_FUNCTION].
Definition setShutdownModeNormalBuffer : list Z :=
  [LED_DRIVER_REGISTER_SHUTDOWN; SHUTDOWN_MODE_NORMAL].
Definition setFrame1Buffer : list Z :=
  [LED_DRIVER_REGISTER_FRAME; LED_DRIVER_FRAME_1].

(** The first loop of the [Initialized] phase,
<<
    for (count=0; count<LED_DRIVER_LED_COUNT; count++) {
        if (source[start] != target[start]) break;
        if (++start >= LED_DRIVER_LED_COUNT) start = 0;
    }
>>
    [remaining] is [LED_DRIVER_LED_COUNT - count].  [Some start] is the
    exit through [break] (so [count < LED_DRIVER_LED_COUNT] and
    [foundStartIndex] holds), [None] the exit with
    [count = LED_DRIVER_LED_COUNT]. *)
Fixpoint find_start_index (source target : list Z) (remaining : nat)
    (startLedIndex : Z) : option Z :=
  match remaining with
  | O => None
  | S remaining' =>
      if led_differs source target startLedIndex then Some startLedIndex
      else
        let next := u8 (startLedIndex + 1) in
        find_start_index source target remaining'
          (if LED_DRIVER_LED_COUNT <=? next then 0 else next)
  end.

(** The second loop,
<<
    for (uint8_t index=start; index<=maxEndLedIndex; index++)
        if (source[index] != target[index]) endLedIndex = index;
>>
    [iterations] is [maxEndLedIndex - index + 1], the number of turns the
    loop takes when [maxEndLedIndex] is below 255 (with 255 the [uint8_t]
    index would never leave the loop). *)
Fixpoint find_end_index (source target : list Z) (iterations : nat)
    (index endLedIndex : Z) : Z :=
  match iterations with
  | O => endLedIndex
  | S iterations' =>
      find_end_index source target iterations' (u8 (index + 1))
        (if led_differs source target index then index else endLedIndex)
  end.

(** [led_driver_state_t] is declared in [is31fl3731_driver.h], which is
    not part of the sources at hand, so they do not tell what lies in memory
    behind the [sourceLedValues] of a driver.
    [memory_behind_sourceLedValues fw id k] is the byte found [k] places
    behind the end of the source table of driver [id] when the globals are
    [fw]. *)
Variable memory_behind_sourceLedValues : firmware -> Z -> Z -> Z.

(** The [n] bytes found at [sourceLedValues + off] of driver [ledDriverId]:
    the entries of the table from [off] on and, where the table ends before
    [off + n], the bytes behind it. *)
Definition source_bytes_from (fw : firmware) (ledDriverId off n : Z) : list Z :=
  let source := sourceLedValues (LedDriverStates fw ledDriverId) in
  let inside := bytes_from source off n in
  inside
  ++ map (fun k => memory_behind_sourceLedValues fw ledDriverId (Z.of_nat k))
       (seq (Z.to_nat off - length source) (Z.to_nat n - length inside)).

(** [updatePwmRegistersBuffer] is a global of [PWM_REGISTER_BUFFER_LENGTH]
    bytes without an initialiser, so it starts out as zeros.  The driver
    writes it from the front before every use, the register address and then
    at most one chunk, so a use finds what it has just written, followed by
    zeros where the buffer is longer; the buffer is a local value here.
    What is logged is the part of it the call hands to the bus: in the
    [InitLedValues] phase always [PWM_REGISTER_BUFFER_LENGTH] bytes, in the
    [Initialized] phase the register address and the run copied behind
    it.  Where a chunk is longer than the buffer behind the register
    address, the source writes past the end of the buffer; of such a chunk
    the bus gets the bytes that fit. *)
Definition LedSlaveDriver_Update (ledDriverId : Z) (fw : firmware)
  : firmware :=
  let currentLedDriverState := LedDriverStates fw ledDriverId in
  let ledDriverAddress := i2cAddress currentLedDriverState in
  match phase currentLedDriverState with
  | LedDriverPhase_SetFunctionFrame =>
      if (ledDriverId =? LedDriverId_Left)
         && negb (isConnected (Slaves fw SlaveId_LeftKeyboardHalf))
      then fw
      else
        let fw := issue fw (I2cAsyncWrite ledDriverAddress setFunctionFrameBuffer) in
        set_LedDriverState fw ledDriverId
          (set_phase currentLedDriverState LedDriverPhase_SetShutdownModeNormal)
  | LedDriverPhase_SetShutdownModeNormal =>
      let fw := issue fw (I2cAsyncWrite ledDriverAddress setShutdownModeNormalBuffer) in
      set_LedDriverState fw ledDriverId
        (set_phase currentLedDriverState LedDriverPhase_SetFrame1)
  | LedDriverPhase_SetFrame1 =>
      let fw := issue fw (I2cAsyncWrite ledDriverAddress setFrame1Buffer) in
      set_LedDriverState fw ledDriverId
        (set_phase currentLedDriverState LedDriverPhase_InitLedControlRegisters)
  | LedDriverPhase_InitLedControlRegisters =>
      let fw := issue fw
        (I2cAsyncWrite ledDriverAddress
           (bytes_from (setupLedControlRegistersCommand currentLedDriverState)
              0 LED_CONTROL_REGISTERS_COMMAND_LENGTH)) in
      set_LedDriverState fw ledDriverId
        (set_phase currentLedDriverState LedDriverPhase_InitLedValues)
  | LedDriverPhase_InitLedValues =>
      let index := ledIndex currentLedDriverState in
      let updatePwmRegistersBuffer :=
        array_set (memset 0 PWM_REGISTER_BUFFER_LENGTH) 0
          (u8 (FRAME_REGISTER_PWM_FIRST + index)) in
      let updatePwmRegistersBuffer :=
        memcpy_at updatePwmRegistersBuffer 1
          (source_bytes_from fw ledDriverId index
             PMW_REGISTER_UPDATE_CHUNK_SIZE) in
      let fw := issue fw
        (I2cAsyncWrite ledDriverAddress
           (bytes_from updatePwmRegistersBuffer 0 PWM_REGISTER_BUFFER_LENGTH)) in
      let index := u8 (index + PMW_REGISTER_UPDATE_CHUNK_SIZE) in
      if LED_DRIVER_LED_COUNT <=? index then
        set_LedDriverState fw ledDriverId
          (set_phase (set_ledIndex currentLedDriverState 0)
             LedDriverPhase_Initialized)
      else
        set_LedDriverState fw ledDriverId
          (set_ledIndex currentLedDriverState index)
  | LedDriverPhase_Initialized =>
      let source := sourceLedValues currentLedDriverState in
      let target := targetLedValues currentLedDriverState in
      let index := ledIndex currentLedDriverState in
      let lastLedChunkStartIndex :=
        u8 (LED_DRIVER_LED_COUNT - PMW_REGISTER_UPDATE_CHUNK_SIZE) in
      let startLedIndex :=
        if lastLedChunkStartIndex <? index then lastLedChunkStartIndex
        else index in
      match find_start_index source target
              (Z.to_nat LED_DRIVER_LED_COUNT) startLedIndex with
      | None =>
          set_LedDriverState fw ledDriverId
            (set_ledIndex currentLedDriverState 0)
      | Some startLedIndex =>
          let maxChunkSize :=
            u8 (Z.min (LED_DRIVER_LED_COUNT - startLedIndex)
                  PMW_REGISTER_UPDATE_CHUNK_SIZE) in
          let maxEndLedIndex := u8 (startLedIndex + maxChunkSize - 1) in
          let endLedIndex :=
            find_end_index source target
              (Z.to_nat (maxEndLedIndex - startLedIndex + 1))
              startLedIndex startLedIndex in
          let length := u8 (endLedIndex - startLedIndex + 1) in
          let updatePwmRegistersBuffer :=
            u8 (FRAME_REGISTER_PWM_FIRST + startLedIndex)
            :: bytes_from source startLedIndex length in
          let target :=
            memcpy_at target startLedIndex
              (bytes_from source startLedIndex length) in
          let fw := issue fw
            (I2cAsyncWrite ledDriverAddress
               (bytes_from updatePwmRegistersBuffer 0 (length + 1))) in
          let index := u8 (index + length) in
          set_LedDriverState fw ledDriverId
            (set_ledIndex
               (set_targetLedValues currentLedDriverState target)
               (if LED_DRIVER_LED_COUNT <=? index then 0 else index))
      end
  end.

Variable LED_DRIVER_MAX_COUNT : Z.

Definition set_sourceLedValues (s : led_driver_state_t) (v : list Z) :=
  mk_led_driver_state (phase s) (ledIndex s) (i2cAddress s) v
    (targetLedValues s) (setupLedControlRegistersCommand s).

(** [SetLeds]: the source table of every LED driver is filled with one
    brightness. *)
Definition SetLeds (ledBrightness : Z) (fw : firmware) : firmware :=
  mk_firmware (Slaves fw)
    (fun i =>
       if (0 <=? i) && (i <? LED_DRIVER_MAX_COUNT)
       then set_sourceLedValues (LedDriverStates fw i)
              (memset ledBrightness LED_DRIVER_LED_COUNT)
       else LedDriverStates fw i)
    (UhkModuleVars fw) (uhkModuleStates fw) (txMessage fw)
    (CurrentKeyStates fw) (i2c_log fw).

(** *** The module driver *)

(** [slave_command_t] as far as the sources declare it. *)
Definition SlaveCommand_SetTestLed : Z := 1.
Definition SlaveCommand_SetLedPwmBrightness : Z := 2.

(** Declared in headers that are not part of the sources at hand. *)
Variable SlaveCommand_RequestProperty : Z.
Variable SlaveProperty_Features : Z.
Variable SlaveCommand_RequestKeyStates : Z.
Variable MAX_PWM_BRIGHTNESS : Z.
Variable sizeof_uhk_module_features_t : Z.
(** [features.keyCount], read from the bytes of the structure. *)
Variable features_keyCount : list Z -> Z.
Variable moduleIdsToI2cAddresses : Z -> Z * Z.

(** External collaborators: the CRC check of a received message, the
    bit unpacking routine, and the status with which the bus layer answers
    a request given the requests issued before it. *)
Variable CRC16_IsMessageValid : i2c_message_t -> bool.
Variable BoolBitsToBytes : list Z -> list Z -> Z -> list Z.
Variable i2c_answer : list i2c_request -> i2c_request -> Z.

Definition set_module_phase (s : uhk_module_state_t) (p : uhk_module_phase_t) :=
  mk_uhk_module_state p (targetVars s) (rxMessage s) (firmwareI2cAddress s)
    (bootloaderI2cAddress s) (features s).

Definition set_targetVars (s : uhk_module_state_t) (v : uhk_module_vars_t) :=
  mk_uhk_module_state (module_phase s) v (rxMessage s) (firmwareI2cAddress s)
    (bootloaderI2cAddress s) (features s).

Definition set_features (s : uhk_module_state_t) (f : list Z) :=
  mk_uhk_module_state (module_phase s) (targetVars s) (rxMessage s)
    (firmwareI2cAddress s) (bootloaderI2cAddress s) f.

Definition set_UhkModuleVars (fw : firmware) (i : Z) (v : uhk_module_vars_t)
  : firmware :=
  mk_firmware (Slaves fw) (LedDriverStates fw) (store (UhkModuleVars fw) i v)
    (uhkModuleStates fw) (txMessage fw) (CurrentKeyStates fw) (i2c_log fw).

Definition tx (i2cAddress : Z) (fw : firmware) : uhk_status_t * firmware :=
  let request := I2cAsyncWriteMessage i2cAddress (txMessage fw) in
  (kStatus_I2c (i2c_answer (i2c_log fw) request), issue fw request).

Definition rx (i2cAddress : Z) (fw : firmware) : uhk_status_t * firmware :=
  let request := I2cAsyncReadMessage i2cAddress in
  (kStatus_I2c (i2c_answer (i2c_log fw) request), issue fw request).

Definition UhkModuleSlaveDriver_Init (uhkModuleDriverId : Z) (fw : firmware)
  : firmware :=
  let uhkModuleState := uhkModuleStates fw uhkModuleDriverId in
  let fw := set_UhkModuleVars fw uhkModuleDriverId
              (mk_uhk_module_vars true (u8 MAX_PWM_BRIGHTNESS)) in
  let uhkModuleI2cAddresses := moduleIdsToI2cAddresses uhkModuleDriverId in
  set_uhkModuleState fw uhkModuleDriverId
    (mk_uhk_module_state UhkModulePhase_RequestModuleFeatures
       (mk_uhk_module_vars false 0) (rxMessage uhkModuleState)
       (fst uhkModuleI2cAddresses) (snd uhkModuleI2cAddresses)
       (features uhkModuleState)).

Definition UhkModuleSlaveDriver_Update (uhkModuleDriverId : Z)
    (fw : firmware) : uhk_status_t * firmware :=
  let uhkModuleSourceVars := UhkModuleVars fw uhkModuleDriverId in
  let uhkModuleState := uhkModuleStates fw uhkModuleDriverId in
  let uhkModuleTargetVars := targetVars uhkModuleState in
  let i2cAddress := firmwareI2cAddress uhkModuleState in
  let rxMessage := rxMessage uhkModuleState in
  let next p fw :=
    set_uhkModuleState fw uhkModuleDriverId (set_module_phase uhkModuleState p) in
  match module_phase uhkModuleState with
  | UhkModulePhase_RequestModuleFeatures =>
      let data := array_set (msg_data (txMessage fw)) 0 SlaveCommand_RequestProperty in
      let data := array_set data 1 SlaveProperty_Features in
      let fw := set_txMessage fw (mk_i2c_message data 2) in
      let '(status, fw) := tx i2cAddress fw in
      (status, next UhkModulePhase_ReceiveModuleFeatures fw)
  | UhkModulePhase_ReceiveModuleFeatures =>
      let '(status, fw) := rx i2cAddress fw in
      (status, next UhkModulePhase_ProcessModuleFeatures fw)
  | UhkModulePhase_ProcessModuleFeatures =>
      let uhkModuleState :=
        if CRC16_IsMessageValid rxMessage
        then set_features uhkModuleState
               (bytes_from (msg_data rxMessage) 0 sizeof_uhk_module_features_t)
        else uhkModuleState in
      (kStatus_Uhk_NoTransfer,
       set_uhkModuleState fw uhkModuleDriverId
         (set_module_phase uhkModuleState UhkModulePhase_RequestKeyStates))
  | UhkModulePhase_RequestKeyStates =>
      let data := array_set (msg_data (txMessage fw)) 0 SlaveCommand_RequestKeyStates in
      let fw := set_txMessage fw (mk_i2c_message data 1) in
      let '(status, fw) := tx i2cAddress fw in
      (status, next UhkModulePhase_ReceiveKeystates fw)
  | UhkModulePhase_ReceiveKeystates =>
      let '(status, fw) := rx i2cAddress fw in
      (status, next UhkModulePhase_ProcessKeystates fw)
  | UhkModulePhase_ProcessKeystates =>
      let fw :=
        if CRC16_IsMessageValid rxMessage then
          let slotId := u8 (uhkModuleDriverId + 1) in
          set_CurrentKeyStates fw slotId
            (BoolBitsToBytes (msg_data rxMessage) (CurrentKeyStates fw slotId)
               (features_keyCount (features uhkModuleState)))
        else fw in
      (kStatus_Uhk_NoTransfer, next UhkModulePhase_SetTestLed fw)
  | UhkModulePhase_SetTestLed =>
      if Bool.eqb (isTestLedOn uhkModuleSourceVars)
                  (isTestLedOn uhkModuleTargetVars)
      then (kStatus_Uhk_NoTransfer, next UhkModulePhase_SetLedPwmBrightness fw)
      else
        let data := array_set (msg_data (txMessage fw)) 0 SlaveCommand_SetTestLed in
        let data := array_set data 1
                      (if isTestLedOn uhkModuleSourceVars then 1 else 0) in
        let fw := set_txMessage fw (mk_i2c_message data 2) in
        let '(status, fw) := tx i2cAddress fw in
        (status,
         set_uhkModuleState fw uhkModuleDriverId
           (set_module_phase
              (set_targetVars uhkModuleState
                 (mk_uhk_module_vars (isTestLedOn uhkModuleSourceVars)
                    (ledPwmBrightness uhkModuleTargetVars)))
              UhkModulePhase_SetLedPwmBrightness))
  | UhkModulePhase_SetLedPwmBrightness =>
      if ledPwmBrightness uhkModuleSourceVars
           =? ledPwmBrightness uhkModuleTargetVars
      then (kStatus_Uhk_NoTransfer, next UhkModulePhase_RequestKeyStates fw)
      else
        let data := array_set (msg_data (txMessage fw)) 0
                      SlaveCommand_SetLedPwmBrightness in
        let data := array_set data 1 (ledPwmBrightness uhkModuleSourceVars) in
        let fw := set_txMessage fw (mk_i2c_message data 2) in
        let '(status, fw) := tx i2cAddress fw in
        (status,
         set_uhkModuleState fw uhkModuleDriverId
           (set_module_phase
              (set_targetVars uhkModuleState
                 (mk_uhk_module_vars (isTestLedOn uhkModuleTargetVars)
                    (ledPwmBrightness uhkModuleSourceVars)))
              UhkModulePhase_RequestKeyStates))
  end.

Definition UhkModuleSlaveDriver_Disconnect (uhkModuleDriverId : Z)
    (fw : firmware) : firmware :=
  if uhkModuleDriverId =? SlaveId_LeftKeyboardHalf
  then set_Slaves fw (store (Slaves fw) SlaveId_LeftLedDriver (mk_uhk_slave false))
  else fw.

(** *** The serial framing engine *)

(** Constants of [serial_packet.h] and of the bootloader headers, which
    are not part of the sources at hand. *)
Variable kFramingPacketStartByte : Z.
Variable kFramingPacketType_Ack : Z.
Variable kFramingPacketType_Nak : Z.
Variable kFramingPacketType_AckAbort : Z.
Variable kFramingPacketType_Command : Z.
Variable kFramingPacketType_Data : Z.
Variable kFramingPacketType_Ping : Z.
Variable kFramingPacketType_PingResponse : Z.
Variable kOutgoingPacketBufferSize : Z.
Variable kIncomingPacketBufferSize : Z.
Variable kMinPacketBufferSize : Z.
Variable kHostMaxStartByteReadCount : Z.
Variable kDefaultByteReadTimeoutMs : Z.
Variable kSerialProtocol_Version_Bugfix : Z.
Variable kSerialProtocol_Version_Minor : Z.
Variable kSerialProtocol_Version_Major : Z.
Variable kSerialProtocol_Version_Name : Z.

(** The CRC16 utility, an external collaborator. *)
Variable crc16_data_t : Type.
Variable crc16_init : crc16_data_t.
Variable crc16_update : crc16_data_t -> list Z -> crc16_data_t.
Variable crc16_finalize : crc16_data_t -> Z.

(** The bytes of [k_PingResponse]: the version, the options (0) and the
    crc16 (0xeaaa). *)
Definition k_PingResponse : list Z :=
  [kSerialProtocol_Version_Bugfix; kSerialProtocol_Version_Minor;
   kSerialProtocol_Version_Major; kSerialProtocol_Version_Name]
  ++ halfword_bytes 0 ++ halfword_bytes 60074.

Definition write_data (buffer : list Z) (w : serial_world)
  : status_t * serial_world :=
  byteInterface_write buffer w.

Definition read_data (byteCount timeoutMs : Z) (w : serial_world)
  : status_t * list Z * serial_world :=
  byteInterface_read byteCount w.

Definition serial_packet_init (w : serial_world) : status_t * serial_world :=
  (kStatus_Success, w).

Definition serial_packet_send_sync (framingPacketType : Z) (w : serial_world)
  : status_t * serial_world :=
  let sync := [kFramingPacketStartByte; framingPacketType] in
  let w := with_context w (set_isBackToBackWrite (g_serialContext w) true) in
  write_data sync w.

Definition send_deferred_ack (w : serial_world) : status_t * serial_world :=
  if isAckNeeded (g_serialContext w) then
    serial_packet_send_sync kFramingPacketType_Ack
      (with_context w (set_isAckNeeded (g_serialContext w) false))
  else if isAckAbortNeeded (g_serialContext w) then
    serial_packet_send_sync kFramingPacketType_AckAbort
      (with_context w (set_isAckAbortNeeded (g_serialContext w) false))
  else (kStatus_Success, w).

Definition serial_packet_finalize (w : serial_world) : status_t * serial_world :=
  send_deferred_ack w.

(** [assert(g_serialContext.isAckNeeded)] stops the program when it fails:
    [None]. *)
Definition serial_packet_abort (w : serial_world) : option serial_world :=
  if isAckNeeded (g_serialContext w) then
    Some (with_context w
            (set_isAckNeeded (set_isAckAbortNeeded (g_serialContext w) true) false))
  else None.

Definition serial_packet_get_max_packet_size : Z := kMinPacketBufferSize.

(** The loop of [read_start_byte].  Every turn reads one byte, so the
    number of bytes the peer still delivers bounds the number of turns;
    [None] stands for a turn count that was too small. *)
Fixpoint read_start_byte_loop (turns : nat) (startByteReadCount : Z)
    (header : framing_header_t) (w : serial_world)
  : option (status_t * framing_header_t * serial_world) :=
  match turns with
  | O => None
  | S turns' =>
      let '(status, bytes, w) := read_data 1 0 w in
      if negb (is_success status) then Some (status, header, w)
      else
        let header := mk_framing_header (byte_at bytes 0) (packetType header) in
        if kHostMaxStartByteReadCount <? startByteReadCount
        then Some (kStatus_Timeout, header, w)
        else if startByte header =? kFramingPacketStartByte
        then Some (kStatus_Success, header, w)
        else
          read_start_byte_loop turns' ((startByteReadCount + 1) mod 2 ^ 32)
            header (host_delay kDefaultByteReadTimeoutMs w)
  end.

Definition read_start_byte (header : framing_header_t) (w : serial_world)
  : status_t * framing_header_t * serial_world :=
  match read_start_byte_loop (S (length (incoming (activePeripheral w)))) 0
          header w with
  | Some r => r
  | None => (kStatus_Fail, header, w)
  end.

Definition read_header (header : framing_header_t) (w : serial_world)
  : status_t * framing_header_t * serial_world :=
  let '(status, header, w) := read_start_byte header w in
  if negb (is_success status) then (status, header, w)
  else
    let '(status, bytes, w) := read_data 1 (kDefaultByteReadTimeoutMs * 1) w in
    (status,
     if is_success status
     then mk_framing_header (startByte header) (byte_at bytes 0)
     else header,
     w).

Definition read_length (packet : framing_data_packet_t) (w : serial_world)
  : status_t * framing_data_packet_t * serial_world :=
  let '(status, buffer, w) := read_data 2 (kDefaultByteReadTimeoutMs * 2) w in
  (status, mk_framing_data_packet (header packet) (halfword buffer) (dp_crc16 packet), w).

Definition read_crc16 (packet : framing_data_packet_t) (w : serial_world)
  : status_t * framing_data_packet_t * serial_world :=
  let '(status, buffer, w) := read_data 2 (kDefaultByteReadTimeoutMs * 2) w in
  (status, mk_framing_data_packet (header packet) (dp_length packet) (halfword buffer), w).

Definition calculate_framing_crc16 (packet : framing_data_packet_t)
    (data : list Z) : Z :=
  let crcInfo := crc16_init in
  let crcInfo :=
    crc16_update crcInfo
      (bytes_from (framing_header_bytes packet) 0 (sizeof_framing_data_packet_t - 2)) in
  let crcInfo := crc16_update crcInfo (bytes_from data 0 (dp_length packet)) in
  crc16_finalize crcInfo.

Definition serial_send_ping_response (w : serial_world)
  : status_t * serial_world :=
  let c := g_serialContext w in
  if negb (isAckNeeded c) || negb (isBackToBackWrite c)
     || negb (isAckAbortNeeded c)
  then
    let header := [kFramingPacketStartByte; kFramingPacketType_PingResponse] in
    let '(_, w) := byteInterface_write header w in
    let '(_, w) := byteInterface_write k_PingResponse w in
    (kStatus_Ping, w)
  else (kStatus_Ping, w).

(** [read_data_packet(packet, g_serialContext.data, packetType)]: the
    [data] argument of the source always is the receive buffer of the
    context; [type] is its [packetType] argument. *)
Definition read_data_packet (packet : framing_data_packet_t)
    (type : packet_type_t) (w : serial_world)
  : status_t * framing_data_packet_t * serial_world :=
  let '(status, hdr, w) := read_header (header packet) w in
  let packet := mk_framing_data_packet hdr (dp_length packet) (dp_crc16 packet) in
  if negb (is_success status) then (status, packet, w)
  else if packetType hdr =? kFramingPacketType_Ping then
    let '(status, w) := serial_send_ping_response w in (status, packet, w)
  else
    let expectedPacketType :=
      match type with
      | kPacketType_Command => kFramingPacketType_Command
      | kPacketType_Data => kFramingPacketType_Data
      end in
    if negb (packetType hdr =? expectedPacketType) then (kStatus_Fail, packet, w)
    else
      let '(status, packet, w) := read_length packet w in
      if negb (is_success status) then (status, packet, w)
      else
        let packet :=
          mk_framing_data_packet (header packet)
            (Z.min kIncomingPacketBufferSize (dp_length packet))
            (dp_crc16 packet) in
        let '(status, packet, w) := read_crc16 packet w in
        if negb (is_success status) then (status, packet, w)
        else if 0 <? dp_length packet then
          let data :=
            memcpy_at (sc_data (g_serialContext w)) 0
              (memset 0 (dp_length packet)) in
          let '(status, bytes, w) :=
            read_data (dp_length packet)
              (kDefaultByteReadTimeoutMs * dp_length packet) w in
          (status, packet,
           with_context w (set_sc_data (g_serialContext w) (memcpy_at data 0 bytes)))
        else (status, packet, w).

(** The [do ... while (!isPacketOk)] loop of [serial_packet_read].  Every
    turn that goes on has read a header, so the number of bytes the peer
    still delivers bounds the number of turns; [None] stands for a turn
    count that was too small. *)
Fixpoint serial_packet_read_loop (turns : nat)
    (framingPacket : framing_data_packet_t) (type : packet_type_t)
    (w : serial_world)
  : option (status_t * framing_data_packet_t * serial_world) :=
  match turns with
  | O => None
  | S turns' =>
      let w :=
        with_context w
          (set_sc_data (g_serialContext w) (memset 0 kIncomingPacketBufferSize)) in
      let '(status, framingPacket, w) :=
        read_data_packet framingPacket type w in
      if negb (is_success status) then Some (status, framingPacket, w)
      else
        let calculated_crc :=
          calculate_framing_crc16 framingPacket (sc_data (g_serialContext w)) in
        if negb (dp_crc16 framingPacket =? calculated_crc) then
          let '(_, w) := serial_packet_send_sync kFramingPacketType_Nak w in
          serial_packet_read_loop turns' framingPacket type w
        else Some (kStatus_Success, framingPacket, w)
  end.

(** What [serial_packet_read] hands back: its status, and the values it
    stored through the [packet] and [packetLength] pointers ([None]: nothing
    was stored). *)
Record serial_packet_read_result := mk_read_result {
  read_status : status_t;
  read_packet : option (list Z);
  read_packetLength : option Z
}.

(** [packet] and [packetLength] tell whether the pointers of these names
    are non-null.  The local [framingPacket] starts out uninitialised in the
    source; every field of it is written before it is read, and it starts
    out as zeros here. *)
Definition serial_packet_read (packet packetLength : bool)
    (type : packet_type_t) (w : serial_world)
  : serial_packet_read_result * serial_world :=
  if negb packet || negb packetLength
  then (mk_read_result kStatus_InvalidArgument None None, w)
  else
    let w := with_context w (set_isBackToBackWrite (g_serialContext w) false) in
    let '(status, w) := send_deferred_ack w in
    if negb (is_success status) then (mk_read_result status None (Some 0), w)
    else
      match serial_packet_read_loop
              (S (length (incoming (activePeripheral w))))
              (mk_framing_data_packet (mk_framing_header 0 0) 0 0) type w with
      | None => (mk_read_result kStatus_Fail None (Some 0), w)
      | Some (status, framingPacket, w) =>
          if negb (is_success status)
          then (mk_read_result status None (Some 0), w)
          else
            let w := with_context w (set_isAckNeeded (g_serialContext w) true) in
            (mk_read_result kStatus_Success
               (Some (sc_data (g_serialContext w)))
               (Some (dp_length framingPacket)), w)
      end.

(** The [do ... while] loop of [wait_for_ack_packet]; the turns are
    counted as in the loop of [serial_packet_read]. *)
Fixpoint wait_for_ack_packet_loop (turns : nat) (w : serial_world)
  : option (status_t * serial_world) :=
  match turns with
  | O => None
  | S turns' =>
      let '(status, sync, w) := read_header (mk_framing_header 0 0) w in
      if negb (is_success status) then Some (status, w)
      else if negb (packetType sync =? kFramingPacketType_Ack)
              && negb (packetType sync =? kFramingPacketType_Nak)
              && negb (packetType sync =? kFramingPacketType_AckAbort)
      then Some (kStatus_InvalidArgument, w)
      else if packetType sync =? kFramingPacketType_AckAbort
      then Some (kStatus_AbortDataPhase, w)
      else if packetType sync =? kFramingPacketType_Nak then
        let f := framingPacket (g_serialContext w) in
        let '(status, w) :=
          write_data
            (bytes_from (serial_framing_packet_bytes f) 0
               (sizeof_framing_data_packet_t + dp_length (dataPacket f))) w in
        if negb (is_success status) then Some (status, w)
        else wait_for_ack_packet_loop turns' w
      else Some (kStatus_Success, w)
  end.

Definition wait_for_ack_packet (w : serial_world) : status_t * serial_world :=
  match wait_for_ack_packet_loop
          (S (length (incoming (activePeripheral w)))) w with
  | Some r => r
  | None => (kStatus_Fail, w)
  end.

(** [packet] is [None] for a null pointer, and otherwise the memory the
    pointer leads to. *)
Definition serial_packet_write (packet : option (list Z)) (byteCount : Z)
    (type : packet_type_t) (w : serial_world)
  : status_t * serial_world :=
  match packet with
  | None => (kStatus_InvalidArgument, w)
  | Some packet =>
      if kOutgoingPacketBufferSize <? byteCount
      then (kStatus_InvalidArgument, w)
      else
        let '(status, w) := send_deferred_ack w in
        if negb (is_success status) then (status, w)
        else
          let w :=
            if isBackToBackWrite (g_serialContext w)
            then host_delay 100
                   (with_context w
                      (set_isBackToBackWrite (g_serialContext w) false))
            else w in
          let framingPacket := framingPacket (g_serialContext w) in
          let hdr :=
            mk_framing_header kFramingPacketStartByte
              (match type with
               | kPacketType_Command => kFramingPacketType_Command
               | kPacketType_Data => kFramingPacketType_Data
               end) in
          let dataPacket :=
            mk_framing_data_packet hdr (u16 byteCount)
              (dp_crc16 (dataPacket framingPacket)) in
          let data :=
            if byteCount =? 0 then fp_data framingPacket
            else memcpy_at (fp_data framingPacket) 0
                   (bytes_from packet 0 byteCount) in
          let dataPacket :=
            mk_framing_data_packet hdr (u16 byteCount)
              (calculate_framing_crc16 dataPacket data) in
          let framingPacket := mk_serial_framing_packet dataPacket data in
          let w := with_context w (set_framingPacket (g_serialContext w) framingPacket) in
          let '(status, w) :=
            write_data
              (bytes_from (serial_framing_packet_bytes framingPacket) 0
                 (sizeof_framing_data_packet_t + byteCount)) w in
          if negb (is_success status) then (status, w)
          else wait_for_ack_packet w
  end.

(** *** Runs of a module driver

    The value a change-gated phase compares and transmits: the test LED
    flag in [UhkModulePhase_SetTestLed], the brightness in
    [UhkModulePhase_SetLedPwmBrightness]. *)
Definition gated_value (p : uhk_module_phase_t) (v : uhk_module_vars_t) : Z :=
  match p with
  | UhkModulePhase_SetTestLed => if isTestLedOn v then 1 else 0
  | UhkModulePhase_SetLedPwmBrightness => ledPwmBrightness v
  | _ => 0
  end.

(** What may happen around the updates of module [id] when nobody mutates
    its source variables: the rest of the system (other drivers, the bus
    layer filling in a received message, the scheduler) changes anything
    but the source variables of [id] and the target variables its driver
    owns. *)
Definition vars_kept (id : Z) (fw fw' : firmware) : Prop :=
  UhkModuleVars fw' id = UhkModuleVars fw id
  /\ targetVars (uhkModuleStates fw' id) = targetVars (uhkModuleStates fw id).

(** [later id fw fw']: [fw'] is reached from [fw] by updates of module [id]
    and by steps of the rest of the system. *)
Inductive later (id : Z) (fw : firmware) : firmware -> Prop :=
| later_here : later id fw fw
| later_update fw1 :
    later id fw fw1 ->
    later id fw (snd (UhkModuleSlaveDriver_Update id fw1))
| later_env fw1 fw2 :
    later id fw fw1 -> vars_kept id fw1 fw2 -> later id fw fw2.

(** [n] calls of [LedSlaveDriver_Update] for one driver with nothing
    else in between, so that in particular nobody mutates the source
    table. *)
Fixpoint led_updates (n : nat) (ledDriverId : Z) (fw : firmware) : firmware :=
  match n with
  | O => fw
  | S n' => LedSlaveDriver_Update ledDriverId (led_updates n' ledDriverId fw)
  end.

(** [ceil(LED_DRIVER_LED_COUNT / PMW_REGISTER_UPDATE_CHUNK_SIZE)] *)
Definition led_chunk_count : Z :=
  (LED_DRIVER_LED_COUNT + PMW_REGISTER_UPDATE_CHUNK_SIZE - 1)
  / PMW_REGISTER_UPDATE_CHUNK_SIZE.

(** *** Vocabulary of the properties *)

Local Notation "'LEDS'" := LED_DRIVER_LED_COUNT.
Local Notation "'CHUNK'" := PMW_REGISTER_UPDATE_CHUNK_SIZE.


(** Every write of the script succeeds. *)
Definition writes_succeed (l : link) : Prop :=
  Forall (fun s => s = kStatus_Success) (write_status l).

(** The sync packets [send_deferred_ack] transmits for a context. *)
Definition deferred_ack_sync (c : serial_data_t) : list (list Z) :=
  if isAckNeeded c then [[kFramingPacketStartByte; kFramingPacketType_Ack]]
  else if isAckAbortNeeded c
       then [[kFramingPacketStartByte; kFramingPacketType_AckAbort]]
       else [].

(** The context [send_deferred_ack] leaves behind. *)
Definition after_deferred_ack (c : serial_data_t) : serial_data_t :=
  if isAckNeeded c then set_isBackToBackWrite (set_isAckNeeded c false) true
  else if isAckAbortNeeded c
       then set_isBackToBackWrite (set_isAckAbortNeeded c false) true
       else c.

(** The two buffers of a ping response. *)
Definition ping_response_packets : list (list Z) :=
  [[kFramingPacketStartByte; kFramingPacketType_PingResponse]; k_PingResponse].

(** What a Nak makes the engine transmit again: the retained framing
    packet, cut at the length it records. *)
Definition retransmission (c : serial_data_t) : list Z :=
  bytes_from (serial_framing_packet_bytes (framingPacket c)) 0
    (sizeof_framing_data_packet_t + dp_length (dataPacket (framingPacket c))).

(** [k] Nak sync packets in a row, as the peer sends them. *)
Definition nak_packets (k : nat) : list Z :=
  concat (repeat [kFramingPacketStartByte; kFramingPacketType_Nak] k).

Definition framing_type (type : packet_type_t) : Z :=
  match type with
  | kPacketType_Command => kFramingPacketType_Command
  | kPacketType_Data => kFramingPacketType_Data
  end.

(** The wire format of a Command or Data packet: start byte, packet
    type, length, crc16 over these four bytes and the payload, payload. *)
Definition wire_packet_crc (ftype : Z) (payload : list Z) : Z :=
  crc16_finalize
    (crc16_update
       (crc16_update crc16_init
          ([kFramingPacketStartByte; ftype]
           ++ halfword_bytes (Z.of_nat (length payload))))
       payload).

Definition wire_packet (ftype : Z) (crc : Z) (payload : list Z) : list Z :=
  [kFramingPacketStartByte; ftype]
  ++ halfword_bytes (Z.of_nat (length payload))
  ++ halfword_bytes crc ++ payload.

(** A packet, given by its crc field and its payload, that is read as a
    whole and then fails the crc check. *)
Definition crc_mismatch (ftype : Z) (p : Z * list Z) : Prop :=
  Z.of_nat (length (snd p)) <= kIncomingPacketBufferSize
  /\ 0 <= fst p < 65536
  /\ fst p <> wire_packet_crc ftype (snd p).

Definition wire_packets (ftype : Z) (ps : list (Z * list Z)) : list Z :=
  concat (map (fun p => wire_packet ftype (fst p) (snd p)) ps).

Definition nak_sync : list Z :=
  [kFramingPacketStartByte; kFramingPacketType_Nak].

(** The number of payload bytes the engine reads for a packet whose length
    field holds [len], and the length it keeps for the packet:
    [MIN(kIncomingPacketBufferSize, len)]. *)
Definition received_length (len : Z) : Z := Z.min kIncomingPacketBufferSize len.

(** A Command or Data packet as the engine takes it from the link: start
    byte, packet type, a length field holding [len], a crc field holding
    [crc], and the bytes [data] it reads as payload.  When the length field
    exceeds the receive buffer, [data] is shorter than the length field
    says. *)
Definition received_packet (ftype len crc : Z) (data : list Z) : list Z :=
  [kFramingPacketStartByte; ftype]
  ++ halfword_bytes len ++ halfword_bytes crc ++ data.

(** The crc the engine computes for such a packet: over the start byte,
    the packet type, the length it has kept, and the payload bytes it has
    read. *)
Definition recomputed_crc (ftype len : Z) (data : list Z) : Z :=
  crc16_finalize
    (crc16_update
       (crc16_update crc16_init
          ([kFramingPacketStartByte; ftype]
           ++ halfword_bytes (received_length len)))
       data).

(** A packet, given by its length field, its crc field and the payload
    bytes read for it, whose crc field differs from the crc the engine
    computes. *)
Definition crc_rejected (ftype : Z) (p : Z * Z * list Z) : Prop :=
  let '(len, crc, data) := p in
  0 <= len < 65536
  /\ 0 <= crc < 65536
  /\ length data = Z.to_nat (received_length len)
  /\ crc <> recomputed_crc ftype len data.

Definition received_packets (ftype : Z) (ps : list (Z * Z * list Z)) : list Z :=
  concat
    (map (fun p => let '(len, crc, data) := p in
                   received_packet ftype len crc data) ps).

(** [d i] tells whether LED [i] still differs; [clean d a b]: none of the
    LEDs [a], ..., [b - 1] does. *)
Definition clean (d : Z -> bool) (a b : Z) : Prop :=
  forall i, a <= i < b -> d i = false.

(** Where the scan for the first differing LED starts: the cursor,
    clamped to the start of the last whole chunk. *)
Definition scan_start (index : Z) : Z :=
  Z.min index (LED_DRIVER_LED_COUNT - PMW_REGISTER_UPDATE_CHUNK_SIZE).

(** One update that transmits the run of [len] LEDs from [start]: [start]
    is the first differing LED in circular order from the scan start, the
    whole window of one chunk from [start] is settled afterwards, no LED
    starts to differ, and the cursor moves on by [len]. *)
Definition led_step (d d' : Z -> bool) (index index' start len : Z) : Prop :=
  0 <= start < LED_DRIVER_LED_COUNT
  /\ 1 <= len <= PMW_REGISTER_UPDATE_CHUNK_SIZE
  /\ start + len <= LED_DRIVER_LED_COUNT
  /\ d start = true
  /\ ((scan_start index <= start /\ clean d (scan_start index) start)
      \/ (start < scan_start index
          /\ clean d (scan_start index) LED_DRIVER_LED_COUNT
          /\ clean d 0 start))
  /\ clean d' start
       (Z.min (start + PMW_REGISTER_UPDATE_CHUNK_SIZE) LED_DRIVER_LED_COUNT)
  /\ (forall i, d' i = true -> d i = true)
  /\ index' = (if LED_DRIVER_LED_COUNT <=? index + len then 0 else index + len).

(** The LEDs below [lo] and those from [s] up to [b] are settled, and the
    scan starts inside the second stretch or, once that stretch reaches the
    end of the table, not above the first. *)
Definition cursor_inv (d : Z -> bool) (index lo s b : Z) : Prop :=
  0 <= index < LED_DRIVER_LED_COUNT
  /\ 0 <= lo
  /\ 0 <= s <= b
  /\ b <= LED_DRIVER_LED_COUNT
  /\ clean d 0 lo
  /\ clean d s b
  /\ (s <= scan_start index <= b
      \/ (b = LED_DRIVER_LED_COUNT /\ scan_start index <= lo)).

(** A driver in the [Initialized] phase whose tables have one entry per
    LED and whose cursor lies inside the table. *)
Definition led_tables_ok (st : led_driver_state_t) : Prop :=
  phase st = LedDriverPhase_Initialized
  /\ Z.of_nat (length (sourceLedValues st)) = LEDS
  /\ Z.of_nat (length (targetLedValues st)) = LEDS
  /\ 0 <= ledIndex st < LEDS.

(** *** Further operations of the drivers and of the framing engine *)

Definition set_setupLedControlRegistersCommand (s : led_driver_state_t)
    (command : list Z) :=
  mk_led_driver_state (phase s) (ledIndex s) (i2cAddress s) (sourceLedValues s)
    (targetLedValues s) command.

(** The text display routine of [led_display.h], an external collaborator:
    [LedDisplay_SetText length text] with the text as its character codes. *)
Variable LedDisplay_SetText : Z -> list Z -> firmware -> firmware.

(** [LedSlaveDriver_Init].  The statements run in the order of the source,
    each on the state the one before it left, so that the initialisation of
    the left driver sees its own writes through [LedDriverStates +
    LedDriverId_Left].  The [memset] clears the first
    [LED_DRIVER_LED_COUNT] bytes of the target table. *)
Definition LedSlaveDriver_Init (ledDriverId : Z) (fw : firmware) : firmware :=
  let fw :=
    set_LedDriverState fw ledDriverId
      (set_phase (LedDriverStates fw ledDriverId) LedDriverPhase_SetFunctionFrame) in
  let fw :=
    set_LedDriverState fw ledDriverId
      (set_ledIndex (LedDriverStates fw ledDriverId) 0) in
  let left := LedDriverStates fw LedDriverId_Left in
  let command := setupLedControlRegistersCommand left in
  let fw :=
    set_LedDriverState fw LedDriverId_Left
      (set_setupLedControlRegistersCommand left
         (array_set command 7 (Z.lor (byte_at command 7) 2))) in
  let currentLedDriverState := LedDriverStates fw ledDriverId in
  let fw :=
    set_LedDriverState fw ledDriverId
      (set_targetLedValues currentLedDriverState
         (memcpy_at (targetLedValues currentLedDriverState) 0
            (memset 0 LED_DRIVER_LED_COUNT))) in
  let fw := SetLeds 255 fw in
  LedDisplay_SetText 3 [65; 66; 67] fw.

(** [n] calls of [UhkModuleSlaveDriver_Update] for one module with nothing
    else in between. *)
Fixpoint module_updates (n : nat) (uhkModuleDriverId : Z) (fw : firmware)
  : firmware :=
  match n with
  | O => fw
  | S n' =>
      snd (UhkModuleSlaveDriver_Update uhkModuleDriverId
             (module_updates n' uhkModuleDriverId fw))
  end.

(** Declared in [serial_packet.h], which is not part of the sources at
    hand. *)
Variable kCallbackBufferSize : Z.

(** [serial_packet_queue_byte]:
<<
    g_serialContext.callbackBuffer[g_serialContext.writeOffset++] = byte;
    g_serialContext.writeOffset &= kCallbackBufferSize - 1;
>>
    A store outside the array is undefined in C: [None]. *)
Definition serial_packet_queue_byte (byte : Z) (q : callback_queue_t)
  : option callback_queue_t :=
  if (0 <=? writeOffset q)
     && (writeOffset q <? Z.of_nat (length (callbackBuffer q)))
  then
    let buffer :=
      array_set (callbackBuffer q) (Z.to_nat (writeOffset q)) byte in
    let offset := (writeOffset q + 1) mod 2 ^ 32 in
    Some (mk_callback_queue buffer (Z.land offset (kCallbackBufferSize - 1)))
  else None.

(** The bytes of a burst queued one after the other, as the receive
    interrupt of the peripheral does. *)
Fixpoint serial_packet_queue_bytes (bytes : list Z) (q : callback_queue_t)
  : option callback_queue_t :=
  match bytes with
  | [] => Some q
  | byte :: bytes' =>
      match serial_packet_queue_byte byte q with
      | Some q' => serial_packet_queue_bytes bytes' q'
      | None => None
      end
  end.

(** *** Further vocabulary *)

(** The write offset lies inside the callback buffer, which has its
    declared size. *)
Definition queue_ok (q : callback_queue_t) : Prop :=
  Z.of_nat (length (callbackBuffer q)) = kCallbackBufferSize
  /\ 0 <= writeOffset q < kCallbackBufferSize.

(** The successor of a phase of the module driver. *)
Definition next_module_phase (p : uhk_module_phase_t) : uhk_module_phase_t :=
  match p with
  | UhkModulePhase_RequestModuleFeatures => UhkModulePhase_ReceiveModuleFeatures
  | UhkModulePhase_ReceiveModuleFeatures => UhkModulePhase_ProcessModuleFeatures
  | UhkModulePhase_ProcessModuleFeatures => UhkModulePhase_RequestKeyStates
  | UhkModulePhase_RequestKeyStates => UhkModulePhase_ReceiveKeystates
  | UhkModulePhase_ReceiveKeystates => UhkModulePhase_ProcessKeystates
  | UhkModulePhase_ProcessKeystates => UhkModulePhase_SetTestLed
  | UhkModulePhase_SetTestLed => UhkModulePhase_SetLedPwmBrightness
  | UhkModulePhase_SetLedPwmBrightness => UhkModulePhase_RequestKeyStates
  end.

(** The phases of the features handshake, which come before the cycle. *)
Definition features_phase (p : uhk_module_phase_t) : bool :=
  match p with
  | UhkModulePhase_RequestModuleFeatures
  | UhkModulePhase_ReceiveModuleFeatures
  | UhkModulePhase_ProcessModuleFeatures => true
  | _ => false
  end.

(** The part of a message that its length field covers. *)
Definition message_bytes (m : i2c_message_t) : list Z :=
  bytes_from (msg_data m) 0 (msg_length m).

(** The slave address a request goes to. *)
Definition request_address (r : i2c_request) : Z :=
  match r with
  | I2cAsyncWrite a _ => a
  | I2cAsyncWriteMessage a _ => a
  | I2cAsyncReadMessage a => a
  end.

(** The request of the [InitLedValues] phase for chunk number [k] when
    the chunk lies inside the source table and fills the buffer behind the
    register address: that address and the chunk. *)
Definition init_led_values_request (st : led_driver_state_t) (k : nat)
  : i2c_request :=
  let index := Z.of_nat k * CHUNK in
  I2cAsyncWrite (i2cAddress st)
    (u8 (FRAME_REGISTER_PWM_FIRST + index)
     :: bytes_from (sourceLedValues st) index CHUNK).

(** What the driver hands to the bus from the [SetFunctionFrame] phase to
    the [Initialized] phase. *)
Definition led_init_requests (st : led_driver_state_t) : list i2c_request :=
  [I2cAsyncWrite (i2cAddress st) setFunctionFrameBuffer;
   I2cAsyncWrite (i2cAddress st) setShutdownModeNormalBuffer;
   I2cAsyncWrite (i2cAddress st) setFrame1Buffer;
   I2cAsyncWrite (i2cAddress st)
     (bytes_from (setupLedControlRegistersCommand st) 0
        LED_CONTROL_REGISTERS_COMMAND_LENGTH)]
  ++ map (init_led_values_request st) (seq 0 (Z.to_nat led_chunk_count)).

(** A value a [uint8_t] holds. *)
Definition is_byte (b : Z) : Prop := 0 <= b < 256.

(** The two acknowledgement flags are not set at once. *)
Definition one_ack_pending (c : serial_data_t) : Prop :=
  isAckNeeded c && isAckAbortNeeded c = false.

(** What the properties of [LedSlaveDriver_Init] ask of a display routine:
    of the LED driver states it writes source tables only. *)
Definition keeps_driver_control (f : firmware -> firmware) : Prop :=
  forall fw j,
    phase (LedDriverStates (f fw) j) = phase (LedDriverStates fw j)
    /\ ledIndex (LedDriverStates (f fw) j) = ledIndex (LedDriverStates fw j)
    /\ targetLedValues (LedDriverStates (f fw) j)
       = targetLedValues (LedDriverStates fw j)
    /\ setupLedControlRegistersCommand (LedDriverStates (f fw) j)
       = setupLedControlRegistersCommand (LedDriverStates fw j).

(** * Properties *)

(** ** The module driver *)

Lemma store_same {A : Type} (a : Z -> A) i v : store a i v i = v.
Proof. unfold store. rewrite Z.eqb_refl. reflexivity. Qed.

Lemma store_other {A : Type} (a : Z -> A) i j v :
  j <> i -> store a i v j = a j.
Proof. unfold store. intros H. apply Z.eqb_neq in H. rewrite H. reflexivity. Qed.

(** An update never touches the source variables. *)
Lemma UhkModuleSlaveDriver_Update_source id fw :
  UhkModuleVars (snd (UhkModuleSlaveDriver_Update id fw)) = UhkModuleVars fw.
Proof.
  unfold UhkModuleSlaveDriver_Update.
  destruct (module_phase (uhkModuleStates fw id)); cbn;
    repeat match goal with
    | |- context [if ?b then _ else _] => destruct b
    end; reflexivity.
Qed.

(** What an update does in a change-gated phase. *)
Lemma UhkModuleSlaveDriver_Update_gated id fw :
  let p := module_phase (uhkModuleStates fw id) in
  let source := UhkModuleVars fw id in
  let target := targetVars (uhkModuleStates fw id) in
  let r := UhkModuleSlaveDriver_Update id fw in
  p = UhkModulePhase_SetTestLed \/ p = UhkModulePhase_SetLedPwmBrightness ->
  (gated_value p source <> gated_value p target ->
   (exists message,
      i2c_log (snd r)
      = i2c_log fw
        ++ [I2cAsyncWriteMessage (firmwareI2cAddress (uhkModuleStates fw id))
              message])
   /\ gated_value p (targetVars (uhkModuleStates (snd r) id))
      = gated_value p source)
  /\ (gated_value p source = gated_value p target ->
      i2c_log (snd r) = i2c_log fw
      /\ fst r = kStatus_Uhk_NoTransfer
      /\ targetVars (uhkModuleStates (snd r) id) = target).
Proof.
  intros p source target r Hp. subst r.
  unfold UhkModuleSlaveDriver_Update. fold source target.
  destruct Hp as [Hp | Hp]; unfold p in *; rewrite Hp; cbn [gated_value].
  - destruct (isTestLedOn source) eqn:Es, (isTestLedOn target) eqn:Et;
      cbn [Bool.eqb]; (split; intros H; [try congruence|try congruence]);
      cbn; rewrite ?store_same; cbn; rewrite ?Es;
      first [ split; [eexists; reflexivity|reflexivity]
            | repeat split; reflexivity ].
  - destruct (ledPwmBrightness source =? ledPwmBrightness target) eqn:E.
    + apply Z.eqb_eq in E. split; intros H; [congruence|].
      cbn. rewrite store_same. auto.
    + apply Z.eqb_neq in E. split; intros H; [|congruence].
      cbn. rewrite store_same. cbn.
      split; [eexists; reflexivity|reflexivity].
Qed.

(** Once the gated value of the target equals that of the source, it
    stays so along every run without source mutation. *)
Lemma gated_value_settled p id fw fw' :
  later id fw fw' ->
  gated_value p (targetVars (uhkModuleStates fw id))
  = gated_value p (UhkModuleVars fw id) ->
  gated_value p (targetVars (uhkModuleStates fw' id))
  = gated_value p (UhkModuleVars fw' id).
Proof.
  intros Hl H0. induction Hl as [|fw1 Hl IH|fw1 fw2 Hl IH [Hs Ht]].
  - exact H0.
  - rewrite UhkModuleSlaveDriver_Update_source.
    unfold UhkModuleSlaveDriver_Update.
    destruct (module_phase (uhkModuleStates fw1 id)) eqn:Ep.
    + cbn. rewrite store_same. exact IH.
    + cbn. rewrite store_same. exact IH.
    + destruct (CRC16_IsMessageValid _); cbn; rewrite store_same; exact IH.
    + cbn. rewrite store_same. exact IH.
    + cbn. rewrite store_same. exact IH.
    + destruct (CRC16_IsMessageValid _); cbn; rewrite store_same; exact IH.
    + destruct (Bool.eqb _ _) eqn:E; cbn; rewrite store_same; [exact IH|].
      destruct p; cbn in *; try exact IH; reflexivity.
    + destruct (_ =? _) eqn:E; cbn; rewrite store_same; [exact IH|].
      destruct p; cbn in *; try exact IH; reflexivity.
  - rewrite Hs, Ht. exact IH.
Qed.

(** C8.  In the [SetTestLed] and [SetLedPwmBrightness] phases an update
    issues a bus transfer when the source value differs from the target
    value and only then; a transfer sets the target to the source; and in
    every later update of the same phase, as long as nobody mutates the
    source, no transfer is issued. *)
Theorem UhkModuleSlaveDriver_Update_change_gated id fw :
  let p := module_phase (uhkModuleStates fw id) in
  let source := UhkModuleVars fw id in
  let target := targetVars (uhkModuleStates fw id) in
  let r := UhkModuleSlaveDriver_Update id fw in
  p = UhkModulePhase_SetTestLed \/ p = UhkModulePhase_SetLedPwmBrightness ->
  (gated_value p source <> gated_value p target ->
   (exists message,
      i2c_log (snd r)
      = i2c_log fw
        ++ [I2cAsyncWriteMessage (firmwareI2cAddress (uhkModuleStates fw id))
              message])
   /\ gated_value p (targetVars (uhkModuleStates (snd r) id))
      = gated_value p source)
  /\ (gated_value p source = gated_value p target ->
      i2c_log (snd r) = i2c_log fw
      /\ fst r = kStatus_Uhk_NoTransfer
      /\ targetVars (uhkModuleStates (snd r) id) = target)
  /\ (forall fw2,
        later id (snd r) fw2 ->
        module_phase (uhkModuleStates fw2 id) = p ->
        i2c_log (snd (UhkModuleSlaveDriver_Update id fw2)) = i2c_log fw2
        /\ fst (UhkModuleSlaveDriver_Update id fw2) = kStatus_Uhk_NoTransfer).
Proof.
  intros p source target r Hp.
  pose proof (UhkModuleSlaveDriver_Update_gated id fw Hp) as [Hd He].
  fold p source target r in Hd, He.
  split; [exact Hd|]. split; [exact He|].
  intros fw2 Hl Hp2.
  assert (Hsettled :
    gated_value p (targetVars (uhkModuleStates (snd r) id))
    = gated_value p (UhkModuleVars (snd r) id)).
  { unfold r at 2. rewrite UhkModuleSlaveDriver_Update_source. fold source.
    destruct (Z.eq_dec (gated_value p source) (gated_value p target)) as [E|E].
    - destruct (He E) as (_ & _ & Ht). rewrite Ht. auto.
    - apply Hd; exact E. }
  pose proof (gated_value_settled p id (snd r) fw2 Hl Hsettled) as H2.
  assert (Hp2' : module_phase (uhkModuleStates fw2 id) = UhkModulePhase_SetTestLed
                 \/ module_phase (uhkModuleStates fw2 id)
                    = UhkModulePhase_SetLedPwmBrightness)
    by (rewrite Hp2; exact Hp).
  pose proof (UhkModuleSlaveDriver_Update_gated id fw2 Hp2') as [_ He2].
  rewrite Hp2 in He2. destruct (He2 (eq_sym H2)) as (Hlog & Hst & _).
  auto.
Qed.

(** C9 (amended).  The disconnect operation for the left keyboard half
    marks the entry of the left LED driver not connected and leaves the entry
    of the left keyboard half as it was.  An update of the left LED driver in
    the [SetFunctionFrame] phase issues no transfer and holds the phase when
    the entry of the left keyboard half is not connected at that moment, and
    issues the frame selection and moves on when it is connected. *)
Theorem UhkModuleSlaveDriver_Disconnect_left_half fw fw2 :
  SlaveId_LeftKeyboardHalf <> SlaveId_LeftLedDriver ->
  let fw1 := UhkModuleSlaveDriver_Disconnect SlaveId_LeftKeyboardHalf fw in
  let fw3 := LedSlaveDriver_Update LedDriverId_Left fw2 in
  isConnected (Slaves fw1 SlaveId_LeftLedDriver) = false
  /\ isConnected (Slaves fw1 SlaveId_LeftKeyboardHalf)
     = isConnected (Slaves fw SlaveId_LeftKeyboardHalf)
  /\ (phase (LedDriverStates fw2 LedDriverId_Left)
      = LedDriverPhase_SetFunctionFrame ->
      if isConnected (Slaves fw2 SlaveId_LeftKeyboardHalf)
      then i2c_log fw3
           = i2c_log fw2
             ++ [I2cAsyncWrite (i2cAddress (LedDriverStates fw2 LedDriverId_Left))
                   setFunctionFrameBuffer]
           /\ phase (LedDriverStates fw3 LedDriverId_Left)
              = LedDriverPhase_SetShutdownModeNormal
      else fw3 = fw2).
Proof.
  intros Hne fw1 fw3. subst fw1 fw3.
  unfold UhkModuleSlaveDriver_Disconnect. rewrite Z.eqb_refl.
  cbn [set_Slaves Slaves]. rewrite store_same.
  rewrite store_other by exact Hne.
  split; [reflexivity|]. split; [reflexivity|].
  intros Hp. unfold LedSlaveDriver_Update. rewrite Hp, Z.eqb_refl.
  destruct (isConnected (Slaves fw2 SlaveId_LeftKeyboardHalf)); cbn.
  - rewrite store_same. auto.
  - reflexivity.
Qed.

(** ** The byte interface and the deferred acknowledgement *)

Lemma writes_succeed_hd l :
  writes_succeed l -> hd kStatus_Success (write_status l) = kStatus_Success.
Proof.
  unfold writes_succeed. destruct (write_status l) as [|s ss]; simpl; auto.
  intros H. inversion H; auto.
Qed.

Lemma writes_succeed_tl l :
  writes_succeed l -> Forall (fun s => s = kStatus_Success) (tl (write_status l)).
Proof.
  unfold writes_succeed. destruct (write_status l) as [|s ss]; simpl; auto.
  intros H. inversion H; auto.
Qed.

Lemma write_data_ok buffer c inc wr ws dl :
  Forall (fun s => s = kStatus_Success) ws ->
  write_data buffer (mk_serial_world c (mk_link inc wr ws dl))
  = (kStatus_Success, mk_serial_world c (mk_link inc (wr ++ [buffer]) (tl ws) dl))
    /\ Forall (fun s => s = kStatus_Success) (tl ws).
Proof.
  intros H. unfold write_data, byteInterface_write. simpl.
  destruct ws as [|s ss]; simpl; [auto|].
  inversion H; subst. auto.
Qed.

Lemma read_data_ok n t bytes rest c wr ws dl :
  Z.to_nat n = length bytes ->
  read_data n t (mk_serial_world c (mk_link (bytes ++ rest) wr ws dl))
  = (kStatus_Success, bytes, mk_serial_world c (mk_link rest wr ws dl)).
Proof.
  intros H. unfold read_data, byteInterface_read. simpl.
  rewrite H.
  replace (length bytes <=? length (bytes ++ rest))%nat with true.
  2:{ symmetry. apply Nat.leb_le. rewrite length_app. lia. }
  rewrite firstn_app, Nat.sub_diag, firstn_all. simpl. rewrite app_nil_r.
  rewrite skipn_app, Nat.sub_diag, skipn_all. reflexivity.
Qed.

Lemma read_data_shrinks n t w st bytes w' :
  read_data n t w = (st, bytes, w') ->
  (length (incoming (activePeripheral w'))
   <= length (incoming (activePeripheral w)))%nat.
Proof.
  unfold read_data, byteInterface_read. intros H. inversion H; subst.
  cbn [activePeripheral incoming]. rewrite length_skipn. lia.
Qed.

Lemma send_deferred_ack_ok c inc wr ws dl :
  Forall (fun s => s = kStatus_Success) ws ->
  send_deferred_ack (mk_serial_world c (mk_link inc wr ws dl))
  = (kStatus_Success,
     mk_serial_world (after_deferred_ack c)
       (mk_link inc (wr ++ deferred_ack_sync c)
          (skipn (length (deferred_ack_sync c)) ws) dl))
    /\ Forall (fun s => s = kStatus_Success)
         (skipn (length (deferred_ack_sync c)) ws).
Proof.
  intros Hws. unfold send_deferred_ack, deferred_ack_sync, after_deferred_ack.
  cbn [g_serialContext].
  destruct (isAckNeeded c) eqn:Ea; [|destruct (isAckAbortNeeded c) eqn:Eb].
  - unfold serial_packet_send_sync, with_context.
    cbn [g_serialContext activePeripheral].
    destruct (write_data_ok [kFramingPacketStartByte; kFramingPacketType_Ack]
                (set_isBackToBackWrite (set_isAckNeeded c false) true)
                inc wr ws dl Hws) as [E F].
    rewrite E. simpl. destruct ws; auto.
  - unfold serial_packet_send_sync, with_context.
    cbn [g_serialContext activePeripheral].
    destruct (write_data_ok [kFramingPacketStartByte; kFramingPacketType_AckAbort]
                (set_isBackToBackWrite (set_isAckAbortNeeded c false) true)
                inc wr ws dl Hws) as [E F].
    rewrite E. simpl. destruct ws; auto.
  - simpl. rewrite app_nil_r. auto.
Qed.

Lemma after_deferred_ack_isAckNeeded c :
  isAckNeeded (after_deferred_ack c) = false.
Proof.
  unfold after_deferred_ack.
  destruct (isAckNeeded c) eqn:Ea; [reflexivity|].
  destruct (isAckAbortNeeded c); simpl; auto.
Qed.

Lemma deferred_ack_sync_backToBack c b :
  deferred_ack_sync (set_isBackToBackWrite c b) = deferred_ack_sync c.
Proof. reflexivity. Qed.

(** The reply is withheld only when all three flags are set at once. *)
Lemma serial_send_ping_response_written c l :
  written (activePeripheral
             (snd (serial_send_ping_response (mk_serial_world c l))))
  = if isAckNeeded c && isBackToBackWrite c && isAckAbortNeeded c
    then written l
    else written l ++ ping_response_packets.
Proof.
  unfold serial_send_ping_response. cbn [g_serialContext].
  destruct (isAckNeeded c), (isBackToBackWrite c), (isAckAbortNeeded c);
    simpl; rewrite <- ?app_assoc; reflexivity.
Qed.

(** C4 (as the code has it).  With an acknowledgement pending and the
    back-to-back flag clear, [serial_send_ping_response] still transmits the
    ping response header and the ping response record. *)
Theorem serial_send_ping_response_ack_pending d f abortNeeded inc wr ws dl :
  serial_send_ping_response
    (mk_serial_world (mk_serial_data d f true false abortNeeded)
       (mk_link inc wr ws dl))
  = (kStatus_Ping,
     mk_serial_world (mk_serial_data d f true false abortNeeded)
       (mk_link inc (wr ++ ping_response_packets) (tl (tl ws)) dl)).
Proof.
  unfold serial_send_ping_response, ping_response_packets. simpl.
  rewrite <- app_assoc. reflexivity.
Qed.

(** C10.  A null payload pointer or a byte count above the outgoing buffer
    size makes [serial_packet_write] return [kStatus_InvalidArgument] with
    the context and the link as they were: nothing is written, no flag and
    no byte of the retained framing packet changes. *)
Theorem serial_packet_write_invalid_argument packet byteCount type w :
  packet = None \/ kOutgoingPacketBufferSize < byteCount ->
  serial_packet_write packet byteCount type w = (kStatus_InvalidArgument, w).
Proof.
  intros [-> | Hlen]; [reflexivity|].
  unfold serial_packet_write. destruct packet as [p|]; [|reflexivity].
  apply Z.ltb_lt in Hlen. rewrite Hlen. reflexivity.
Qed.

Lemma bytes_from_prefix (a b : list Z) :
  bytes_from (a ++ b) 0 (Z.of_nat (length a)) = a.
Proof.
  unfold bytes_from. rewrite Nat2Z.id. simpl.
  rewrite firstn_app, Nat.sub_diag, firstn_all. simpl. apply app_nil_r.
Qed.

Lemma memcpy_at_0 (dst bytes : list Z) :
  memcpy_at dst 0 bytes = bytes ++ skipn (length bytes) dst.
Proof. reflexivity. Qed.

Lemma halfword_halfword_bytes h :
  0 <= h < 65536 -> halfword (halfword_bytes h) = h.
Proof.
  intros Hh. unfold halfword, halfword_bytes, byte_at.
  change (Z.to_nat 0) with 0%nat. change (Z.to_nat 1) with 1%nat.
  cbn [nth].
  rewrite (Z.mod_small (h / 256)).
  - pose proof (Z.div_mod h 256). lia.
  - split; [apply Z.div_pos; lia|apply Z.div_lt_upper_bound; lia].
Qed.

Lemma calculate_framing_crc16_wire ftype crc payload tail :
  calculate_framing_crc16
    (mk_framing_data_packet
       (mk_framing_header kFramingPacketStartByte ftype)
       (Z.of_nat (length payload)) crc)
    (payload ++ tail)
  = wire_packet_crc ftype payload.
Proof.
  unfold calculate_framing_crc16, wire_packet_crc. cbn [dp_length].
  rewrite bytes_from_prefix. reflexivity.
Qed.

Lemma set_sc_data_same c : set_sc_data c (sc_data c) = c.
Proof. destruct c; reflexivity. Qed.

Lemma length_nak_packets k : length (nak_packets k) = (2 * k)%nat.
Proof.
  unfold nak_packets. induction k as [|k IH]; simpl in *; lia.
Qed.

(** ** Buffers and tables *)

Lemma u8_small x : 0 <= x < 256 -> u8 x = x.
Proof. intros H. unfold u8. apply Z.mod_small. exact H. Qed.

Lemma length_bytes_from buf off n :
  0 <= off -> 0 <= n -> off + n <= Z.of_nat (length buf) ->
  Z.of_nat (length (bytes_from buf off n)) = n.
Proof.
  intros Ho Hn Hl. unfold bytes_from.
  rewrite length_firstn, length_skipn. lia.
Qed.

Lemma byte_at_bytes_from buf off n i :
  0 <= off -> 0 <= i < n ->
  byte_at (bytes_from buf off n) i = byte_at buf (off + i).
Proof.
  intros Ho Hi. unfold byte_at, bytes_from.
  rewrite nth_firstn.
  replace (Z.to_nat i <? Z.to_nat n)%nat with true
    by (symmetry; apply Nat.ltb_lt; lia).
  rewrite nth_skipn. f_equal. lia.
Qed.

(** Copying a run of the source table into the target table. *)
Lemma byte_at_memcpy_at target source start len i :
  0 <= start -> 0 <= len ->
  start + len <= Z.of_nat (length source) ->
  start + len <= Z.of_nat (length target) ->
  0 <= i ->
  byte_at (memcpy_at target start (bytes_from source start len)) i
  = if (start <=? i) && (i <? start + len) then byte_at source i
    else byte_at target i.
Proof.
  intros Hs Hl Hsrc Htgt Hi.
  pose proof (length_bytes_from source start len Hs Hl Hsrc) as Hlen.
  unfold memcpy_at, byte_at at 1.
  destruct (start <=? i) eqn:E1; [apply Z.leb_le in E1|apply Z.leb_gt in E1].
  - rewrite app_nth2 by (rewrite length_firstn; lia).
    rewrite length_firstn.
    replace (Nat.min (Z.to_nat start) (length target)) with (Z.to_nat start)
      by lia.
    destruct (i <? start + len) eqn:E2;
      [apply Z.ltb_lt in E2|apply Z.ltb_ge in E2]; cbn [andb].
    + rewrite app_nth1 by lia.
      replace (Z.to_nat i - Z.to_nat start)%nat with (Z.to_nat (i - start))
        by lia.
      fold (byte_at (bytes_from source start len) (i - start)).
      rewrite byte_at_bytes_from by lia. f_equal. lia.
    + rewrite app_nth2 by lia. rewrite nth_skipn. unfold byte_at.
      f_equal. lia.
  - cbn [andb]. rewrite app_nth1 by (rewrite length_firstn; lia).
    rewrite nth_firstn.
    replace (Z.to_nat i <? Z.to_nat start)%nat with true
      by (symmetry; apply Nat.ltb_lt; lia).
    reflexivity.
Qed.

Lemma length_memcpy_at target source start len :
  0 <= start -> 0 <= len ->
  start + len <= Z.of_nat (length source) ->
  start + len <= Z.of_nat (length target) ->
  length (memcpy_at target start (bytes_from source start len)) = length target.
Proof.
  intros Hs Hl Hsrc Htgt.
  pose proof (length_bytes_from source start len Hs Hl Hsrc) as Hlen.
  unfold memcpy_at. rewrite !length_app, length_firstn, length_skipn. lia.
Qed.

Lemma led_differs_negative source target i :
  i < 0 -> led_differs source target i = led_differs source target 0.
Proof.
  intros Hi. unfold led_differs, byte_at.
  replace (Z.to_nat i) with (Z.to_nat 0) by lia. reflexivity.
Qed.

Lemma clean_weaken (d d' : Z -> bool) a b :
  (forall i, d' i = true -> d i = true) -> clean d a b -> clean d' a b.
Proof.
  intros Hle Hc i Hi. specialize (Hc i Hi).
  destruct (d' i) eqn:E; [|reflexivity].
  apply Hle in E. congruence.
Qed.

Lemma clean_join (d : Z -> bool) a b c :
  clean d a b -> clean d b c -> clean d a c.
Proof.
  intros H1 H2 i Hi. destruct (Z_lt_ge_dec i b); [apply H1|apply H2]; lia.
Qed.

Lemma clean_sub (d : Z -> bool) a b a' b' :
  clean d a b -> a <= a' -> b' <= b -> clean d a' b'.
Proof. intros H Ha Hb i Hi. apply H. lia. Qed.

Lemma clean_not (d : Z -> bool) a b i :
  clean d a b -> d i = true -> i < a \/ b <= i.
Proof.
  intros Hc Hd. destruct (Z_lt_ge_dec i a); [lia|].
  destruct (Z_lt_ge_dec i b); [|lia].
  rewrite Hc in Hd by lia. discriminate.
Qed.

Lemma budget_step k c x :
  0 < c -> 0 <= k -> 0 < x -> x <= k * c ->
  1 <= k /\ 0 <= k * c - c /\ (k - 1) * c = k * c - c.
Proof.
  intros Hc Hk Hx Hle.
  assert (H1 : 1 <= k).
  { destruct (Z_le_gt_dec k 0); [|lia].
    assert (k * c <= 0) by (apply Z.mul_nonpos_nonneg; lia). lia. }
  split; [exact H1|]. split; [|ring].
  assert (1 * c <= k * c) by (apply Z.mul_le_mono_nonneg_r; lia). lia.
Qed.

(** The [InitLedValues] phase hands over to the [Initialized] phase with
    the cursor at 0. *)
Lemma LedSlaveDriver_Update_enters_Initialized id fw :
  phase (LedDriverStates fw id) = LedDriverPhase_InitLedValues ->
  phase (LedDriverStates (LedSlaveDriver_Update id fw) id)
  = LedDriverPhase_Initialized ->
  ledIndex (LedDriverStates (LedSlaveDriver_Update id fw) id) = 0.
Proof.
  intros Hp. unfold LedSlaveDriver_Update. rewrite Hp.
  destruct (LED_DRIVER_LED_COUNT <=? _);
    unfold set_LedDriverState; cbn [LedDriverStates];
    rewrite store_same; cbn; [reflexivity|].
  rewrite Hp. discriminate.
Qed.

Lemma led_updates_first n id fw :
  led_updates (S n) id fw = led_updates n id (LedSlaveDriver_Update id fw).
Proof.
  induction n as [|n IH]; [reflexivity|].
  cbn [led_updates] in *. rewrite IH. reflexivity.
Qed.

(** ** A module driver from update to update *)

(** The phase after an update is a function of the phase before it. *)
Lemma UhkModuleSlaveDriver_Update_phase id fw :
  module_phase (uhkModuleStates (snd (UhkModuleSlaveDriver_Update id fw)) id)
  = next_module_phase (module_phase (uhkModuleStates fw id)).
Proof.
  unfold UhkModuleSlaveDriver_Update.
  destruct (module_phase (uhkModuleStates fw id)); cbn;
    repeat match goal with
    | |- context [if ?b then _ else _] => destruct b
    end; cbn; rewrite ?store_same; reflexivity.
Qed.

Lemma module_updates_phase n id fw :
  module_phase (uhkModuleStates (module_updates n id fw) id)
  = Nat.iter n next_module_phase (module_phase (uhkModuleStates fw id)).
Proof.
  induction n as [|n IH]; [reflexivity|].
  cbn [module_updates]. rewrite Nat.iter_succ.
  rewrite UhkModuleSlaveDriver_Update_phase, IH. reflexivity.
Qed.

(** X1.  Whatever state a module driver is in, after three updates it
    has left the phases of the features handshake for good, and from then on
    its phase repeats every five updates: the features are requested at most
    once, the key states, the test LED and the brightness are served in
    turn. *)
Theorem module_updates_cycle id fw (n : nat) :
  let p k := module_phase (uhkModuleStates (module_updates k id fw) id) in
  features_phase (p (3 + n)%nat) = false
  /\ p (3 + n + 5)%nat = p (3 + n)%nat.
Proof.
  intros p. subst p. cbv beta. rewrite !module_updates_phase.
  generalize (module_phase (uhkModuleStates fw id)). intros p0.
  assert (H3 : features_phase (Nat.iter (3 + n) next_module_phase p0) = false).
  { induction n as [|n IH].
    - destruct p0; reflexivity.
    - replace (3 + S n)%nat with (S (3 + n)) by lia.
      rewrite Nat.iter_succ.
      destruct (Nat.iter (3 + n) next_module_phase p0);
        try discriminate; reflexivity. }
  split; [exact H3|].
  replace (3 + n + 5)%nat with (5 + (3 + n))%nat by lia.
  rewrite Nat.iter_add.
  destruct (Nat.iter (3 + n) next_module_phase p0);
    try discriminate; reflexivity.
Qed.

(** X2.  An update of a module driver either issues no request and
    returns [kStatus_Uhk_NoTransfer], or issues exactly one request, to the
    firmware address of its module, and returns what the bus layer answered
    to it.  The initial [kStatus_Uhk_IdleSlave] is never returned. *)
Theorem UhkModuleSlaveDriver_Update_one_request id fw :
  let r := UhkModuleSlaveDriver_Update id fw in
  (fst r = kStatus_Uhk_NoTransfer /\ i2c_log (snd r) = i2c_log fw)
  \/ (exists request,
        i2c_log (snd r) = i2c_log fw ++ [request]
        /\ request_address request = firmwareI2cAddress (uhkModuleStates fw id)
        /\ fst r = kStatus_I2c (i2c_answer (i2c_log fw) request)).
Proof.
  intros r. subst r. unfold UhkModuleSlaveDriver_Update.
  destruct (module_phase (uhkModuleStates fw id)); cbn;
    repeat match goal with
    | |- context [if ?b then _ else _] => destruct b
    end; cbn;
    first [ left; split; reflexivity
          | right; eexists; repeat split; reflexivity ].
Qed.

(** X3.  A received message that fails its CRC check is dropped: the
    update that processes it changes neither the key states nor the features
    record nor the bus log, and moves on to the next phase all the same, so
    the message is not asked for again before the next round. *)
Theorem UhkModuleSlaveDriver_Update_invalid_crc id fw :
  let st := uhkModuleStates fw id in
  let r := UhkModuleSlaveDriver_Update id fw in
  let st' := uhkModuleStates (snd r) id in
  CRC16_IsMessageValid (rxMessage st) = false ->
  CurrentKeyStates (snd r) = CurrentKeyStates fw
  /\ features st' = features st
  /\ rxMessage st' = rxMessage st
  /\ module_phase st' = next_module_phase (module_phase st)
  /\ (module_phase st = UhkModulePhase_ProcessModuleFeatures
      \/ module_phase st = UhkModulePhase_ProcessKeystates ->
      fst r = kStatus_Uhk_NoTransfer /\ i2c_log (snd r) = i2c_log fw).
Proof.
  intros st r st' Hcrc. subst st' r.
  unfold UhkModuleSlaveDriver_Update. fold st.
  destruct (module_phase st) eqn:Ep; rewrite ?Hcrc; cbn;
    repeat match goal with
    | |- context [if ?b then _ else _] => destruct b
    end; cbn; rewrite ?store_same; cbn;
    (split; [reflexivity|]; split; [reflexivity|]; split; [reflexivity|];
     split; [reflexivity|]; intros [H|H]; try discriminate H;
     split; reflexivity).
Qed.

Lemma message_bytes_two data a b :
  (2 <= length data)%nat ->
  message_bytes (mk_i2c_message (array_set (array_set data 0 a) 1 b) 2) = [a; b].
Proof.
  intros H. unfold message_bytes, bytes_from, array_set. cbn [msg_data msg_length].
  destruct data as [|x [|y data]]; simpl in H; try lia. reflexivity.
Qed.

Lemma message_bytes_one data a :
  (1 <= length data)%nat ->
  message_bytes (mk_i2c_message (array_set data 0 a) 1) = [a].
Proof.
  intros H. unfold message_bytes, bytes_from, array_set. cbn [msg_data msg_length].
  destruct data as [|x data]; simpl in H; try lia. reflexivity.
Qed.

Lemma length_array_set data i v : length (array_set data i v) = length data.
Proof.
  unfold array_set. destruct (i <? length data)%nat eqn:E; [|reflexivity].
  apply Nat.ltb_lt in E.
  rewrite length_app, length_firstn. cbn [length]. rewrite length_skipn. lia.
Qed.

(** What one update does to the target variables, to the shared transmit
    message and to the bus log, phase by phase. *)
Lemma UhkModuleSlaveDriver_Update_view id fw :
  let st := uhkModuleStates fw id in
  let src := UhkModuleVars fw id in
  let fw' := snd (UhkModuleSlaveDriver_Update id fw) in
  let st' := uhkModuleStates fw' id in
  let a := firmwareI2cAddress st in
  let data := msg_data (txMessage fw) in
  let unchanged :=
    targetVars st' = targetVars st /\ txMessage fw' = txMessage fw
    /\ i2c_log fw' = i2c_log fw in
  let received :=
    targetVars st' = targetVars st /\ txMessage fw' = txMessage fw
    /\ i2c_log fw' = i2c_log fw ++ [I2cAsyncReadMessage a] in
  let sent (target : uhk_module_vars_t) (message : i2c_message_t) :=
    targetVars st' = target /\ txMessage fw' = message
    /\ i2c_log fw' = i2c_log fw ++ [I2cAsyncWriteMessage a message] in
  firmwareI2cAddress st' = a
  /\ match module_phase st with
     | UhkModulePhase_RequestModuleFeatures =>
         sent (targetVars st)
           (mk_i2c_message
              (array_set (array_set data 0 SlaveCommand_RequestProperty) 1
                 SlaveProperty_Features) 2)
     | UhkModulePhase_RequestKeyStates =>
         sent (targetVars st)
           (mk_i2c_message (array_set data 0 SlaveCommand_RequestKeyStates) 1)
     | UhkModulePhase_ReceiveModuleFeatures
     | UhkModulePhase_ReceiveKeystates => received
     | UhkModulePhase_ProcessModuleFeatures
     | UhkModulePhase_ProcessKeystates => unchanged
     | UhkModulePhase_SetTestLed =>
         if Bool.eqb (isTestLedOn src) (isTestLedOn (targetVars st))
         then unchanged
         else
           sent (mk_uhk_module_vars (isTestLedOn src)
                   (ledPwmBrightness (targetVars st)))
             (mk_i2c_message
                (array_set (array_set data 0 SlaveCommand_SetTestLed) 1
                   (if isTestLedOn src then 1 else 0)) 2)
     | UhkModulePhase_SetLedPwmBrightness =>
         if ledPwmBrightness src =? ledPwmBrightness (targetVars st)
         then unchanged
         else
           sent (mk_uhk_module_vars (isTestLedOn (targetVars st))
                   (ledPwmBrightness src))
             (mk_i2c_message
                (array_set (array_set data 0 SlaveCommand_SetLedPwmBrightness) 1
                   (ledPwmBrightness src)) 2)
     end.
Proof.
  cbv zeta. unfold UhkModuleSlaveDriver_Update.
  destruct (module_phase (uhkModuleStates fw id)); cbn;
    repeat match goal with
    | |- context [if ?b then _ else _] => destruct b
    end; cbn; rewrite ?store_same; cbn; repeat split; reflexivity.
Qed.

Ltac module_step id fw fw1 Hp Hp1 Ha1 Ht1 Hx1 Hl1 :=
  pose proof (UhkModuleSlaveDriver_Update_phase id fw) as Hp1;
  let V := fresh "V" in
  pose proof (UhkModuleSlaveDriver_Update_view id fw) as V;
  cbv zeta in V; rewrite Hp in V, Hp1; cbn [next_module_phase] in Hp1;
  set (fw1 := snd (UhkModuleSlaveDriver_Update id fw)) in *;
  destruct V as (Ha1 & Ht1 & Hx1 & Hl1).

(** X4.  After [UhkModuleSlaveDriver_Init] the first eight updates of the
    module hand six requests to the bus, all to the firmware address of the
    module: the features request and the read of its answer, the key states
    request and the read of its answer, then the command that switches the
    test LED on and the command that sets the brightness to its maximum;
    these two go out because the initialisation sets the targets to the
    opposite of the sources.  Afterwards the targets equal the sources and
    the driver is back at the key states request. *)
Theorem UhkModuleSlaveDriver_Init_first_requests id fw :
  (2 <= length (msg_data (txMessage fw)))%nat ->
  u8 MAX_PWM_BRIGHTNESS <> 0 ->
  let a := fst (moduleIdsToI2cAddresses id) in
  let fw' := module_updates 8 id (UhkModuleSlaveDriver_Init id fw) in
  exists m1 m2 m3 m4,
    i2c_log fw'
    = i2c_log fw
      ++ [I2cAsyncWriteMessage a m1; I2cAsyncReadMessage a;
          I2cAsyncWriteMessage a m2; I2cAsyncReadMessage a;
          I2cAsyncWriteMessage a m3; I2cAsyncWriteMessage a m4]
    /\ message_bytes m1 = [SlaveCommand_RequestProperty; SlaveProperty_Features]
    /\ message_bytes m2 = [SlaveCommand_RequestKeyStates]
    /\ message_bytes m3 = [SlaveCommand_SetTestLed; 1]
    /\ message_bytes m4
       = [SlaveCommand_SetLedPwmBrightness; u8 MAX_PWM_BRIGHTNESS]
    /\ targetVars (uhkModuleStates fw' id) = UhkModuleVars fw' id
    /\ module_phase (uhkModuleStates fw' id) = UhkModulePhase_RequestKeyStates.
Proof.
  intros Hlen Hmax a fw'. subst fw'.
  apply Z.eqb_neq in Hmax.
  set (fw0 := UhkModuleSlaveDriver_Init id fw).
  assert (H0 :
    module_phase (uhkModuleStates fw0 id) = UhkModulePhase_RequestModuleFeatures
    /\ targetVars (uhkModuleStates fw0 id) = mk_uhk_module_vars false 0
    /\ firmwareI2cAddress (uhkModuleStates fw0 id) = a
    /\ UhkModuleVars fw0 id = mk_uhk_module_vars true (u8 MAX_PWM_BRIGHTNESS)
    /\ txMessage fw0 = txMessage fw
    /\ i2c_log fw0 = i2c_log fw).
  { subst fw0. unfold UhkModuleSlaveDriver_Init. cbn. rewrite !store_same.
    cbn. repeat split; reflexivity. }
  clearbody fw0. destruct H0 as (Hp0 & Ht0 & Ha0 & Hs0 & Hx0 & Hl0).
  cbn [module_updates].
  module_step id fw0 fw1 Hp0 Hp1 Ha1 Ht1 Hx1 Hl1.
  module_step id fw1 fw2 Hp1 Hp2 Ha2 Ht2 Hx2 Hl2.
  module_step id fw2 fw3 Hp2 Hp3 Ha3 Ht3 Hx3 Hl3.
  module_step id fw3 fw4 Hp3 Hp4 Ha4 Ht4 Hx4 Hl4.
  module_step id fw4 fw5 Hp4 Hp5 Ha5 Ht5 Hx5 Hl5.
  module_step id fw5 fw6 Hp5 Hp6 Ha6 Ht6 Hx6 Hl6.
  assert (Hs6 : UhkModuleVars fw6 id
                = mk_uhk_module_vars true (u8 MAX_PWM_BRIGHTNESS)).
  { subst fw6 fw5 fw4 fw3 fw2 fw1.
    rewrite !UhkModuleSlaveDriver_Update_source. exact Hs0. }
  pose proof (UhkModuleSlaveDriver_Update_source id fw6) as Hs7.
  pose proof (UhkModuleSlaveDriver_Update_phase id fw6) as Hp7.
  pose proof (UhkModuleSlaveDriver_Update_view id fw6) as V.
  cbv zeta in V. rewrite Hp6 in V, Hp7. cbn [next_module_phase] in Hp7.
  rewrite Hs6, Ht6, Ht5, Ht4, Ht3, Ht2, Ht1, Ht0 in V.
  cbn [isTestLedOn ledPwmBrightness Bool.eqb] in V.
  set (fw7 := snd (UhkModuleSlaveDriver_Update id fw6)) in *.
  destruct V as (Ha7 & Ht7 & Hx7 & Hl7).
  pose proof (UhkModuleSlaveDriver_Update_source id fw7) as Hs8.
  pose proof (UhkModuleSlaveDriver_Update_phase id fw7) as Hp8.
  pose proof (UhkModuleSlaveDriver_Update_view id fw7) as V.
  cbv zeta in V. rewrite Hp7 in V, Hp8. cbn [next_module_phase] in Hp8.
  rewrite Hs7, Hs6, Ht7 in V.
  cbn [isTestLedOn ledPwmBrightness] in V. rewrite Hmax in V.
  set (fw8 := snd (UhkModuleSlaveDriver_Update id fw7)) in *.
  destruct V as (Ha8 & Ht8 & Hx8 & Hl8).
  assert (Hadr : firmwareI2cAddress (uhkModuleStates fw7 id) = a
                 /\ firmwareI2cAddress (uhkModuleStates fw6 id) = a
                 /\ firmwareI2cAddress (uhkModuleStates fw4 id) = a
                 /\ firmwareI2cAddress (uhkModuleStates fw3 id) = a
                 /\ firmwareI2cAddress (uhkModuleStates fw1 id) = a).
  { repeat split; congruence. }
  destruct Hadr as (A7 & A6 & A4 & A3 & A1).
  rewrite A7 in Hl8. rewrite A6 in Hl7. rewrite A4 in Hl5. rewrite A3 in Hl4.
  rewrite A1 in Hl2. rewrite Ha0 in Hl1.
  assert (Hd3 : (2 <= length (msg_data (txMessage fw3)))%nat).
  { rewrite Hx3, Hx2, Hx1. cbn [msg_data]. rewrite !length_array_set.
    rewrite Hx0. exact Hlen. }
  assert (Hd6 : (2 <= length (msg_data (txMessage fw6)))%nat).
  { rewrite Hx6, Hx5, Hx4. cbn [msg_data]. rewrite !length_array_set.
    exact Hd3. }
  assert (Hd7 : (2 <= length (msg_data (txMessage fw7)))%nat).
  { rewrite Hx7. cbn [msg_data]. rewrite !length_array_set. exact Hd6. }
  eexists _, _, _, _.
  split.
  { rewrite Hl8, Hl7, Hl6, Hl5, Hl4, Hl3, Hl2, Hl1, Hl0.
    rewrite <- !app_assoc. cbn [app]. reflexivity. }
  split; [apply message_bytes_two; rewrite Hx0; exact Hlen|].
  split; [apply message_bytes_one; lia|].
  split; [apply message_bytes_two; exact Hd6|].
  split; [apply message_bytes_two; exact Hd7|].
  split; [|exact Hp8].
  rewrite Ht8, Hs8, Hs7, Hs6. reflexivity.
Qed.

(** X5.  When the target variables of a module equal its source
    variables, a round of five updates from the [RequestKeyStates] phase
    costs two bus transfers, the key states request and the read of its
    answer: the test LED and the brightness are not sent again.  The round
    ends where it began, with the variables still equal. *)
Theorem module_updates_steady_round id fw :
  let st := uhkModuleStates fw id in
  let a := firmwareI2cAddress st in
  let fw' := module_updates 5 id fw in
  module_phase st = UhkModulePhase_RequestKeyStates ->
  targetVars st = UhkModuleVars fw id ->
  (1 <= length (msg_data (txMessage fw)))%nat ->
  (exists message,
     i2c_log fw'
     = i2c_log fw ++ [I2cAsyncWriteMessage a message; I2cAsyncReadMessage a]
     /\ message_bytes message = [SlaveCommand_RequestKeyStates])
  /\ module_phase (uhkModuleStates fw' id) = UhkModulePhase_RequestKeyStates
  /\ targetVars (uhkModuleStates fw' id) = UhkModuleVars fw' id.
Proof.
  intros st a fw' Hp0 Heq Hlen. subst fw' a st. cbn [module_updates].
  module_step id fw fw1 Hp0 Hp1 Ha1 Ht1 Hx1 Hl1.
  module_step id fw1 fw2 Hp1 Hp2 Ha2 Ht2 Hx2 Hl2.
  module_step id fw2 fw3 Hp2 Hp3 Ha3 Ht3 Hx3 Hl3.
  assert (Hs3 : UhkModuleVars fw3 id = UhkModuleVars fw id).
  { subst fw3 fw2 fw1. rewrite !UhkModuleSlaveDriver_Update_source.
    reflexivity. }
  assert (Ht3' : targetVars (uhkModuleStates fw3 id) = UhkModuleVars fw id).
  { rewrite Ht3, Ht2, Ht1. exact Heq. }
  pose proof (UhkModuleSlaveDriver_Update_source id fw3) as Hs4.
  pose proof (UhkModuleSlaveDriver_Update_phase id fw3) as Hp4.
  pose proof (UhkModuleSlaveDriver_Update_view id fw3) as V.
  cbv zeta in V. rewrite Hp3 in V, Hp4. cbn [next_module_phase] in Hp4.
  rewrite Hs3, Ht3', Bool.eqb_reflx in V.
  set (fw4 := snd (UhkModuleSlaveDriver_Update id fw3)) in *.
  destruct V as (Ha4 & Ht4 & Hx4 & Hl4).
  pose proof (UhkModuleSlaveDriver_Update_source id fw4) as Hs5.
  pose proof (UhkModuleSlaveDriver_Update_phase id fw4) as Hp5.
  pose proof (UhkModuleSlaveDriver_Update_view id fw4) as V.
  cbv zeta in V. rewrite Hp4 in V, Hp5. cbn [next_module_phase] in Hp5.
  rewrite Hs4, Hs3, Ht4, Z.eqb_refl in V.
  set (fw5 := snd (UhkModuleSlaveDriver_Update id fw4)) in *.
  destruct V as (Ha5 & Ht5 & Hx5 & Hl5).
  split; [|split; [exact Hp5|]].
  - eexists. split.
    + rewrite Hl5, Hl4, Hl3, Hl2, Hl1. rewrite Ha1.
      rewrite <- !app_assoc. cbn [app]. reflexivity.
    + apply message_bytes_one. exact Hlen.
  - rewrite Ht5, Hs5, Hs4, Hs3. reflexivity.
Qed.

(** ** The LED driver and the rest of the firmware *)

(** X6.  An update of an LED driver changes nothing but the state of the
    driver it is called for, and of that state neither the source table nor
    the bus address nor the control registers command: the source table
    belongs to the application.  It hands at most one request to the bus, a
    write to the address of its driver. *)
Theorem LedSlaveDriver_Update_frame id fw :
  let st := LedDriverStates fw id in
  let fw' := LedSlaveDriver_Update id fw in
  let st' := LedDriverStates fw' id in
  (Slaves fw' = Slaves fw
   /\ UhkModuleVars fw' = UhkModuleVars fw
   /\ uhkModuleStates fw' = uhkModuleStates fw
   /\ txMessage fw' = txMessage fw
   /\ CurrentKeyStates fw' = CurrentKeyStates fw)
  /\ (forall other, other = id \/ LedDriverStates fw' other = LedDriverStates fw other)
  /\ (sourceLedValues st' = sourceLedValues st
      /\ i2cAddress st' = i2cAddress st
      /\ setupLedControlRegistersCommand st' = setupLedControlRegistersCommand st)
  /\ (i2c_log fw' = i2c_log fw
      \/ exists data,
           i2c_log fw' = i2c_log fw ++ [I2cAsyncWrite (i2cAddress st) data]).
Proof.
  intros st fw' st'. subst st' fw'. fold st.
  assert (Hother : forall s other,
    other = id \/ store (LedDriverStates fw) id s other = LedDriverStates fw other).
  { intros s other. destruct (Z.eq_dec other id) as [E|E]; [left; exact E|].
    right. apply store_other. exact E. }
  unfold LedSlaveDriver_Update. fold st.
  destruct (phase st) eqn:Ep.
  - destruct (_ && _).
    + repeat split; auto.
    + unfold set_LedDriverState, issue; cbn [Slaves UhkModuleVars uhkModuleStates
        txMessage CurrentKeyStates LedDriverStates i2c_log].
      rewrite store_same. cbn.
      split; [repeat split|]. split; [apply Hother|].
      split; [repeat split|]. right. eexists; reflexivity.
  - unfold set_LedDriverState, issue; cbn [Slaves UhkModuleVars uhkModuleStates
      txMessage CurrentKeyStates LedDriverStates i2c_log].
    rewrite store_same. cbn.
    split; [repeat split|]. split; [apply Hother|].
    split; [repeat split|]. right. eexists; reflexivity.
  - unfold set_LedDriverState, issue; cbn [Slaves UhkModuleVars uhkModuleStates
      txMessage CurrentKeyStates LedDriverStates i2c_log].
    rewrite store_same. cbn.
    split; [repeat split|]. split; [apply Hother|].
    split; [repeat split|]. right. eexists; reflexivity.
  - unfold set_LedDriverState, issue; cbn [Slaves UhkModuleVars uhkModuleStates
      txMessage CurrentKeyStates LedDriverStates i2c_log].
    rewrite store_same. cbn.
    split; [repeat split|]. split; [apply Hother|].
    split; [repeat split|]. right. eexists; reflexivity.
  - destruct (LED_DRIVER_LED_COUNT <=? _);
      unfold set_LedDriverState, issue; cbn [Slaves UhkModuleVars uhkModuleStates
        txMessage CurrentKeyStates LedDriverStates i2c_log];
      rewrite store_same; cbn;
      (split; [repeat split|]; split; [apply Hother|];
       split; [repeat split|]; right; eexists; reflexivity).
  - destruct (find_start_index _ _ _ _);
      unfold set_LedDriverState, issue; cbn [Slaves UhkModuleVars uhkModuleStates
        txMessage CurrentKeyStates LedDriverStates i2c_log];
      rewrite store_same;
      unfold set_ledIndex, set_targetLedValues;
      cbn [sourceLedValues i2cAddress setupLedControlRegistersCommand];
      (split; [repeat split|]; split; [apply Hother|];
       split; [repeat split|]).
    + right. eexists; reflexivity.
    + left. reflexivity.
Qed.

Lemma array_set_array_set data i v w :
  array_set (array_set data i v) i w = array_set data i w.
Proof.
  unfold array_set at 1. rewrite length_array_set.
  destruct (i <? length data)%nat eqn:E; [|unfold array_set; rewrite E; reflexivity].
  unfold array_set. rewrite E. apply Nat.ltb_lt in E.
  rewrite firstn_app, firstn_firstn, Nat.min_id, length_firstn.
  replace (i - Nat.min i (length data))%nat with 0%nat by lia.
  cbn [firstn]. rewrite app_nil_r. f_equal. f_equal.
  rewrite skipn_app, length_firstn.
  replace (S i - Nat.min i (length data))%nat with 1%nat by lia.
  rewrite skipn_all2 by (rewrite length_firstn; lia). reflexivity.
Qed.

Lemma byte_at_array_set data i v :
  (i < length data)%nat -> byte_at (array_set data i v) (Z.of_nat i) = v.
Proof.
  intros H. unfold byte_at, array_set. rewrite Nat2Z.id.
  apply Nat.ltb_lt in H. rewrite H. apply Nat.ltb_lt in H.
  rewrite app_nth2 by (rewrite length_firstn; lia).
  rewrite length_firstn.
  replace (i - Nat.min i (length data))%nat with 0%nat by lia. reflexivity.
Qed.

(** The states of the LED drivers after [LedSlaveDriver_Init], as far as
    the display routine leaves them alone. *)
Lemma LedSlaveDriver_Init_states id fw other :
  (forall n text, keeps_driver_control (LedDisplay_SetText n text)) ->
  let command := setupLedControlRegistersCommand (LedDriverStates fw LedDriverId_Left) in
  let s := LedDriverStates fw other in
  let s' := LedDriverStates (LedSlaveDriver_Init id fw) other in
  phase s' = (if other =? id then LedDriverPhase_SetFunctionFrame else phase s)
  /\ ledIndex s' = (if other =? id then 0 else ledIndex s)
  /\ targetLedValues s'
     = (if other =? id
        then memcpy_at (targetLedValues s) 0 (memset 0 LED_DRIVER_LED_COUNT)
        else targetLedValues s)
  /\ setupLedControlRegistersCommand s'
     = (if other =? LedDriverId_Left
        then array_set command 7 (Z.lor (byte_at command 7) 2)
        else setupLedControlRegistersCommand s).
Proof.
  intros Hd command s s'. subst s'. unfold LedSlaveDriver_Init.
  match goal with
  | |- context [LedDisplay_SetText ?n ?t ?f] =>
      destruct (Hd n t f other) as (H1 & H2 & H3 & H4)
  end.
  rewrite H1, H2, H3, H4. clear H1 H2 H3 H4.
  unfold SetLeds, set_LedDriverState.
  cbn [LedDriverStates Slaves UhkModuleVars uhkModuleStates txMessage
       CurrentKeyStates i2c_log].
  assert (Hsrc : forall (b : bool) x v,
    phase (if b then set_sourceLedValues x v else x) = phase x
    /\ ledIndex (if b then set_sourceLedValues x v else x) = ledIndex x
    /\ targetLedValues (if b then set_sourceLedValues x v else x)
       = targetLedValues x
    /\ setupLedControlRegistersCommand (if b then set_sourceLedValues x v else x)
       = setupLedControlRegistersCommand x).
  { intros [] x v; repeat split; reflexivity. }
  match goal with
  | |- context [if ?b then set_sourceLedValues ?x ?v else _] =>
      destruct (Hsrc b x v) as (H1 & H2 & H3 & H4)
  end.
  rewrite H1, H2, H3, H4. clear H1 H2 H3 H4 Hsrc.
  unfold store. subst command s.
  repeat match goal with
  | |- context [?a =? ?b] => destruct (Z.eqb_spec a b)
  end;
    try (exfalso; congruence); subst;
    unfold set_targetLedValues, set_setupLedControlRegistersCommand,
      set_ledIndex, set_phase;
    cbn [phase ledIndex targetLedValues setupLedControlRegistersCommand];
    repeat split; try reflexivity; try congruence.
Qed.

(** X7.  With a display routine that writes source tables only,
    [LedSlaveDriver_Init] puts its driver into the [SetFunctionFrame] phase
    with the cursor at 0 and the first [LED_DRIVER_LED_COUNT] entries of the
    target table cleared, and leaves phase, cursor and target table of every
    other driver as they were.  It switches on bit 1 of byte 7 of the control
    registers command of the left driver, whichever driver it is called for;
    a second initialisation finds the bit set and leaves the command as the
    first one made it. *)
Theorem LedSlaveDriver_Init_resets id id2 fw :
  (forall n text, keeps_driver_control (LedDisplay_SetText n text)) ->
  0 <= LED_DRIVER_LED_COUNT ->
  let fw' := LedSlaveDriver_Init id fw in
  let st' := LedDriverStates fw' id in
  let command := setupLedControlRegistersCommand (LedDriverStates fw LedDriverId_Left) in
  let command' := setupLedControlRegistersCommand (LedDriverStates fw' LedDriverId_Left) in
  (phase st' = LedDriverPhase_SetFunctionFrame
   /\ ledIndex st' = 0
   /\ bytes_from (targetLedValues st') 0 LED_DRIVER_LED_COUNT
      = memset 0 LED_DRIVER_LED_COUNT)
  /\ (forall other,
        other = id
        \/ (phase (LedDriverStates fw' other) = phase (LedDriverStates fw other)
            /\ ledIndex (LedDriverStates fw' other)
               = ledIndex (LedDriverStates fw other)
            /\ targetLedValues (LedDriverStates fw' other)
               = targetLedValues (LedDriverStates fw other)))
  /\ command' = array_set command 7 (Z.lor (byte_at command 7) 2)
  /\ setupLedControlRegistersCommand
       (LedDriverStates (LedSlaveDriver_Init id2 fw') LedDriverId_Left)
     = command'.
Proof.
  intros Hd Hn fw' st' command command'. subst st' command'.
  pose proof (LedSlaveDriver_Init_states id fw id Hd) as Hs.
  cbv zeta in Hs. rewrite Z.eqb_refl in Hs. destruct Hs as (H1 & H2 & H3 & _).
  split.
  { fold fw' in H1, H2, H3. rewrite H1, H2, H3. split; [reflexivity|].
    split; [reflexivity|]. rewrite memcpy_at_0.
    replace LED_DRIVER_LED_COUNT
      with (Z.of_nat (length (memset 0 LED_DRIVER_LED_COUNT))) at 3
      by (unfold memset; rewrite repeat_length; lia).
    apply bytes_from_prefix. }
  split.
  { intros other. destruct (Z.eq_dec other id) as [E|E]; [left; exact E|right].
    pose proof (LedSlaveDriver_Init_states id fw other Hd) as Hs.
    cbv zeta in Hs. apply Z.eqb_neq in E. rewrite E in Hs.
    destruct Hs as (G1 & G2 & G3 & _). auto. }
  pose proof (LedSlaveDriver_Init_states id fw LedDriverId_Left Hd) as Hs.
  cbv zeta in Hs. rewrite Z.eqb_refl in Hs. destruct Hs as (_ & _ & _ & H4).
  fold fw' command in H4.
  split; [exact H4|].
  pose proof (LedSlaveDriver_Init_states id2 fw' LedDriverId_Left Hd) as Hs.
  cbv zeta in Hs. rewrite Z.eqb_refl in Hs. destruct Hs as (_ & _ & _ & H5).
  rewrite H5, H4. rewrite array_set_array_set.
  destruct (7 <? length command)%nat eqn:E.
  - apply Nat.ltb_lt in E.
    rewrite (byte_at_array_set command 7) by exact E.
    rewrite <- Z.lor_assoc, Z.lor_diag. reflexivity.
  - unfold array_set. rewrite E. reflexivity.
Qed.

(** ** The context of the framing engine across its operations *)

(** Reading from the link leaves the context alone. *)
Lemma read_start_byte_loop_context turns : forall count hdr w r,
  read_start_byte_loop turns count hdr w = Some r ->
  g_serialContext (snd r) = g_serialContext w.
Proof.
  induction turns as [|turns IH]; intros count hdr w r H; [discriminate|].
  cbn [read_start_byte_loop] in H.
  unfold read_data, byteInterface_read in H.
  destruct (negb (is_success _)); [inversion H; reflexivity|].
  destruct (_ <? _); [inversion H; reflexivity|].
  destruct (_ =? _); [inversion H; reflexivity|].
  apply IH in H. exact H.
Qed.

Lemma read_header_context hdr w :
  g_serialContext (snd (read_header hdr w)) = g_serialContext w.
Proof.
  unfold read_header, read_start_byte.
  destruct (read_start_byte_loop _ 0 hdr w) as [[[s0 h0] w0]|] eqn:El.
  - apply read_start_byte_loop_context in El. cbn [snd] in El.
    destruct (negb (is_success s0)); [exact El|].
    unfold read_data, byteInterface_read. exact El.
  - reflexivity.
Qed.

(** Receiving a packet writes the receive buffer and no other field. *)
Lemma read_data_packet_context fp type w :
  let c := g_serialContext w in
  let c' := g_serialContext (snd (read_data_packet fp type w)) in
  isAckNeeded c' = isAckNeeded c
  /\ isAckAbortNeeded c' = isAckAbortNeeded c
  /\ isBackToBackWrite c' = isBackToBackWrite c
  /\ framingPacket c' = framingPacket c.
Proof.
  cbv zeta. unfold read_data_packet.
  pose proof (read_header_context (header fp) w) as Hh.
  destruct (read_header (header fp) w) as [[s1 h1] w1]. cbn [snd] in Hh.
  rewrite <- Hh.
  destruct (negb (is_success s1)); [auto|].
  destruct (packetType h1 =? kFramingPacketType_Ping).
  { unfold serial_send_ping_response.
    destruct (_ || _); cbn; auto. }
  destruct (negb (packetType h1 =? _)); [auto|].
  unfold read_length, read_crc16, read_data, byteInterface_read.
  cbn [is_success negb].
  repeat match goal with
  | |- context [if ?b then _ else _] => destruct b; cbn
  end; auto.
Qed.

Lemma serial_packet_read_loop_context turns : forall fp type w st fp' w',
  serial_packet_read_loop turns fp type w = Some (st, fp', w') ->
  isAckNeeded (g_serialContext w') = isAckNeeded (g_serialContext w)
  /\ isAckAbortNeeded (g_serialContext w') = isAckAbortNeeded (g_serialContext w)
  /\ framingPacket (g_serialContext w') = framingPacket (g_serialContext w).
Proof.
  induction turns as [|turns IH]; intros fp type w st fp' w' H; [discriminate|].
  cbn [serial_packet_read_loop] in H.
  match type of H with
  | context [read_data_packet fp type ?w0] =>
      pose proof (read_data_packet_context fp type w0) as Hc;
      destruct (read_data_packet fp type w0) as [[s1 fp1] w1]
  end.
  cbv zeta in Hc. cbn [snd g_serialContext with_context set_sc_data
    isAckNeeded isAckAbortNeeded isBackToBackWrite framingPacket] in Hc.
  destruct Hc as (H1 & H2 & _ & H4).
  destruct (negb (is_success s1)); [inversion H; subst; auto|].
  destruct (negb (dp_crc16 fp1 =? _)); [|inversion H; subst; auto].
  unfold serial_packet_send_sync, write_data, byteInterface_write in H.
  cbn [fst snd] in H. apply IH in H.
  cbn [g_serialContext with_context set_isBackToBackWrite
    isAckNeeded isAckAbortNeeded framingPacket] in H.
  destruct H as (G1 & G2 & G4). rewrite G1, G2, G4. auto.
Qed.

Lemma wait_for_ack_packet_loop_context turns : forall w st w',
  wait_for_ack_packet_loop turns w = Some (st, w') ->
  g_serialContext w' = g_serialContext w.
Proof.
  induction turns as [|turns IH]; intros w st w' H; [discriminate|].
  cbn [wait_for_ack_packet_loop] in H.
  pose proof (read_header_context (mk_framing_header 0 0) w) as Hh.
  destruct (read_header (mk_framing_header 0 0) w) as [[s1 sync] w1].
  cbn [snd] in Hh.
  destruct (negb (is_success s1)); [inversion H; subst; exact Hh|].
  destruct (_ && _); [inversion H; subst; exact Hh|].
  destruct (packetType sync =? kFramingPacketType_AckAbort);
    [inversion H; subst; exact Hh|].
  destruct (packetType sync =? kFramingPacketType_Nak);
    [|inversion H; subst; exact Hh].
  unfold write_data, byteInterface_write in H.
  destruct (negb (is_success _)).
  - inversion H; subst. exact Hh.
  - apply IH in H. rewrite H. exact Hh.
Qed.

Lemma wait_for_ack_packet_context w :
  g_serialContext (snd (wait_for_ack_packet w)) = g_serialContext w.
Proof.
  unfold wait_for_ack_packet.
  destruct (wait_for_ack_packet_loop _ w) as [[st w']|] eqn:E; [|reflexivity].
  apply wait_for_ack_packet_loop_context in E. exact E.
Qed.

(** The flags [send_deferred_ack] leaves behind, whether or not the link
    took the sync packet. *)
Lemma send_deferred_ack_flags w :
  let c := g_serialContext w in
  let c' := g_serialContext (snd (send_deferred_ack w)) in
  isAckNeeded c' = false
  /\ isAckAbortNeeded c' = isAckNeeded c && isAckAbortNeeded c
  /\ framingPacket c' = framingPacket c
  /\ sc_data c' = sc_data c.
Proof.
  cbv zeta. unfold send_deferred_ack.
  destruct (isAckNeeded (g_serialContext w)) eqn:Ea;
    [|destruct (isAckAbortNeeded (g_serialContext w)) eqn:Eb];
    cbn; auto.
Qed.

(** The flags [serial_packet_read] leaves behind. *)
Lemma serial_packet_read_ack_flags type w :
  let c := g_serialContext w in
  let r := serial_packet_read true true type w in
  let c' := g_serialContext (snd r) in
  (isAckNeeded c' = is_success (read_status (fst r))
   /\ read_packet (fst r)
      = (if is_success (read_status (fst r)) then Some (sc_data c') else None)
   /\ framingPacket c' = framingPacket c)
  /\ isAckAbortNeeded c' = isAckNeeded c && isAckAbortNeeded c.
Proof.
  intros c r c'. subst c' r. unfold serial_packet_read.
  cbn [negb orb].
  set (w0 := with_context w (set_isBackToBackWrite (g_serialContext w) false)).
  pose proof (send_deferred_ack_flags w0) as Hf. cbv zeta in Hf.
  destruct (send_deferred_ack w0) as [s1 w1]. cbn [snd] in Hf.
  subst w0. cbn [g_serialContext with_context set_isBackToBackWrite
    isAckNeeded isAckAbortNeeded framingPacket sc_data] in Hf.
  fold c in Hf. destruct Hf as (F1 & F2 & F3 & _).
  destruct s1; cbn [is_success negb fst snd read_status read_packet]; auto.
  destruct (serial_packet_read_loop _ _ type w1) as [[[s2 fp2] w2]|] eqn:El;
    [|cbn; auto].
  apply serial_packet_read_loop_context in El. destruct El as (G1 & G2 & G3).
  destruct s2; cbn [is_success negb fst snd read_status read_packet
    g_serialContext with_context set_isAckNeeded isAckNeeded isAckAbortNeeded
    framingPacket sc_data];
    rewrite ?G1, ?G2, ?G3, ?F1, ?F2, ?F3; auto.
Qed.

(** X8.  [serial_packet_read], called with valid pointers, leaves an
    acknowledgement pending exactly when it returns [kStatus_Success], and
    hands out the receive buffer exactly then; whatever it returns, the
    packet retained for retransmission is untouched, and a pending abort
    acknowledgement survives only if an acknowledgement was pending, too. *)
Theorem serial_packet_read_ack_pending type w :
  let c := g_serialContext w in
  let r := serial_packet_read true true type w in
  let c' := g_serialContext (snd r) in
  isAckNeeded c' = is_success (read_status (fst r))
  /\ read_packet (fst r)
     = (if is_success (read_status (fst r)) then Some (sc_data c') else None)
  /\ isAckAbortNeeded c' = isAckNeeded c && isAckAbortNeeded c
  /\ framingPacket c' = framingPacket c.
Proof.
  intros c r c'. subst c' r.
  destruct (serial_packet_read_ack_flags type w) as ((H1 & H2 & H3) & H4).
  auto.
Qed.

(** X9.  [serial_packet_finalize] and [serial_packet_write] (called with
    valid arguments) leave no acknowledgement pending, whatever they return:
    the flag is cleared before the sync packet is sent, so an
    acknowledgement the link did not take is not sent again.
    [serial_packet_abort] turns the pending acknowledgement into a pending
    abort acknowledgement.  None of the four operations sets both flags
    when they were not both set before. *)
Theorem serial_packet_write_clears_ack packet byteCount type w :
  byteCount <= kOutgoingPacketBufferSize ->
  let c := g_serialContext w in
  let after_write :=
    g_serialContext (snd (serial_packet_write (Some packet) byteCount type w)) in
  let after_finalize := g_serialContext (snd (serial_packet_finalize w)) in
  let after_read :=
    g_serialContext (snd (serial_packet_read true true type w)) in
  (isAckNeeded after_write = false
   /\ isAckAbortNeeded after_write = isAckNeeded c && isAckAbortNeeded c)
  /\ (isAckNeeded after_finalize = false
      /\ isAckAbortNeeded after_finalize = isAckNeeded c && isAckAbortNeeded c)
  /\ (forall w', serial_packet_abort w = Some w' ->
        isAckNeeded (g_serialContext w') = false
        /\ isAckAbortNeeded (g_serialContext w') = true)
  /\ (one_ack_pending c ->
      one_ack_pending after_write /\ one_ack_pending after_finalize
      /\ one_ack_pending after_read
      /\ forall w', serial_packet_abort w = Some w' ->
           one_ack_pending (g_serialContext w')).
Proof.
  intros Hn c after_write after_finalize after_read.
  assert (Hw : isAckNeeded after_write = false
               /\ isAckAbortNeeded after_write
                  = isAckNeeded c && isAckAbortNeeded c).
  { subst after_write. unfold serial_packet_write.
    replace (kOutgoingPacketBufferSize <? byteCount) with false
      by (symmetry; apply Z.ltb_ge; exact Hn).
    pose proof (send_deferred_ack_flags w) as Hf. cbv zeta in Hf.
    destruct (send_deferred_ack w) as [s1 w1]. cbn [snd] in Hf.
    fold c in Hf. destruct Hf as (F1 & F2 & _ & _).
    destruct (negb (is_success s1)); [cbn [snd]; auto|].
    match goal with
    | |- context [write_data ?b ?w0] =>
        assert (Hc : isAckNeeded (g_serialContext w0) = false
                     /\ isAckAbortNeeded (g_serialContext w0)
                        = isAckNeeded c && isAckAbortNeeded c);
        [|unfold write_data, byteInterface_write; cbn [fst snd]]
    end.
    { destruct (isBackToBackWrite (g_serialContext w1)); cbn; auto. }
    destruct (negb (is_success _)); cbn [snd];
      rewrite ?wait_for_ack_packet_context; exact Hc. }
  assert (Hfin : isAckNeeded after_finalize = false
                 /\ isAckAbortNeeded after_finalize
                    = isAckNeeded c && isAckAbortNeeded c).
  { subst after_finalize. unfold serial_packet_finalize.
    pose proof (send_deferred_ack_flags w) as Hf. cbv zeta in Hf.
    fold c in Hf. destruct Hf as (F1 & F2 & _ & _). auto. }
  assert (Hab : forall w', serial_packet_abort w = Some w' ->
                  isAckNeeded (g_serialContext w') = false
                  /\ isAckAbortNeeded (g_serialContext w') = true).
  { intros w' H. unfold serial_packet_abort in H.
    destruct (isAckNeeded (g_serialContext w)); [|discriminate].
    inversion H; subst. cbn. auto. }
  split; [exact Hw|]. split; [exact Hfin|]. split; [exact Hab|].
  unfold one_ack_pending. intros Hone.
  destruct Hw as [W1 W2]. destruct Hfin as [N1 N2].
  rewrite W1, N1. cbn [andb].
  split; [reflexivity|]. split; [reflexivity|]. split.
  - subst after_read.
    destruct (serial_packet_read_ack_flags type w) as (_ & R2). fold c in R2.
    rewrite R2, Hone. apply Bool.andb_false_r.
  - intros w' H. destruct (Hab w' H) as [A1 A2]. rewrite A1. reflexivity.
Qed.

(** X10.  When an acknowledgement (or an abort acknowledgement) is pending
    and the link refuses the next write with a status [s],
    [serial_packet_finalize], [serial_packet_read] and [serial_packet_write]
    all return [s] after that one attempt: the sync packet is the only
    buffer handed to the link, no byte is read, nothing is delayed, and
    [serial_packet_read] reports the length 0 and no packet.  The pending
    flag is cleared all the same, so the acknowledgement is lost: no later
    operation sends it. *)
Theorem send_deferred_ack_refused packet byteCount type c inc wr s ws dl :
  s <> kStatus_Success ->
  deferred_ack_sync c <> [] ->
  one_ack_pending c ->
  byteCount <= kOutgoingPacketBufferSize ->
  let w := mk_serial_world c (mk_link inc wr (s :: ws) dl) in
  let l' := mk_link inc (wr ++ deferred_ack_sync c) ws dl in
  let finalized := serial_packet_finalize w in
  let read := serial_packet_read true true type w in
  let wrote := serial_packet_write (Some packet) byteCount type w in
  (fst finalized = s
   /\ activePeripheral (snd finalized) = l'
   /\ deferred_ack_sync (g_serialContext (snd finalized)) = [])
  /\ (fst read = mk_read_result s None (Some 0)
      /\ activePeripheral (snd read) = l'
      /\ deferred_ack_sync (g_serialContext (snd read)) = [])
  /\ (fst wrote = s
      /\ activePeripheral (snd wrote) = l'
      /\ deferred_ack_sync (g_serialContext (snd wrote)) = []).
Proof.
  intros Hs Hpending Hone Hn w l' finalized read wrote.
  assert (Hack : forall b,
    let r := send_deferred_ack
               (mk_serial_world (set_isBackToBackWrite c b)
                  (mk_link inc wr (s :: ws) dl)) in
    fst r = s /\ activePeripheral (snd r) = l'
    /\ deferred_ack_sync (g_serialContext (snd r)) = []).
  { intros b. cbv zeta. subst l'. unfold send_deferred_ack, deferred_ack_sync in *.
    unfold one_ack_pending in Hone.
    cbn [g_serialContext set_isBackToBackWrite isAckNeeded isAckAbortNeeded].
    destruct (isAckNeeded c) eqn:Ea; [|destruct (isAckAbortNeeded c) eqn:Eb].
    - cbn [andb] in Hone. cbn. rewrite Hone. auto.
    - cbn. rewrite Ea. auto.
    - congruence. }
  assert (Hsame : set_isBackToBackWrite c (isBackToBackWrite c) = c)
    by (destruct c; reflexivity).
  assert (Hneg : negb (is_success s) = true) by (destruct s; cbn; congruence).
  split; [|split].
  - subst finalized w. unfold serial_packet_finalize.
    specialize (Hack (isBackToBackWrite c)). rewrite Hsame in Hack. exact Hack.
  - subst read w. unfold serial_packet_read, with_context.
    cbn [negb orb g_serialContext activePeripheral].
    specialize (Hack false). cbv zeta in Hack.
    destruct (send_deferred_ack _) as [s1 w1]. cbn [fst snd] in Hack.
    destruct Hack as (E1 & E2 & E3). subst s1. rewrite Hneg.
    cbn [fst snd]. auto.
  - subst wrote w. unfold serial_packet_write.
    replace (kOutgoingPacketBufferSize <? byteCount) with false
      by (symmetry; apply Z.ltb_ge; exact Hn).
    specialize (Hack (isBackToBackWrite c)). rewrite Hsame in Hack.
    cbv zeta in Hack.
    destruct (send_deferred_ack _) as [s1 w1]. cbn [fst snd] in Hack.
    destruct Hack as (E1 & E2 & E3). subst s1. rewrite Hneg.
    cbn [fst snd]. auto.
Qed.

(** ** The receive buffer *)

Lemma Forall_skipn_keeps {A : Type} (P : A -> Prop) k : forall l,
  Forall P l -> Forall P (skipn k l).
Proof.
  induction k as [|k IH]; intros l H; [exact H|].
  destruct l as [|x l]; [constructor|]. inversion H; subst. apply IH. assumption.
Qed.

Lemma Forall_firstn_keeps {A : Type} (P : A -> Prop) k : forall l,
  Forall P l -> Forall P (firstn k l).
Proof.
  induction k as [|k IH]; intros l H; [constructor|].
  destruct l as [|x l]; [constructor|]. inversion H; subst.
  constructor; [assumption|apply IH; assumption].
Qed.

Lemma byte_at_is_byte buf i : Forall is_byte buf -> is_byte (byte_at buf i).
Proof.
  intros H. unfold byte_at. generalize (Z.to_nat i). intros k. revert buf H.
  induction k as [|k IH]; intros [|x buf] H; cbn; try (unfold is_byte; lia);
    inversion H; subst; auto.
Qed.

Lemma byte_at_zeros buf i : Forall (fun x => x = 0) buf -> byte_at buf i = 0.
Proof.
  intros H. unfold byte_at. generalize (Z.to_nat i). intros k. revert buf H.
  induction k as [|k IH]; intros [|x buf] H; cbn; try reflexivity;
    inversion H; subst; auto.
Qed.

Lemma Forall_repeat_zero n : Forall (fun x : Z => x = 0) (repeat 0 n).
Proof. induction n; cbn; constructor; auto. Qed.

(** The bytes still to come stay bytes. *)
Lemma read_start_byte_loop_bytes turns : forall count hdr w r,
  read_start_byte_loop turns count hdr w = Some r ->
  Forall is_byte (incoming (activePeripheral w)) ->
  Forall is_byte (incoming (activePeripheral (snd r))).
Proof.
  induction turns as [|turns IH]; intros count hdr w r H Hb; [discriminate|].
  cbn [read_start_byte_loop] in H.
  unfold read_data, byteInterface_read in H.
  assert (Hs : Forall is_byte (skipn (Z.to_nat 1) (incoming (activePeripheral w))))
    by (apply Forall_skipn_keeps; exact Hb).
  destruct (negb (is_success _)); [inversion H; exact Hs|].
  destruct (_ <? _); [inversion H; exact Hs|].
  destruct (_ =? _); [inversion H; exact Hs|].
  apply IH in H; [exact H|exact Hs].
Qed.

Lemma read_header_bytes hdr w :
  Forall is_byte (incoming (activePeripheral w)) ->
  Forall is_byte (incoming (activePeripheral (snd (read_header hdr w)))).
Proof.
  intros Hb. unfold read_header, read_start_byte.
  destruct (read_start_byte_loop _ 0 hdr w) as [[[s0 h0] w0]|] eqn:El.
  - apply read_start_byte_loop_bytes in El; [|exact Hb]. cbn [snd] in El.
    destruct (negb (is_success s0)); [exact El|].
    unfold read_data, byteInterface_read. cbn [snd activePeripheral incoming].
    apply Forall_skipn_keeps. exact El.
  - exact Hb.
Qed.

Lemma read_data_bytes n t w st bytes w' :
  read_data n t w = (st, bytes, w') ->
  Forall is_byte (incoming (activePeripheral w)) ->
  Forall is_byte bytes
  /\ Forall is_byte (incoming (activePeripheral w'))
  /\ g_serialContext w' = g_serialContext w
  /\ (st = kStatus_Success -> length bytes = Z.to_nat n).
Proof.
  unfold read_data, byteInterface_read. intros H Hb.
  generalize dependent (Z.to_nat n). intros k H.
  inversion H; subst. cbn [activePeripheral incoming g_serialContext].
  split; [apply Forall_firstn_keeps; exact Hb|].
  split; [apply Forall_skipn_keeps; exact Hb|].
  split; [reflexivity|].
  destruct (k <=? length (incoming (activePeripheral w)))%nat eqn:E;
    [|discriminate].
  intros _. apply Nat.leb_le in E. rewrite length_firstn. lia.
Qed.

(** One packet received into a cleared buffer: the length is clamped to
    the size of the buffer, the buffer keeps its size, and behind the payload
    it holds zeros. *)
Lemma read_data_packet_bounded fp type w :
  0 <= kIncomingPacketBufferSize ->
  Forall is_byte (incoming (activePeripheral w)) ->
  sc_data (g_serialContext w) = memset 0 kIncomingPacketBufferSize ->
  let r := read_data_packet fp type w in
  let data := sc_data (g_serialContext (snd r)) in
  Forall is_byte (incoming (activePeripheral (snd r)))
  /\ (fst (fst r) = kStatus_Success ->
      0 <= dp_length (snd (fst r)) <= kIncomingPacketBufferSize
      /\ Z.of_nat (length data) = kIncomingPacketBufferSize
      /\ forall i, dp_length (snd (fst r)) <= i -> byte_at data i = 0).
Proof.
  intros Hk Hb Hd. cbv zeta. unfold read_data_packet.
  pose proof (read_header_bytes (header fp) w Hb) as Hb1.
  pose proof (read_header_context (header fp) w) as Hc1.
  destruct (read_header (header fp) w) as [[s1 h1] w1].
  cbn [snd] in Hb1, Hc1.
  destruct s1; cbn [is_success negb fst snd];
    try (split; [exact Hb1|discriminate]).
  destruct (packetType h1 =? kFramingPacketType_Ping).
  { unfold serial_send_ping_response.
    destruct (_ || _); cbn; (split; [exact Hb1|discriminate]). }
  destruct (negb (packetType h1 =? _)); cbn [fst snd];
    [split; [exact Hb1|discriminate]|].
  unfold read_length, read_crc16.
  destruct (read_data 2 _ w1) as [[s2 b2] w2] eqn:E2.
  apply read_data_bytes in E2; [|exact Hb1].
  destruct E2 as (Bb2 & Hb2 & Hc2 & _).
  destruct s2; cbn [is_success negb fst snd];
    try (split; [exact Hb2|discriminate]).
  cbn [header dp_length dp_crc16].
  set (n := Z.min kIncomingPacketBufferSize (halfword b2)).
  assert (Hn : 0 <= n <= kIncomingPacketBufferSize).
  { subst n. unfold halfword.
    pose proof (byte_at_is_byte b2 0 Bb2) as B0.
    pose proof (byte_at_is_byte b2 1 Bb2) as B1.
    unfold is_byte in B0, B1. lia. }
  destruct (read_data 2 _ w2) as [[s3 b3] w3] eqn:E3.
  apply read_data_bytes in E3; [|exact Hb2].
  destruct E3 as (_ & Hb3 & Hc3 & _).
  destruct s3; cbn [is_success negb fst snd];
    try (split; [exact Hb3|discriminate]).
  cbn [header dp_length dp_crc16].
  assert (Hdata : sc_data (g_serialContext w3)
                  = repeat 0 (Z.to_nat kIncomingPacketBufferSize)).
  { rewrite Hc3, Hc2, Hc1. exact Hd. }
  destruct (0 <? n) eqn:Epos.
  - destruct (read_data n _ w3) as [[s4 b4] w4] eqn:E4.
    apply read_data_bytes in E4; [|exact Hb3].
    destruct E4 as (_ & Hb4 & Hc4 & Hlen).
    cbn [fst snd activePeripheral incoming g_serialContext with_context
         set_sc_data sc_data].
    split; [exact Hb4|].
    intros Hst. specialize (Hlen Hst).
    split; [exact Hn|].
    rewrite Hdata. rewrite !memcpy_at_0. unfold memset.
    rewrite !repeat_length, Hlen. split.
    + rewrite length_app, Hlen, length_skipn, length_app, repeat_length,
        length_skipn, repeat_length. lia.
    + intros i Hi. cbn [dp_length] in Hi. unfold byte_at.
      rewrite app_nth2 by lia. rewrite Hlen.
      replace (Z.to_nat i - Z.to_nat n)%nat
        with (Z.to_nat (Z.of_nat (Z.to_nat i - Z.to_nat n))) by lia.
      apply byte_at_zeros.
      apply Forall_skipn_keeps. apply Forall_app. split.
      * apply Forall_repeat_zero.
      * apply Forall_skipn_keeps. apply Forall_repeat_zero.
  - cbn [fst snd]. split; [exact Hb3|]. intros _.
    apply Z.ltb_ge in Epos. split; [exact Hn|].
    rewrite Hdata. rewrite repeat_length.
    split; [lia|]. intros i Hi. apply byte_at_zeros. apply Forall_repeat_zero.
Qed.

Lemma serial_packet_read_loop_bounded turns : forall fp type w st fp' w',
  0 <= kIncomingPacketBufferSize ->
  Forall is_byte (incoming (activePeripheral w)) ->
  serial_packet_read_loop turns fp type w = Some (st, fp', w') ->
  st = kStatus_Success ->
  0 <= dp_length fp' <= kIncomingPacketBufferSize
  /\ Z.of_nat (length (sc_data (g_serialContext w'))) = kIncomingPacketBufferSize
  /\ forall i, dp_length fp' <= i -> byte_at (sc_data (g_serialContext w')) i = 0.
Proof.
  induction turns as [|turns IH]; intros fp type w st fp' w' Hk Hb H Hst;
    [discriminate|].
  cbn [serial_packet_read_loop] in H.
  match type of H with
  | context [read_data_packet fp type ?w0] =>
      pose proof (read_data_packet_bounded fp type w0 Hk Hb eq_refl) as Hr;
      destruct (read_data_packet fp type w0) as [[s1 fp1] w1]
  end.
  cbv zeta in Hr. cbn [fst snd] in Hr. destruct Hr as [Hb1 Hr].
  destruct s1; cbn [is_success negb] in H;
    try (inversion H; subst; discriminate).
  destruct (negb (dp_crc16 fp1 =? _)).
  - unfold serial_packet_send_sync, write_data, byteInterface_write in H.
    cbn [fst snd] in H.
    eapply IH; [exact Hk| |exact H|exact Hst].
    cbn [activePeripheral incoming with_context]. exact Hb1.
  - inversion H; subst. apply Hr. reflexivity.
Qed.

(** X11.  Whatever bytes the peer delivers, a packet [serial_packet_read]
    hands out fits the receive buffer: the reported length lies between 0
    and [kIncomingPacketBufferSize], also when the length field of the packet
    announced more; the buffer handed out has exactly
    [kIncomingPacketBufferSize] bytes, and every byte of it from the reported
    length on is zero. *)
Theorem serial_packet_read_length_bounded type w :
  0 <= kIncomingPacketBufferSize ->
  Forall is_byte (incoming (activePeripheral w)) ->
  let r := serial_packet_read true true type w in
  read_status (fst r) = kStatus_Success ->
  exists n data,
    read_packetLength (fst r) = Some n
    /\ read_packet (fst r) = Some data
    /\ 0 <= n <= kIncomingPacketBufferSize
    /\ Z.of_nat (length data) = kIncomingPacketBufferSize
    /\ forall i, n <= i -> byte_at data i = 0.
Proof.
  intros Hk Hb r. subst r. unfold serial_packet_read. cbn [negb orb].
  set (w0 := with_context w (set_isBackToBackWrite (g_serialContext w) false)).
  assert (Hb0 : Forall is_byte
                  (incoming (activePeripheral (snd (send_deferred_ack w0))))).
  { unfold send_deferred_ack, serial_packet_send_sync, write_data,
      byteInterface_write.
    destruct (isAckNeeded _); [exact Hb|].
    destruct (isAckAbortNeeded _); exact Hb. }
  destruct (send_deferred_ack w0) as [s1 w1]. cbn [snd] in Hb0.
  destruct s1; cbn [is_success negb fst read_status]; try discriminate.
  destruct (serial_packet_read_loop _ _ type w1) as [[[s2 fp2] w2]|] eqn:El;
    [|cbn; discriminate].
  destruct s2; cbn [is_success negb fst read_status]; try discriminate.
  intros _.
  destruct (serial_packet_read_loop_bounded _ _ _ _ _ _ _ Hk Hb0 El eq_refl)
    as (H1 & H2 & H3).
  eexists _, _. cbn [read_packetLength read_packet].
  split; [reflexivity|]. split; [reflexivity|].
  cbn [g_serialContext with_context set_isAckNeeded sc_data]. auto.
Qed.

(** ** The callback buffer *)

Lemma byte_at_array_set_any data i v j :
  (i < length data)%nat -> 0 <= j ->
  byte_at (array_set data i v) j
  = if j =? Z.of_nat i then v else byte_at data j.
Proof.
  intros Hi Hj. destruct (j =? Z.of_nat i) eqn:E.
  - apply Z.eqb_eq in E. subst j. apply byte_at_array_set. exact Hi.
  - apply Z.eqb_neq in E. unfold byte_at, array_set.
    apply Nat.ltb_lt in Hi. rewrite Hi. apply Nat.ltb_lt in Hi.
    destruct (Nat.lt_ge_cases (Z.to_nat j) i) as [Hlt|Hge].
    + rewrite app_nth1 by (rewrite length_firstn; lia).
      rewrite nth_firstn.
      replace (Z.to_nat j <? i)%nat with true
        by (symmetry; apply Nat.ltb_lt; exact Hlt).
      reflexivity.
    + rewrite app_nth2 by (rewrite length_firstn; lia).
      rewrite length_firstn.
      replace (Z.to_nat j - Nat.min i (length data))%nat
        with (S (Z.to_nat j - S i)) by lia.
      cbn [nth]. rewrite nth_skipn. f_equal. lia.
Qed.

Lemma mod_difference size j o :
  0 <= j < size -> 0 <= o < size ->
  (j - o) mod size = if o <=? j then j - o else j - o + size.
Proof.
  intros Hj Ho. destruct (o <=? j) eqn:E.
  - apply Z.leb_le in E. apply Z.mod_small. lia.
  - apply Z.leb_gt in E.
    replace ((j - o) mod size) with ((j - o + size + (-1) * size) mod size)
      by (f_equal; ring).
    rewrite Z_mod_plus_full. apply Z.mod_small. lia.
Qed.

Lemma mod_successor size o :
  0 <= o < size ->
  (o + 1) mod size = if o + 1 <? size then o + 1 else 0.
Proof.
  intros Ho. destruct (o + 1 <? size) eqn:E.
  - apply Z.ltb_lt in E. apply Z.mod_small. lia.
  - apply Z.ltb_ge in E. replace (o + 1) with size by lia.
    apply Z_mod_same_full.
Qed.

(** One byte queued: it lands at the write offset, and the offset moves
    on by one, wrapping at the size of the buffer. *)
Lemma serial_packet_queue_byte_step k byte q :
  0 <= k <= 32 -> kCallbackBufferSize = 2 ^ k -> queue_ok q ->
  exists q',
    serial_packet_queue_byte byte q = Some q'
    /\ queue_ok q'
    /\ writeOffset q' = (writeOffset q + 1) mod kCallbackBufferSize
    /\ forall j, 0 <= j ->
         byte_at (callbackBuffer q') j
         = if j =? writeOffset q then byte else byte_at (callbackBuffer q) j.
Proof.
  intros Hk Hsize [Hlen Hoff]. unfold serial_packet_queue_byte.
  replace ((0 <=? writeOffset q)
           && (writeOffset q <? Z.of_nat (length (callbackBuffer q))))
    with true
    by (symmetry; apply andb_true_intro; split;
        [apply Z.leb_le|apply Z.ltb_lt]; lia).
  eexists. split; [reflexivity|].
  cbn [callbackBuffer writeOffset].
  assert (Hpos : 0 < kCallbackBufferSize) by lia.
  assert (Hle : kCallbackBufferSize <= 2 ^ 32).
  { rewrite Hsize. apply Z.pow_le_mono_r; lia. }
  assert (Hoffset :
    Z.land ((writeOffset q + 1) mod 2 ^ 32) (kCallbackBufferSize - 1)
    = (writeOffset q + 1) mod kCallbackBufferSize).
  { rewrite Hsize. replace (2 ^ k - 1) with (Z.ones k)
      by (rewrite Z.ones_equiv; lia).
    rewrite Z.land_ones by lia.
    destruct (Z_lt_ge_dec (writeOffset q + 1) (2 ^ 32)) as [Hlt|Hge].
    - rewrite (Z.mod_small (writeOffset q + 1) (2 ^ 32)) by lia. reflexivity.
    - assert (E : writeOffset q + 1 = 2 ^ 32) by lia.
      assert (E2 : 2 ^ k = 2 ^ 32) by lia.
      rewrite E, E2. rewrite Z_mod_same_full. reflexivity. }
  rewrite Hoffset.
  split; [|split; [reflexivity|]].
  - split; cbn [callbackBuffer writeOffset];
      [rewrite length_array_set; exact Hlen|].
    apply Z.mod_pos_bound. exact Hpos.
  - intros j Hj. rewrite byte_at_array_set_any by lia.
    rewrite Z2Nat.id by lia. reflexivity.
Qed.

(** X12.  With a callback buffer whose size is a power of two and a write
    offset inside it, [serial_packet_queue_byte] never stores outside the
    buffer, however many bytes are queued: the offset wraps at the size of
    the buffer.  A burst no longer than the buffer is held in full, byte
    number [d] at the offset of the start plus [d], modulo the size; every
    other byte of the buffer is as before.  A longer burst is stored all
    the same: no byte is refused. *)
Theorem serial_packet_queue_bytes_ring k bytes : forall q,
  0 <= k <= 32 -> kCallbackBufferSize = 2 ^ k -> queue_ok q ->
  exists q',
    serial_packet_queue_bytes bytes q = Some q'
    /\ queue_ok q'
    /\ writeOffset q'
       = (writeOffset q + Z.of_nat (length bytes)) mod kCallbackBufferSize
    /\ (Z.of_nat (length bytes) <= kCallbackBufferSize ->
        forall j, 0 <= j < kCallbackBufferSize ->
          byte_at (callbackBuffer q') j
          = if (j - writeOffset q) mod kCallbackBufferSize
               <? Z.of_nat (length bytes)
            then byte_at bytes ((j - writeOffset q) mod kCallbackBufferSize)
            else byte_at (callbackBuffer q) j).
Proof.
  induction bytes as [|b bs IH]; intros q Hk Hsize Hq.
  - exists q. cbn [serial_packet_queue_bytes length].
    split; [reflexivity|]. split; [exact Hq|].
    destruct Hq as [Hlen Hoff]. split.
    + rewrite Z.add_0_r. symmetry. apply Z.mod_small. exact Hoff.
    + intros _ j Hj.
      replace ((j - writeOffset q) mod kCallbackBufferSize <? Z.of_nat 0)
        with false; [reflexivity|].
      symmetry. apply Z.ltb_ge. apply Z.mod_pos_bound. lia.
  - destruct (serial_packet_queue_byte_step k b q Hk Hsize Hq)
      as (q1 & E1 & Hq1 & Ho1 & Hb1).
    destruct (IH q1 Hk Hsize Hq1) as (q' & E' & Hq' & Ho' & Hb').
    exists q'. cbn [serial_packet_queue_bytes]. rewrite E1.
    split; [exact E'|]. split; [exact Hq'|].
    destruct Hq as [Hlen Hoff].
    assert (Hpos : 0 < kCallbackBufferSize) by lia.
    split.
    + rewrite Ho', Ho1. rewrite Zplus_mod_idemp_l. f_equal.
      cbn [length]. lia.
    + intros Hfit j Hj. cbn [length] in Hfit.
      rewrite Hb' by lia. clear Hb' Ho' E' IH.
      rewrite Hb1 by lia.
      destruct Hq1 as [_ Hoff1].
      rewrite (mod_difference _ j (writeOffset q1)) by lia.
      rewrite (mod_difference _ j (writeOffset q)) by lia.
      rewrite mod_successor in Ho1 by lia.
      cbn [length].
      destruct (writeOffset q + 1 <? kCallbackBufferSize) eqn:Ew;
        [apply Z.ltb_lt in Ew|apply Z.ltb_ge in Ew];
        destruct (writeOffset q1 <=? j) eqn:E1j;
        [apply Z.leb_le in E1j|apply Z.leb_gt in E1j
        |apply Z.leb_le in E1j|apply Z.leb_gt in E1j];
        destruct (writeOffset q <=? j) eqn:E0j;
        [apply Z.leb_le in E0j|apply Z.leb_gt in E0j
        |apply Z.leb_le in E0j|apply Z.leb_gt in E0j
        |apply Z.leb_le in E0j|apply Z.leb_gt in E0j
        |apply Z.leb_le in E0j|apply Z.leb_gt in E0j];
        try lia;
        repeat match goal with
        | |- context [?a <? ?b] =>
            destruct (Z.ltb_spec a b)
        | |- context [?a =? ?b] =>
            destruct (Z.eqb_spec a b)
        end; try lia; try reflexivity;
        unfold byte_at;
        try (match goal with
             | |- nth (Z.to_nat ?x) _ _ = nth (Z.to_nat ?y) (_ :: _) _ =>
                 replace (Z.to_nat y) with (S (Z.to_nat x)) by lia;
                 reflexivity
             end);
        try (match goal with
             | |- _ = nth (Z.to_nat ?y) (_ :: _) _ =>
                 replace y with 0 by lia; reflexivity
             end).
Qed.

(** ** The framing engine on a link that delivers packets *)

Section StartByteScan.

(** The scan for the start byte allows at least one read. *)
Hypothesis start_byte_reads : 0 <= kHostMaxStartByteReadCount.

Lemma read_start_byte_loop_found turns count hdr c rest wr ws dl :
  0 <= count <= kHostMaxStartByteReadCount ->
  read_start_byte_loop (S turns) count hdr
    (mk_serial_world c (mk_link (kFramingPacketStartByte :: rest) wr ws dl))
  = Some (kStatus_Success,
          mk_framing_header kFramingPacketStartByte (packetType hdr),
          mk_serial_world c (mk_link rest wr ws dl)).
Proof.
  intros Hc. simpl.
  replace (kHostMaxStartByteReadCount <? count) with false
    by (symmetry; apply Z.ltb_ge; lia).
  unfold byte_at. simpl. rewrite Z.eqb_refl. reflexivity.
Qed.

Lemma read_start_byte_found hdr c rest wr ws dl :
  read_start_byte hdr
    (mk_serial_world c (mk_link (kFramingPacketStartByte :: rest) wr ws dl))
  = (kStatus_Success,
     mk_framing_header kFramingPacketStartByte (packetType hdr),
     mk_serial_world c (mk_link rest wr ws dl)).
Proof.
  unfold read_start_byte.
  cbn [activePeripheral incoming].
  rewrite read_start_byte_loop_found by lia. reflexivity.
Qed.

(** A header that follows at once is read as it stands. *)
Lemma read_header_found hdr t c rest wr ws dl :
  read_header hdr
    (mk_serial_world c (mk_link (kFramingPacketStartByte :: t :: rest) wr ws dl))
  = (kStatus_Success, mk_framing_header kFramingPacketStartByte t,
     mk_serial_world c (mk_link rest wr ws dl)).
Proof.
  unfold read_header. rewrite read_start_byte_found. simpl.
  reflexivity.
Qed.

(** The start byte scan returns for every script: the turn count never
    runs out. *)
Lemma read_start_byte_loop_total turns count hdr w :
  (length (incoming (activePeripheral w)) < turns)%nat ->
  exists r, read_start_byte_loop turns count hdr w = Some r.
Proof.
  revert count hdr w. induction turns as [|turns IH]; intros count hdr w Hlen.
  - lia.
  - destruct w as [c [inc wr ws dl]]. simpl in Hlen. simpl.
    destruct inc as [|b inc]; simpl.
    + eexists; reflexivity.
    + destruct (kHostMaxStartByteReadCount <? count); [eexists; reflexivity|].
      destruct (byte_at [b] 0 =? kFramingPacketStartByte); [eexists; reflexivity|].
      apply IH. simpl. simpl in Hlen. lia.
Qed.

(** The scan consumes input: after it the script is no longer, and
    strictly shorter when it succeeded. *)
Lemma read_start_byte_loop_consumes turns count hdr w st hdr' w' :
  read_start_byte_loop turns count hdr w = Some (st, hdr', w') ->
  (length (incoming (activePeripheral w'))
   <= length (incoming (activePeripheral w)))%nat
  /\ (st = kStatus_Success ->
      (length (incoming (activePeripheral w'))
       < length (incoming (activePeripheral w)))%nat).
Proof.
  revert count hdr w. induction turns as [|turns IH]; intros count hdr w H.
  - discriminate.
  - destruct w as [c [inc wr ws dl]]. simpl in H.
    destruct inc as [|b inc]; simpl in H.
    + inversion H; subst. simpl. split; [lia|discriminate].
    + destruct (kHostMaxStartByteReadCount <? count).
      { inversion H; subst. simpl. split; [lia|discriminate]. }
      destruct (byte_at [b] 0 =? kFramingPacketStartByte).
      { inversion H; subst. simpl. split; intros; lia. }
      apply IH in H. simpl in H. simpl. destruct H as [H1 H2].
      split; [lia|]. intros Hs. specialize (H2 Hs). lia.
Qed.

Lemma read_header_consumes hdr w st hdr' w' :
  read_header hdr w = (st, hdr', w') ->
  (length (incoming (activePeripheral w'))
   <= length (incoming (activePeripheral w)))%nat
  /\ (st = kStatus_Success ->
      (length (incoming (activePeripheral w'))
       < length (incoming (activePeripheral w)))%nat).
Proof.
  unfold read_header, read_start_byte. intros H.
  destruct (read_start_byte_loop_total
              (S (length (incoming (activePeripheral w)))) 0 hdr w) as [r Hr];
    [lia|].
  rewrite Hr in H. destruct r as [[s1 h1] w1].
  apply read_start_byte_loop_consumes in Hr. destruct Hr as [Hle Hlt].
  destruct s1; cbn [is_success negb] in H;
    try (inversion H; subst; split; [lia|discriminate]).
  specialize (Hlt eq_refl).
  unfold read_data, byteInterface_read in H. inversion H; subst.
  cbn [activePeripheral incoming].
  destruct (incoming (activePeripheral w1)); simpl in *;
    split; intros; lia.
Qed.

(** C3 (amended).  When the header [serial_packet_read] finds is a Ping, the
    engine has sent the deferred acknowledgement, replies with the ping
    response, and returns [kStatus_Ping] with length 0 and no packet: it
    reads nothing after the header and leaves the rest of the input to the
    next call. *)
Theorem serial_packet_read_ping type c rest wr ws dl :
  Forall (fun s => s = kStatus_Success) ws ->
  let w := mk_serial_world c
             (mk_link (kFramingPacketStartByte :: kFramingPacketType_Ping :: rest)
                wr ws dl) in
  let r := serial_packet_read true true type w in
  fst r = mk_read_result kStatus_Ping None (Some 0)
  /\ incoming (activePeripheral (snd r)) = rest
  /\ written (activePeripheral (snd r))
     = wr ++ deferred_ack_sync c ++ ping_response_packets
  /\ isAckNeeded (g_serialContext (snd r)) = false.
Proof.
  intros Hws w r. subst r w. unfold serial_packet_read, with_context.
  cbn [negb orb g_serialContext activePeripheral].
  destruct (send_deferred_ack_ok (set_isBackToBackWrite c false)
              (kFramingPacketStartByte :: kFramingPacketType_Ping :: rest)
              wr ws dl Hws) as [E _].
  rewrite E. cbn [is_success negb activePeripheral incoming].
  cbn [serial_packet_read_loop].
  unfold read_data_packet, with_context.
  cbn [g_serialContext activePeripheral header].
  rewrite read_header_found.
  cbn [is_success negb packetType]. rewrite Z.eqb_refl.
  set (c1 := set_sc_data _ _).
  assert (Hack : isAckNeeded c1 = false).
  { subst c1. unfold set_sc_data. cbn [isAckNeeded].
    apply after_deferred_ack_isAckNeeded. }
  unfold serial_send_ping_response. cbn [g_serialContext].
  rewrite Hack. cbn [negb orb].
  unfold byteInterface_write. cbn.
  repeat split.
  - unfold ping_response_packets, deferred_ack_sync, k_PingResponse.
    cbn [isAckNeeded isAckAbortNeeded set_isBackToBackWrite].
    rewrite <- !app_assoc. reflexivity.
  - apply after_deferred_ack_isAckNeeded.
Qed.

(** Any number of turns that is large enough gives the result of
    [wait_for_ack_packet]. *)
Lemma wait_for_ack_packet_loop_more turns : forall w r more,
  wait_for_ack_packet_loop turns w = Some r ->
  wait_for_ack_packet_loop (turns + more) w = Some r.
Proof.
  induction turns as [|turns IH]; intros w r more H; [discriminate|].
  cbn [plus wait_for_ack_packet_loop] in *.
  destruct (read_header (mk_framing_header 0 0) w) as [[st sync] w1].
  destruct (negb (is_success st)); [exact H|].
  destruct (_ && _); [exact H|].
  destruct (packetType sync =? kFramingPacketType_AckAbort); [exact H|].
  destruct (packetType sync =? kFramingPacketType_Nak); [|exact H].
  destruct (write_data _ w1) as [st2 w2].
  destruct (negb (is_success st2)); [exact H|].
  apply IH; exact H.
Qed.

(** [wait_for_ack_packet] returns for every script. *)
Lemma wait_for_ack_packet_loop_total turns : forall w,
  (length (incoming (activePeripheral w)) < turns)%nat ->
  exists r, wait_for_ack_packet_loop turns w = Some r.
Proof.
  induction turns as [|turns IH]; intros w Hlen; [lia|].
  cbn [wait_for_ack_packet_loop].
  destruct (read_header (mk_framing_header 0 0) w) as [[st sync] w1] eqn:Eh.
  apply read_header_consumes in Eh. destruct Eh as [Hle Hlt].
  destruct st; cbn [is_success negb]; try (eexists; reflexivity).
  specialize (Hlt eq_refl).
  destruct (_ && _); [eexists; reflexivity|].
  destruct (packetType sync =? kFramingPacketType_AckAbort);
    [eexists; reflexivity|].
  destruct (packetType sync =? kFramingPacketType_Nak);
    [|eexists; reflexivity].
  destruct (write_data _ w1) as [st2 w2] eqn:Ew.
  destruct (negb (is_success st2)); [eexists; reflexivity|].
  apply IH.
  unfold write_data, byteInterface_write in Ew. inversion Ew; subst.
  cbn [activePeripheral incoming]. lia.
Qed.

Lemma wait_for_ack_packet_eq turns w r :
  wait_for_ack_packet_loop turns w = Some r -> wait_for_ack_packet w = r.
Proof.
  intros H. unfold wait_for_ack_packet.
  destruct (wait_for_ack_packet_loop_total
              (S (length (incoming (activePeripheral w)))) w) as [r' Hr'];
    [lia|].
  rewrite Hr'.
  apply wait_for_ack_packet_loop_more
    with (more := S (length (incoming (activePeripheral w)))) in H.
  apply wait_for_ack_packet_loop_more with (more := turns) in Hr'.
  rewrite Nat.add_comm in Hr'. congruence.
Qed.

(** [wait_for_ack_packet] only adds to what was written. *)
Lemma wait_for_ack_packet_loop_written turns : forall w st w',
  wait_for_ack_packet_loop turns w = Some (st, w') ->
  exists more,
    written (activePeripheral w') = written (activePeripheral w) ++ more.
Proof.
  induction turns as [|turns IH]; intros w st w' H; [discriminate|].
  cbn [wait_for_ack_packet_loop] in H.
  destruct (read_header (mk_framing_header 0 0) w) as [[s1 sync] w1] eqn:Eh.
  assert (Hw1 : written (activePeripheral w1) = written (activePeripheral w)).
  { clear - Eh. unfold read_header, read_start_byte in Eh.
    assert (Hloop : forall turns count hdr w r,
      read_start_byte_loop turns count hdr w = Some r ->
      written (activePeripheral (snd r)) = written (activePeripheral w)).
    { clear. induction turns as [|turns IH]; intros count hdr w r H;
        [discriminate|].
      cbn [read_start_byte_loop] in H.
      unfold read_data, byteInterface_read in H.
      destruct (negb (is_success _)); [inversion H; reflexivity|].
      destruct (_ <? _); [inversion H; reflexivity|].
      destruct (_ =? _); [inversion H; reflexivity|].
      apply IH in H. exact H. }
    destruct (read_start_byte_loop _ 0 _ w) as [[[s0 h0] w0]|] eqn:El.
    - apply Hloop in El. cbn [snd] in El.
      destruct (negb (is_success s0)); [inversion Eh; subst; exact El|].
      unfold read_data, byteInterface_read in Eh. inversion Eh; subst.
      exact El.
    - cbn [is_success negb] in Eh. inversion Eh; reflexivity. }
  destruct (negb (is_success s1));
    [inversion H; subst; exists []; rewrite app_nil_r; exact Hw1|].
  destruct (_ && _);
    [inversion H; subst; exists []; rewrite app_nil_r; exact Hw1|].
  destruct (packetType sync =? kFramingPacketType_AckAbort);
    [inversion H; subst; exists []; rewrite app_nil_r; exact Hw1|].
  destruct (packetType sync =? kFramingPacketType_Nak);
    [|inversion H; subst; exists []; rewrite app_nil_r; exact Hw1].
  destruct (write_data _ w1) as [s2 w2] eqn:Ew.
  unfold write_data, byteInterface_write in Ew. inversion Ew; subst s2 w2.
  clear Ew.
  destruct (negb (is_success _)).
  - inversion H; subst. cbn [activePeripheral written]. rewrite Hw1.
    eexists; reflexivity.
  - apply IH in H. destruct H as [more H]. rewrite H.
    cbn [activePeripheral written]. rewrite Hw1, <- app_assoc.
    eexists; reflexivity.
Qed.

Lemma wait_for_ack_packet_written w :
  exists more,
    written (activePeripheral (snd (wait_for_ack_packet w)))
    = written (activePeripheral w) ++ more.
Proof.
  unfold wait_for_ack_packet.
  destruct (wait_for_ack_packet_loop _ w) as [[st w']|] eqn:E.
  - apply wait_for_ack_packet_loop_written in E. exact E.
  - exists []. rewrite app_nil_r. reflexivity.
Qed.

(** Bytes before the start byte are skipped one by one, with a delay
    after each, as long as the read count allows. *)
Lemma read_start_byte_loop_garbage garbage :
  forall turns count hdr c tail wr ws dl,
  Forall (fun x => x <> kFramingPacketStartByte) garbage ->
  0 <= count ->
  count + Z.of_nat (length garbage) <= kHostMaxStartByteReadCount + 1 ->
  kHostMaxStartByteReadCount + 1 < 2 ^ 32 ->
  exists hdr',
    read_start_byte_loop (length garbage + turns) count hdr
      (mk_serial_world c (mk_link (garbage ++ tail) wr ws dl))
    = read_start_byte_loop turns (count + Z.of_nat (length garbage)) hdr'
        (mk_serial_world c
           (mk_link tail wr ws
              (dl ++ repeat kDefaultByteReadTimeoutMs (length garbage))))
    /\ packetType hdr' = packetType hdr.
Proof.
  induction garbage as [|g garbage IH];
    intros turns count hdr c tail wr ws dl Hg Hc Hle Hmax.
  - exists hdr. cbn [length plus app repeat]. rewrite Z.add_0_r, app_nil_r.
    auto.
  - inversion Hg as [|x l Hx Hl]; subst.
    cbn [length] in Hle.
    cbn [length plus app read_start_byte_loop].
    unfold read_data, byteInterface_read.
    cbn [activePeripheral incoming written write_status delays g_serialContext].
    change (Z.to_nat 1) with 1%nat.
    cbn [length Nat.leb firstn skipn is_success negb].
    replace (kHostMaxStartByteReadCount <? count) with false
      by (symmetry; apply Z.ltb_ge; lia).
    cbn [startByte]. unfold byte_at at 1. cbn [nth Z.to_nat].
    replace (g =? kFramingPacketStartByte) with false
      by (symmetry; apply Z.eqb_neq; exact Hx).
    rewrite Z.mod_small by lia.
    unfold host_delay.
    cbn [activePeripheral incoming written write_status delays g_serialContext].
    destruct (IH turns (count + 1)
                (mk_framing_header (byte_at [g] 0) (packetType hdr))
                c tail wr ws (dl ++ [kDefaultByteReadTimeoutMs]) Hl)
      as (hdr' & E & Hp); try lia.
    exists hdr'. split; [|exact Hp].
    rewrite E. rewrite <- app_assoc. cbn [app repeat].
    replace (count + Z.of_nat (S (length garbage)))
      with (count + 1 + Z.of_nat (length garbage)) by lia.
    reflexivity.
Qed.

(** X13.  [read_start_byte] skips the bytes in front of the start byte,
    with one delay of [kDefaultByteReadTimeoutMs] for each, as long as at
    most [kHostMaxStartByteReadCount] bytes come before it.  The byte with
    number [kHostMaxStartByteReadCount + 2] ends the scan with
    [kStatus_Timeout] whatever it is, the start byte included: the count is
    checked before the byte is looked at. *)
Theorem read_start_byte_scan garbage b hdr c rest wr ws dl :
  Forall (fun x => x <> kFramingPacketStartByte) garbage ->
  Z.of_nat (length garbage) <= kHostMaxStartByteReadCount + 1 ->
  kHostMaxStartByteReadCount + 1 < 2 ^ 32 ->
  Z.of_nat (length garbage) = kHostMaxStartByteReadCount + 1
  \/ b = kFramingPacketStartByte ->
  read_start_byte hdr
    (mk_serial_world c (mk_link (garbage ++ b :: rest) wr ws dl))
  = (if Z.of_nat (length garbage) =? kHostMaxStartByteReadCount + 1
     then kStatus_Timeout else kStatus_Success,
     mk_framing_header b (packetType hdr),
     mk_serial_world c
       (mk_link rest wr ws
          (dl ++ repeat kDefaultByteReadTimeoutMs (length garbage)))).
Proof.
  intros Hg Hle Hmax Hb. unfold read_start_byte.
  cbn [activePeripheral incoming]. rewrite length_app. cbn [length].
  replace (S (length garbage + S (length rest)))
    with (length garbage + S (S (length rest)))%nat by lia.
  destruct (read_start_byte_loop_garbage garbage (S (S (length rest))) 0 hdr c
              (b :: rest) wr ws dl Hg) as (hdr' & E & Hp); try lia.
  rewrite E. clear E. rewrite Z.add_0_l.
  cbn [read_start_byte_loop].
  unfold read_data, byteInterface_read.
  cbn [activePeripheral incoming written write_status delays g_serialContext].
  change (Z.to_nat 1) with 1%nat.
  cbn [length Nat.leb firstn skipn is_success negb].
  unfold byte_at at 1. cbn [nth Z.to_nat]. rewrite Hp.
  destruct (Z.of_nat (length garbage) =? kHostMaxStartByteReadCount + 1) eqn:E.
  - apply Z.eqb_eq in E.
    replace (kHostMaxStartByteReadCount <? Z.of_nat (length garbage)) with true
      by (symmetry; apply Z.ltb_lt; lia).
    reflexivity.
  - apply Z.eqb_neq in E. destruct Hb as [Hb|Hb]; [contradiction|].
    replace (kHostMaxStartByteReadCount <? Z.of_nat (length garbage)) with false
      by (symmetry; apply Z.ltb_ge; lia).
    cbn [startByte]. subst b. rewrite Z.eqb_refl. reflexivity.
Qed.

(** X14.  A header whose packet type is neither a Ping nor the type
    [serial_packet_read] was called for makes it return [kStatus_Fail] with
    the length 0 and no packet.  No Nak is sent and no acknowledgement is
    left pending; only the two bytes of the header are consumed, so whatever
    followed the header is still in the input of the next call. *)
Theorem serial_packet_read_unexpected_type type t c rest wr ws dl :
  Forall (fun s => s = kStatus_Success) ws ->
  t <> kFramingPacketType_Ping ->
  t <> framing_type type ->
  let w := mk_serial_world c
             (mk_link (kFramingPacketStartByte :: t :: rest) wr ws dl) in
  let r := serial_packet_read true true type w in
  fst r = mk_read_result kStatus_Fail None (Some 0)
  /\ incoming (activePeripheral (snd r)) = rest
  /\ written (activePeripheral (snd r)) = wr ++ deferred_ack_sync c
  /\ isAckNeeded (g_serialContext (snd r)) = false.
Proof.
  intros Hws Hping Htype w r. subst r w.
  unfold serial_packet_read, with_context.
  cbn [negb orb g_serialContext activePeripheral].
  destruct (send_deferred_ack_ok (set_isBackToBackWrite c false)
              (kFramingPacketStartByte :: t :: rest) wr ws dl Hws) as [E _].
  rewrite E. cbn [is_success negb activePeripheral incoming].
  cbn [serial_packet_read_loop].
  unfold read_data_packet, with_context.
  cbn [g_serialContext activePeripheral header].
  rewrite read_header_found.
  cbn [is_success negb packetType].
  replace (t =? kFramingPacketType_Ping) with false
    by (symmetry; apply Z.eqb_neq; exact Hping).
  fold (framing_type type).
  replace (t =? framing_type type) with false
    by (symmetry; apply Z.eqb_neq; exact Htype).
  cbn. repeat split.
  apply after_deferred_ack_isAckNeeded.
Qed.

Section OutgoingBuffer.

(** The length of an outgoing packet fits its 16 bit length field. *)
Hypothesis outgoing_buffer_16bit : kOutgoingPacketBufferSize < 65536.

(** With valid arguments and a link that takes every write,
    [serial_packet_write] sends the deferred acknowledgement, then the
    packet in wire format, keeps that packet for retransmission and waits
    for the answer. *)
Lemma serial_packet_write_transmits payload type c inc wr ws dl :
  Forall (fun s => s = kStatus_Success) ws ->
  Z.of_nat (length payload) <= kOutgoingPacketBufferSize ->
  let packet :=
    wire_packet (framing_type type)
      (wire_packet_crc (framing_type type) payload) payload in
  exists c2 dl2,
    serial_packet_write (Some payload) (Z.of_nat (length payload)) type
      (mk_serial_world c (mk_link inc wr ws dl))
    = wait_for_ack_packet
        (mk_serial_world c2
           (mk_link inc (wr ++ deferred_ack_sync c ++ [packet])
              (skipn (S (length (deferred_ack_sync c))) ws) dl2))
    /\ retransmission c2 = packet
    /\ Forall (fun s => s = kStatus_Success)
         (skipn (S (length (deferred_ack_sync c))) ws).
Proof.
  intros Hws Hlen packet.
  set (n := Z.of_nat (length payload)) in *.
  assert (Hn : 0 <= n < 65536) by (subst n; lia).
  unfold serial_packet_write.
  replace (kOutgoingPacketBufferSize <? n) with false
    by (symmetry; apply Z.ltb_ge; lia).
  destruct (send_deferred_ack_ok c inc wr ws dl Hws) as [E F].
  rewrite E. cbn [is_success negb].
  set (ws1 := skipn (length (deferred_ack_sync c)) ws) in *.
  set (wr1 := wr ++ deferred_ack_sync c).
  assert (Hu : u16 n = n) by (unfold u16; apply Z.mod_small; lia).
  assert (Hdata : forall old,
    (if n =? 0 then old else memcpy_at old 0 (bytes_from payload 0 n))
    = payload ++ skipn (length payload) old).
  { intros old. destruct (n =? 0) eqn:En.
    - apply Z.eqb_eq in En. subst n.
      destruct payload; [reflexivity|simpl in En; lia].
    - rewrite memcpy_at_0. unfold bytes_from. subst n. rewrite Nat2Z.id.
      simpl. rewrite firstn_all. reflexivity. }
  assert (Hcrc : forall old tail,
    calculate_framing_crc16
      (mk_framing_data_packet
         (mk_framing_header kFramingPacketStartByte (framing_type type)) n old)
      (payload ++ tail)
    = wire_packet_crc (framing_type type) payload).
  { intros old tail. unfold calculate_framing_crc16, wire_packet_crc.
    cbn [dp_length]. fold n.
    unfold n at 2. rewrite bytes_from_prefix.
    reflexivity. }
  assert (Hbytes : forall tail,
    bytes_from
      (serial_framing_packet_bytes
         (mk_serial_framing_packet
            (mk_framing_data_packet
               (mk_framing_header kFramingPacketStartByte (framing_type type)) n
               (wire_packet_crc (framing_type type) payload))
            (payload ++ tail)))
      0 (sizeof_framing_data_packet_t + n)
    = packet).
  { intros tail. subst packet. unfold serial_framing_packet_bytes, wire_packet.
    unfold framing_header_bytes, bytes_from, sizeof_framing_data_packet_t.
    cbn [dataPacket header startByte packetType dp_length dp_crc16 fp_data].
    fold n. replace (Z.to_nat (6 + n)) with (6 + length payload)%nat
      by (subst n; lia).
    unfold halfword_bytes. simpl.
    do 6 f_equal. rewrite firstn_app, Nat.sub_diag, firstn_all. simpl.
    apply app_nil_r. }
  assert (Htl : tl ws1 = skipn (S (length (deferred_ack_sync c))) ws).
  { subst ws1. clear. generalize (length (deferred_ack_sync c)). intros m.
    revert ws. induction m; destruct ws; simpl; auto. }
  fold (framing_type type). rewrite Hu. cbn [g_serialContext].
  destruct (isBackToBackWrite (after_deferred_ack c)) eqn:Eb;
    unfold host_delay, with_context, set_isBackToBackWrite, set_framingPacket;
    cbn [g_serialContext activePeripheral incoming written write_status delays
         framingPacket];
    rewrite Hdata, Hcrc, Hbytes;
    match goal with
    | |- context [write_data packet (mk_serial_world ?c0 (mk_link ?i ?w0 ?s ?d))] =>
        destruct (write_data_ok packet c0 i w0 s d F) as [E2 F2]; rewrite E2
    end;
    cbn [is_success negb];
    eexists _, _; (split; [|split]);
    try (subst wr1; rewrite <- app_assoc, Htl; reflexivity);
    try (unfold retransmission; cbn [framingPacket dataPacket dp_length];
         apply Hbytes);
    rewrite <- Htl; exact F2.
Qed.

(** The deferred acknowledgement on a link that takes the sync packet,
    whatever it does with later writes. *)
Lemma send_deferred_ack_sent c inc wr ws dl :
  Forall (fun s => s = kStatus_Success)
    (firstn (length (deferred_ack_sync c)) ws) ->
  send_deferred_ack (mk_serial_world c (mk_link inc wr ws dl))
  = (kStatus_Success,
     mk_serial_world (after_deferred_ack c)
       (mk_link inc (wr ++ deferred_ack_sync c)
          (skipn (length (deferred_ack_sync c)) ws) dl)).
Proof.
  unfold send_deferred_ack, deferred_ack_sync, after_deferred_ack.
  cbn [g_serialContext].
  destruct (isAckNeeded c) eqn:Ea; [|destruct (isAckAbortNeeded c) eqn:Eb];
    cbn [length firstn skipn]; intros H;
    unfold serial_packet_send_sync, write_data, byteInterface_write,
      with_context;
    cbn [g_serialContext activePeripheral incoming written write_status delays].
  - destruct ws as [|s ws]; cbn [hd tl firstn skipn] in *; [reflexivity|].
    inversion H; subst. reflexivity.
  - destruct ws as [|s ws]; cbn [hd tl firstn skipn] in *; [reflexivity|].
    inversion H; subst. reflexivity.
  - rewrite app_nil_r. reflexivity.
Qed.

(** [serial_packet_write] up to the wait for the answer: the deferred
    acknowledgement, the delay after a sync packet, the packet in wire
    format, and the flags left behind.  When the link refuses the packet,
    its status is returned and nobody waits for an answer. *)
Lemma serial_packet_write_prepared payload type c inc wr ws dl :
  Forall (fun s => s = kStatus_Success)
    (firstn (length (deferred_ack_sync c)) ws) ->
  Z.of_nat (length payload) <= kOutgoingPacketBufferSize ->
  let packet :=
    wire_packet (framing_type type)
      (wire_packet_crc (framing_type type) payload) payload in
  let delayed :=
    isAckNeeded c || isAckAbortNeeded c || isBackToBackWrite c in
  let status :=
    hd kStatus_Success (skipn (length (deferred_ack_sync c)) ws) in
  exists c2,
    let sent :=
      mk_serial_world c2
        (mk_link inc (wr ++ deferred_ack_sync c ++ [packet])
           (skipn (S (length (deferred_ack_sync c))) ws)
           (dl ++ if delayed then [100] else [])) in
    serial_packet_write (Some payload) (Z.of_nat (length payload)) type
      (mk_serial_world c (mk_link inc wr ws dl))
    = (if is_success status then wait_for_ack_packet sent else (status, sent))
    /\ retransmission c2 = packet
    /\ isBackToBackWrite c2 = false
    /\ isAckNeeded c2 = false
    /\ isAckAbortNeeded c2 = isAckNeeded c && isAckAbortNeeded c.
Proof.
  intros Hws Hlen packet delayed status.
  set (n := Z.of_nat (length payload)) in *.
  assert (Hn : 0 <= n < 65536) by (subst n; lia).
  unfold serial_packet_write.
  replace (kOutgoingPacketBufferSize <? n) with false
    by (symmetry; apply Z.ltb_ge; lia).
  rewrite (send_deferred_ack_sent c inc wr ws dl Hws).
  cbn [is_success negb].
  set (ws1 := skipn (length (deferred_ack_sync c)) ws) in *.
  set (wr1 := wr ++ deferred_ack_sync c).
  assert (Hu : u16 n = n) by (unfold u16; apply Z.mod_small; lia).
  assert (Hdata : forall old,
    (if n =? 0 then old else memcpy_at old 0 (bytes_from payload 0 n))
    = payload ++ skipn (length payload) old).
  { intros old. destruct (n =? 0) eqn:En.
    - apply Z.eqb_eq in En. subst n.
      destruct payload; [reflexivity|simpl in En; lia].
    - rewrite memcpy_at_0. unfold bytes_from. subst n. rewrite Nat2Z.id.
      simpl. rewrite firstn_all. reflexivity. }
  assert (Hcrc : forall old tail,
    calculate_framing_crc16
      (mk_framing_data_packet
         (mk_framing_header kFramingPacketStartByte (framing_type type)) n old)
      (payload ++ tail)
    = wire_packet_crc (framing_type type) payload).
  { intros old tail. unfold calculate_framing_crc16, wire_packet_crc.
    cbn [dp_length]. fold n.
    unfold n at 2. rewrite bytes_from_prefix.
    reflexivity. }
  assert (Hbytes : forall tail,
    bytes_from
      (serial_framing_packet_bytes
         (mk_serial_framing_packet
            (mk_framing_data_packet
               (mk_framing_header kFramingPacketStartByte (framing_type type)) n
               (wire_packet_crc (framing_type type) payload))
            (payload ++ tail)))
      0 (sizeof_framing_data_packet_t + n)
    = packet).
  { intros tail. subst packet. unfold serial_framing_packet_bytes, wire_packet.
    unfold framing_header_bytes, bytes_from, sizeof_framing_data_packet_t.
    cbn [dataPacket header startByte packetType dp_length dp_crc16 fp_data].
    fold n. replace (Z.to_nat (6 + n)) with (6 + length payload)%nat
      by (subst n; lia).
    unfold halfword_bytes. simpl.
    do 6 f_equal. rewrite firstn_app, Nat.sub_diag, firstn_all. simpl.
    apply app_nil_r. }
  assert (Htl : tl ws1 = skipn (S (length (deferred_ack_sync c))) ws).
  { subst ws1. clear. generalize (length (deferred_ack_sync c)). intros m.
    revert ws. induction m; destruct ws; simpl; auto. }
  assert (Hb2b : isBackToBackWrite (after_deferred_ack c) = delayed).
  { subst delayed. unfold after_deferred_ack.
    destruct (isAckNeeded c); [reflexivity|].
    destruct (isAckAbortNeeded c); reflexivity. }
  fold (framing_type type). rewrite Hu. cbn [g_serialContext].
  rewrite Hb2b.
  pose proof (after_deferred_ack_isAckNeeded c) as Hack.
  assert (Habort : isAckAbortNeeded (after_deferred_ack c)
                   = isAckNeeded c && isAckAbortNeeded c).
  { unfold after_deferred_ack.
    destruct (isAckNeeded c) eqn:Ea; [reflexivity|].
    destruct (isAckAbortNeeded c) eqn:Eb; cbn; rewrite ?Eb; reflexivity. }
  destruct delayed;
    unfold host_delay, with_context, set_isBackToBackWrite, set_framingPacket;
    cbn [g_serialContext activePeripheral incoming written write_status delays
         framingPacket];
    rewrite Hdata, Hcrc, Hbytes;
    unfold write_data, byteInterface_write;
    cbn [g_serialContext activePeripheral incoming written write_status delays];
    fold status; rewrite Htl;
    eexists; cbv zeta; (split; [|split; [|split; [|split]]]);
    try (subst wr1; rewrite <- !app_assoc, ?app_nil_r;
         destruct (is_success status); reflexivity);
    try (unfold retransmission; cbn [framingPacket dataPacket dp_length];
         apply Hbytes);
    try (cbn [isBackToBackWrite isAckNeeded isAckAbortNeeded];
         first [reflexivity | assumption]).
Qed.

(** X15.  When no acknowledgement is pending and the link refuses the
    packet with a status [s], [serial_packet_write] returns [s] at once: it
    has handed the packet to the link once, has made the delay of a
    back-to-back write if one was due, and has not read a byte, so it does
    not wait for an answer.  The packet is retained for retransmission all
    the same. *)
Theorem serial_packet_write_refused payload type c inc wr s ws dl :
  s <> kStatus_Success ->
  deferred_ack_sync c = [] ->
  Z.of_nat (length payload) <= kOutgoingPacketBufferSize ->
  let packet :=
    wire_packet (framing_type type)
      (wire_packet_crc (framing_type type) payload) payload in
  let r :=
    serial_packet_write (Some payload) (Z.of_nat (length payload)) type
      (mk_serial_world c (mk_link inc wr (s :: ws) dl)) in
  fst r = s
  /\ activePeripheral (snd r)
     = mk_link inc (wr ++ [packet]) ws
         (dl ++ if isBackToBackWrite c then [100] else [])
  /\ retransmission (g_serialContext (snd r)) = packet.
Proof.
  intros Hs Hnone Hlen packet r. subst r.
  destruct (serial_packet_write_prepared payload type c inc wr (s :: ws) dl)
    as (c2 & E & Hre & _); [rewrite Hnone; constructor|exact Hlen|].
  cbv zeta in E. rewrite E. clear E. rewrite Hnone.
  cbn [length skipn hd app].
  replace (is_success s) with false by (destruct s; cbn; congruence).
  cbn [fst snd activePeripheral g_serialContext].
  split; [reflexivity|]. split; [|exact Hre].
  unfold deferred_ack_sync in Hnone.
  destruct (isAckNeeded c); [discriminate|].
  destruct (isAckAbortNeeded c); [discriminate|]. reflexivity.
Qed.

(** X16.  When the peer answers a packet with a header that is neither
    an Ack nor a Nak nor an AckAbort, [serial_packet_write] returns
    [kStatus_InvalidArgument], the status it also has for bad arguments.
    The packet went out once and is not sent again, and only the two bytes
    of the header have been consumed. *)
Theorem serial_packet_write_unexpected_answer payload type t c rest wr ws dl :
  Forall (fun s => s = kStatus_Success) ws ->
  Z.of_nat (length payload) <= kOutgoingPacketBufferSize ->
  t <> kFramingPacketType_Ack ->
  t <> kFramingPacketType_Nak ->
  t <> kFramingPacketType_AckAbort ->
  let packet :=
    wire_packet (framing_type type)
      (wire_packet_crc (framing_type type) payload) payload in
  let r :=
    serial_packet_write (Some payload) (Z.of_nat (length payload)) type
      (mk_serial_world c
         (mk_link (kFramingPacketStartByte :: t :: rest) wr ws dl)) in
  fst r = kStatus_InvalidArgument
  /\ written (activePeripheral (snd r)) = wr ++ deferred_ack_sync c ++ [packet]
  /\ incoming (activePeripheral (snd r)) = rest
  /\ retransmission (g_serialContext (snd r)) = packet.
Proof.
  intros Hws Hlen Hack Hnak Habort packet r. subst r.
  destruct (serial_packet_write_prepared payload type c
              (kFramingPacketStartByte :: t :: rest) wr ws dl)
    as (c2 & E & Hre & _);
    [apply Forall_firstn_keeps; exact Hws|exact Hlen|].
  cbv zeta in E. rewrite E. clear E.
  replace (is_success _) with true.
  2:{ symmetry.
      assert (H : Forall (fun s => s = kStatus_Success)
                    (skipn (length (deferred_ack_sync c)) ws))
        by (apply Forall_skipn_keeps; exact Hws).
      destruct (skipn (length (deferred_ack_sync c)) ws) as [|s0 l];
        [reflexivity|].
      inversion H; subst. reflexivity. }
  unfold wait_for_ack_packet. cbn [activePeripheral incoming length].
  cbn [wait_for_ack_packet_loop]. rewrite read_header_found.
  cbn [is_success negb packetType].
  replace (t =? kFramingPacketType_Ack) with false
    by (symmetry; apply Z.eqb_neq; exact Hack).
  replace (t =? kFramingPacketType_Nak) with false
    by (symmetry; apply Z.eqb_neq; exact Hnak).
  replace (t =? kFramingPacketType_AckAbort) with false
    by (symmetry; apply Z.eqb_neq; exact Habort).
  cbn. auto.
Qed.

Section DataPackets.

(** The codes of the Command and Data packets differ from that of the
    Ping, the receive buffer is addressed by a 16 bit length, and the crc is
    a 16 bit value. *)
Hypothesis Command_not_Ping :
  kFramingPacketType_Command <> kFramingPacketType_Ping.
Hypothesis Data_not_Ping : kFramingPacketType_Data <> kFramingPacketType_Ping.
Hypothesis incoming_buffer_16bit : 0 <= kIncomingPacketBufferSize < 65536.
Hypothesis crc16_finalize_16bit :
  forall c, 0 <= crc16_finalize c < 65536.

Lemma framing_type_not_Ping type :
  (framing_type type =? kFramingPacketType_Ping) = false.
Proof.
  apply Z.eqb_neq. destruct type; simpl; auto.
Qed.

(** A packet in wire format whose payload fits the receive buffer is read
    as a whole, whatever its crc field holds: the payload lands at the
    start of the receive buffer. *)
Lemma read_data_packet_frame fp type crc payload c rest wr ws dl :
  Z.of_nat (length payload) <= kIncomingPacketBufferSize ->
  0 <= crc < 65536 ->
  read_data_packet fp type
    (mk_serial_world c
       (mk_link (wire_packet (framing_type type) crc payload ++ rest) wr ws dl))
  = (kStatus_Success,
     mk_framing_data_packet
       (mk_framing_header kFramingPacketStartByte (framing_type type))
       (Z.of_nat (length payload)) crc,
     mk_serial_world
       (set_sc_data c (payload ++ skipn (length payload) (sc_data c)))
       (mk_link rest wr ws dl)).
Proof.
  intros Hlen Hcrc.
  set (n := Z.of_nat (length payload)) in *.
  assert (Hn : 0 <= n < 65536) by (subst n; lia).
  unfold read_data_packet, wire_packet. fold n.
  rewrite <- !app_assoc. cbn [app]. rewrite read_header_found.
  cbn [is_success negb packetType]. rewrite framing_type_not_Ping.
  fold (framing_type type). rewrite Z.eqb_refl. cbn [negb].
  unfold read_length.
  rewrite (read_data_ok 2 _ (halfword_bytes n)) by reflexivity.
  cbn [is_success negb header dp_length dp_crc16].
  rewrite halfword_halfword_bytes by exact Hn.
  rewrite Z.min_r by lia.
  unfold read_crc16.
  rewrite (read_data_ok 2 _ (halfword_bytes crc)) by reflexivity.
  cbn [is_success negb header dp_length dp_crc16].
  rewrite halfword_halfword_bytes by exact Hcrc.
  destruct (0 <? n) eqn:Epos.
  - rewrite (read_data_ok n _ payload) by (subst n; apply Nat2Z.id).
    unfold with_context. cbn [g_serialContext activePeripheral].
    do 2 f_equal. f_equal.
    rewrite !memcpy_at_0. unfold memset. rewrite repeat_length.
    subst n. rewrite Nat2Z.id.
    rewrite skipn_app, repeat_length, Nat.sub_diag.
    rewrite skipn_all2 by (rewrite repeat_length; lia).
    reflexivity.
  - apply Z.ltb_ge in Epos.
    assert (payload = []) by (destruct payload; [reflexivity|simpl in n; lia]).
    subst payload. simpl. rewrite set_sc_data_same. reflexivity.
Qed.

(** Any number of turns that is large enough gives the result of the read
    loop. *)
Lemma serial_packet_read_loop_more turns : forall fp type w r more,
  serial_packet_read_loop turns fp type w = Some r ->
  serial_packet_read_loop (turns + more) fp type w = Some r.
Proof.
  induction turns as [|turns IH]; intros fp type w r more H; [discriminate|].
  cbn [plus serial_packet_read_loop] in *.
  destruct (read_data_packet fp type _) as [[st fp1] w1].
  destruct (negb (is_success st)); [exact H|].
  destruct (negb (dp_crc16 fp1 =? _)); [|exact H].
  destruct (serial_packet_send_sync kFramingPacketType_Nak w1) as [st2 w2].
  apply IH; exact H.
Qed.

Lemma read_data_packet_consumes fp type w st fp' w' :
  read_data_packet fp type w = (st, fp', w') ->
  st = kStatus_Success ->
  (length (incoming (activePeripheral w'))
   < length (incoming (activePeripheral w)))%nat.
Proof.
  unfold read_data_packet. intros H Hs.
  destruct (read_header (header fp) w) as [[s1 h1] w1] eqn:Eh.
  apply read_header_consumes in Eh. destruct Eh as [_ Hlt].
  destruct s1; cbn [is_success negb] in H;
    try (inversion H; subst; discriminate).
  specialize (Hlt eq_refl).
  destruct (packetType h1 =? kFramingPacketType_Ping).
  { unfold serial_send_ping_response in H.
    destruct (_ || _) in H; [|inversion H; subst; discriminate].
    unfold byteInterface_write in H. inversion H; subst. discriminate. }
  destruct (negb (packetType h1 =? _)) in H; [inversion H; subst; discriminate|].
  unfold read_length, read_crc16 in H.
  destruct (read_data 2 _ w1) as [[s2 b2] w2] eqn:E2.
  apply read_data_shrinks in E2.
  destruct s2; cbn [is_success negb] in H;
    try (inversion H; subst; discriminate).
  destruct (read_data 2 _ w2) as [[s3 b3] w3] eqn:E3.
  apply read_data_shrinks in E3.
  destruct s3; cbn [is_success negb] in H;
    try (inversion H; subst; discriminate).
  destruct (0 <? _) in H.
  - destruct (read_data _ _ w3) as [[s4 b4] w4] eqn:E4.
    apply read_data_shrinks in E4.
    inversion H; subst. unfold with_context. cbn [activePeripheral]. lia.
  - inversion H; subst. lia.
Qed.

(** [serial_packet_read] returns for every script. *)
Lemma serial_packet_read_loop_total turns : forall fp type w,
  (length (incoming (activePeripheral w)) < turns)%nat ->
  exists r, serial_packet_read_loop turns fp type w = Some r.
Proof.
  induction turns as [|turns IH]; intros fp type w Hlen; [lia|].
  cbn [serial_packet_read_loop].
  destruct (read_data_packet fp type _) as [[st fp1] w1] eqn:Er.
  destruct st; cbn [is_success negb]; try (eexists; reflexivity).
  apply read_data_packet_consumes in Er; [|reflexivity].
  unfold with_context in Er. cbn [activePeripheral] in Er.
  destruct (negb (dp_crc16 fp1 =? _)); [|eexists; reflexivity].
  destruct (serial_packet_send_sync kFramingPacketType_Nak w1) as [st2 w2] eqn:Es.
  apply IH.
  unfold serial_packet_send_sync, write_data, byteInterface_write, with_context in Es.
  inversion Es; subst. cbn [activePeripheral incoming]. lia.
Qed.

(** Packets that fail the crc check are answered with a Nak each and
    otherwise skipped: the loop goes on with what follows them. *)
Lemma serial_packet_read_loop_mismatches type bad :
  Forall (crc_mismatch (framing_type type)) bad ->
  forall turns fp c tail wr ws dl,
  exists fp' c',
    serial_packet_read_loop (length bad + turns) fp type
      (mk_serial_world c
         (mk_link (wire_packets (framing_type type) bad ++ tail) wr ws dl))
    = serial_packet_read_loop turns fp' type
        (mk_serial_world c'
           (mk_link tail (wr ++ repeat nak_sync (length bad))
              (skipn (length bad) ws) dl))
    /\ isAckNeeded c' = isAckNeeded c
    /\ isAckAbortNeeded c' = isAckAbortNeeded c
    /\ framingPacket c' = framingPacket c.
Proof.
  induction 1 as [|[crc payload] bad Hbad _ IH]; intros turns fp c tail wr ws dl.
  - exists fp, c. simpl. rewrite app_nil_r. auto.
  - destruct Hbad as (Hlen & Hcrc & Hne). cbn [fst snd] in *.
    unfold wire_packets. cbn [map concat length plus fst snd].
    fold (wire_packets (framing_type type) bad).
    cbn [serial_packet_read_loop]. unfold with_context.
    cbn [g_serialContext activePeripheral].
    rewrite <- app_assoc.
    rewrite read_data_packet_frame by assumption.
    cbn [is_success negb dp_crc16 g_serialContext sc_data set_sc_data].
    rewrite calculate_framing_crc16_wire.
    replace (crc =? wire_packet_crc (framing_type type) payload) with false
      by (symmetry; apply Z.eqb_neq; exact Hne).
    cbn [negb]. unfold serial_packet_send_sync, write_data, byteInterface_write,
      with_context.
    cbn [g_serialContext activePeripheral incoming written write_status delays].
    match goal with
    | |- context [serial_packet_read_loop _ ?f _
                    (mk_serial_world ?c0 (mk_link _ ?w0 ?s0 ?d0))] =>
        destruct (IH turns f c0 tail w0 s0 d0) as (fp' & c' & E & Ha & Hb & Hf)
    end.
    exists fp', c'. rewrite E. split; [|auto].
    f_equal. f_equal. f_equal.
    + rewrite <- app_assoc. reflexivity.
    + destruct ws; simpl; [apply skipn_nil|reflexivity].
Qed.

(** A packet whose crc field matches ends the loop with success. *)
Lemma serial_packet_read_loop_match type payload turns fp c rest wr ws dl :
  Z.of_nat (length payload) <= kIncomingPacketBufferSize ->
  serial_packet_read_loop (S turns) fp type
    (mk_serial_world c
       (mk_link
          (wire_packet (framing_type type)
             (wire_packet_crc (framing_type type) payload) payload ++ rest)
          wr ws dl))
  = Some
      (kStatus_Success,
       mk_framing_data_packet
         (mk_framing_header kFramingPacketStartByte (framing_type type))
         (Z.of_nat (length payload))
         (wire_packet_crc (framing_type type) payload),
       mk_serial_world
         (set_sc_data c
            (payload
             ++ skipn (length payload) (memset 0 kIncomingPacketBufferSize)))
         (mk_link rest wr ws dl)).
Proof.
  intros Hlen. cbn [serial_packet_read_loop]. unfold with_context.
  cbn [g_serialContext activePeripheral].
  rewrite read_data_packet_frame;
    [|assumption|unfold wire_packet_crc; apply crc16_finalize_16bit].
  cbn [is_success negb dp_crc16 g_serialContext sc_data set_sc_data].
  rewrite calculate_framing_crc16_wire, Z.eqb_refl. reflexivity.
Qed.

(** Reading the script made of packets that fail the crc check followed by
    a packet that passes it. *)
Lemma serial_packet_read_frames type bad payload c rest wr ws dl :
  Forall (fun s => s = kStatus_Success) ws ->
  Forall (crc_mismatch (framing_type type)) bad ->
  Z.of_nat (length payload) <= kIncomingPacketBufferSize ->
  exists c',
    serial_packet_read true true type
      (mk_serial_world c
         (mk_link
            (wire_packets (framing_type type) bad
             ++ wire_packet (framing_type type)
                  (wire_packet_crc (framing_type type) payload) payload
             ++ rest)
            wr ws dl))
    = (mk_read_result kStatus_Success
         (Some (payload
                ++ skipn (length payload) (memset 0 kIncomingPacketBufferSize)))
         (Some (Z.of_nat (length payload))),
       mk_serial_world c'
         (mk_link rest
            (wr ++ deferred_ack_sync c ++ repeat nak_sync (length bad))
            (skipn (length bad) (skipn (length (deferred_ack_sync c)) ws))
            dl))
    /\ isAckNeeded c' = true
    /\ Forall (fun s => s = kStatus_Success)
         (skipn (length bad) (skipn (length (deferred_ack_sync c)) ws)).
Proof.
  intros Hws Hbad Hlen. unfold serial_packet_read, with_context.
  cbn [negb orb g_serialContext activePeripheral].
  match goal with
  | |- context [send_deferred_ack (mk_serial_world ?c0 (mk_link ?i ?w0 ?s ?d))] =>
      destruct (send_deferred_ack_ok c0 i w0 s d Hws) as [E F]
  end.
  rewrite E. cbn [is_success negb activePeripheral incoming].
  rewrite deferred_ack_sync_backToBack in *.
  set (c1 := after_deferred_ack _).
  set (ws1 := skipn (length (deferred_ack_sync c)) ws) in *.
  set (fp0 := mk_framing_data_packet _ _ _).
  destruct (serial_packet_read_loop_mismatches type bad Hbad 1 fp0 c1
              (wire_packet (framing_type type)
                 (wire_packet_crc (framing_type type) payload) payload ++ rest)
              (wr ++ deferred_ack_sync c) ws1 dl)
    as (fp' & c' & E2 & Ha & Hb & Hf).
  rewrite serial_packet_read_loop_match in E2 by exact Hlen.
  match goal with
  | |- context [serial_packet_read_loop ?t fp0 type ?w] =>
      destruct (serial_packet_read_loop_total t fp0 type w) as [r Hr];
        [cbn [activePeripheral incoming]; lia|];
      rewrite Hr;
      apply serial_packet_read_loop_more with (more := (length bad + 1)%nat) in Hr
  end.
  apply serial_packet_read_loop_more with (more := S (length
    (wire_packets (framing_type type) bad ++
     wire_packet (framing_type type)
       (wire_packet_crc (framing_type type) payload) payload ++ rest))) in E2.
  rewrite Nat.add_comm in E2. rewrite E2 in Hr. inversion Hr; subst r.
  cbn [is_success negb]. unfold with_context.
  cbn [g_serialContext activePeripheral sc_data set_sc_data set_isAckNeeded].
  eexists. split; [|split].
  - rewrite <- app_assoc. reflexivity.
  - reflexivity.
  - subst ws1. clear - F. revert F.
    generalize (skipn (length (deferred_ack_sync c)) ws). intros l.
    generalize (length bad). intros m. revert l.
    induction m; destruct l; simpl; auto.
    intros F. inversion F; auto.
Qed.

(** *** Packets as the engine receives them *)

Lemma bytes_from_front (a b : list Z) n :
  length a = Z.to_nat n -> bytes_from (a ++ b) 0 n = a.
Proof.
  intros H. unfold bytes_from. rewrite <- H. simpl.
  rewrite firstn_app, Nat.sub_diag, firstn_all. simpl. apply app_nil_r.
Qed.

(** The crc [calculate_framing_crc16] computes for a packet that was
    received, from the packet as [read_data_packet] leaves it and the
    receive buffer. *)
Lemma calculate_framing_crc16_received ftype len crc data tail :
  length data = Z.to_nat (received_length len) ->
  calculate_framing_crc16
    (mk_framing_data_packet
       (mk_framing_header kFramingPacketStartByte ftype)
       (received_length len) crc)
    (data ++ tail)
  = recomputed_crc ftype len data.
Proof.
  intros H. unfold calculate_framing_crc16, recomputed_crc. cbn [dp_length].
  rewrite bytes_from_front by exact H. reflexivity.
Qed.

(** A packet of the expected type is read as a whole, whatever its length
    field and its crc field hold: the length is cut to the size of the
    receive buffer, and the payload bytes that were read land at the start
    of the receive buffer. *)
Lemma read_data_packet_received fp type len crc data c rest wr ws dl :
  0 <= len < 65536 ->
  0 <= crc < 65536 ->
  length data = Z.to_nat (received_length len) ->
  read_data_packet fp type
    (mk_serial_world c
       (mk_link (received_packet (framing_type type) len crc data ++ rest)
          wr ws dl))
  = (kStatus_Success,
     mk_framing_data_packet
       (mk_framing_header kFramingPacketStartByte (framing_type type))
       (received_length len) crc,
     mk_serial_world
       (set_sc_data c (data ++ skipn (length data) (sc_data c)))
       (mk_link rest wr ws dl)).
Proof.
  intros Hlen Hcrc Hdata.
  unfold read_data_packet, received_packet.
  rewrite <- !app_assoc. cbn [app]. rewrite read_header_found.
  cbn [is_success negb packetType]. rewrite framing_type_not_Ping.
  fold (framing_type type). rewrite Z.eqb_refl. cbn [negb].
  unfold read_length.
  rewrite (read_data_ok 2 _ (halfword_bytes len)) by reflexivity.
  cbn [is_success negb header dp_length dp_crc16].
  rewrite halfword_halfword_bytes by exact Hlen.
  fold (received_length len).
  unfold read_crc16.
  rewrite (read_data_ok 2 _ (halfword_bytes crc)) by reflexivity.
  cbn [is_success negb header dp_length dp_crc16].
  rewrite halfword_halfword_bytes by exact Hcrc.
  destruct (0 <? received_length len) eqn:Epos.
  - rewrite (read_data_ok (received_length len) _ data)
      by (symmetry; exact Hdata).
    unfold with_context. cbn [g_serialContext activePeripheral].
    do 2 f_equal. f_equal.
    rewrite !memcpy_at_0. unfold memset. rewrite repeat_length.
    rewrite <- Hdata.
    rewrite skipn_app, repeat_length, Nat.sub_diag.
    rewrite skipn_all2 by (rewrite repeat_length; apply Nat.le_refl).
    reflexivity.
  - apply Z.ltb_ge in Epos.
    assert (Hnil : data = []).
    { destruct data as [|x data]; [reflexivity|].
      exfalso. cbn [length] in Hdata. lia. }
    subst data. simpl. rewrite set_sc_data_same. reflexivity.
Qed.

(** Received packets whose crc field is not the crc the engine computes
    are answered with a Nak each and otherwise skipped: the loop goes on
    with what follows them. *)
Lemma serial_packet_read_loop_rejected type bad :
  Forall (crc_rejected (framing_type type)) bad ->
  forall turns fp c tail wr ws dl,
  exists fp' c',
    serial_packet_read_loop (length bad + turns) fp type
      (mk_serial_world c
         (mk_link (received_packets (framing_type type) bad ++ tail) wr ws dl))
    = serial_packet_read_loop turns fp' type
        (mk_serial_world c'
           (mk_link tail (wr ++ repeat nak_sync (length bad))
              (skipn (length bad) ws) dl))
    /\ isAckNeeded c' = isAckNeeded c
    /\ isAckAbortNeeded c' = isAckAbortNeeded c
    /\ framingPacket c' = framingPacket c.
Proof.
  induction 1 as [|[[len crc] data] bad Hbad _ IH];
    intros turns fp c tail wr ws dl.
  - exists fp, c. simpl. rewrite app_nil_r. auto.
  - destruct Hbad as (Hlen & Hcrc & Hdata & Hne).
    unfold received_packets. cbn [map concat length plus].
    fold (received_packets (framing_type type) bad).
    cbn [serial_packet_read_loop]. unfold with_context.
    cbn [g_serialContext activePeripheral].
    rewrite <- app_assoc.
    rewrite read_data_packet_received by assumption.
    cbn [is_success negb dp_crc16 g_serialContext sc_data set_sc_data].
    rewrite calculate_framing_crc16_received by exact Hdata.
    replace (crc =? recomputed_crc (framing_type type) len data) with false
      by (symmetry; apply Z.eqb_neq; exact Hne).
    cbn [negb]. unfold serial_packet_send_sync, write_data, byteInterface_write,
      with_context.
    cbn [g_serialContext activePeripheral incoming written write_status delays].
    match goal with
    | |- context [serial_packet_read_loop _ ?f _
                    (mk_serial_world ?c0 (mk_link _ ?w0 ?s0 ?d0))] =>
        destruct (IH turns f c0 tail w0 s0 d0) as (fp' & c' & E & Ha & Hb & Hf)
    end.
    exists fp', c'. rewrite E. split; [|auto].
    f_equal. f_equal. f_equal.
    + rewrite <- app_assoc. reflexivity.
    + destruct ws; simpl; [apply skipn_nil|reflexivity].
Qed.

(** A received packet whose crc field is the crc the engine computes ends
    the loop with success. *)
Lemma serial_packet_read_loop_accepted type len data turns fp c rest wr ws dl :
  0 <= len < 65536 ->
  length data = Z.to_nat (received_length len) ->
  serial_packet_read_loop (S turns) fp type
    (mk_serial_world c
       (mk_link
          (received_packet (framing_type type) len
             (recomputed_crc (framing_type type) len data) data ++ rest)
          wr ws dl))
  = Some
      (kStatus_Success,
       mk_framing_data_packet
         (mk_framing_header kFramingPacketStartByte (framing_type type))
         (received_length len)
         (recomputed_crc (framing_type type) len data),
       mk_serial_world
         (set_sc_data c
            (data ++ skipn (length data) (memset 0 kIncomingPacketBufferSize)))
         (mk_link rest wr ws dl)).
Proof.
  intros Hlen Hdata. cbn [serial_packet_read_loop]. unfold with_context.
  cbn [g_serialContext activePeripheral].
  rewrite read_data_packet_received;
    [|assumption|unfold recomputed_crc; apply crc16_finalize_16bit|assumption].
  cbn [is_success negb dp_crc16 g_serialContext sc_data set_sc_data].
  rewrite calculate_framing_crc16_received by exact Hdata.
  rewrite Z.eqb_refl. reflexivity.
Qed.

(** Reading the script made of received packets that fail the crc check
    followed by one that passes it. *)
Lemma serial_packet_read_received type bad len data c rest wr ws dl :
  Forall (fun s => s = kStatus_Success) ws ->
  Forall (crc_rejected (framing_type type)) bad ->
  0 <= len < 65536 ->
  length data = Z.to_nat (received_length len) ->
  exists c',
    serial_packet_read true true type
      (mk_serial_world c
         (mk_link
            (received_packets (framing_type type) bad
             ++ received_packet (framing_type type) len
                  (recomputed_crc (framing_type type) len data) data
             ++ rest)
            wr ws dl))
    = (mk_read_result kStatus_Success
         (Some (data
                ++ skipn (length data) (memset 0 kIncomingPacketBufferSize)))
         (Some (received_length len)),
       mk_serial_world c'
         (mk_link rest
            (wr ++ deferred_ack_sync c ++ repeat nak_sync (length bad))
            (skipn (length bad) (skipn (length (deferred_ack_sync c)) ws))
            dl))
    /\ isAckNeeded c' = true.
Proof.
  intros Hws Hbad Hlen Hdata. unfold serial_packet_read, with_context.
  cbn [negb orb g_serialContext activePeripheral].
  match goal with
  | |- context [send_deferred_ack (mk_serial_world ?c0 (mk_link ?i ?w0 ?s ?d))] =>
      destruct (send_deferred_ack_ok c0 i w0 s d Hws) as [E F]
  end.
  rewrite E. cbn [is_success negb activePeripheral incoming].
  rewrite deferred_ack_sync_backToBack in *.
  set (c1 := after_deferred_ack _).
  set (ws1 := skipn (length (deferred_ack_sync c)) ws) in *.
  set (fp0 := mk_framing_data_packet _ _ _).
  set (good := received_packet (framing_type type) len
                 (recomputed_crc (framing_type type) len data) data).
  destruct (serial_packet_read_loop_rejected type bad Hbad 1 fp0 c1
              (good ++ rest) (wr ++ deferred_ack_sync c) ws1 dl)
    as (fp' & c' & E2 & Ha & Hb & Hf).
  subst good.
  rewrite serial_packet_read_loop_accepted in E2 by assumption.
  match goal with
  | |- context [serial_packet_read_loop ?t fp0 type ?w] =>
      destruct (serial_packet_read_loop_total t fp0 type w) as [r Hr];
        [cbn [activePeripheral incoming]; apply Nat.lt_succ_diag_r|];
      rewrite Hr;
      apply serial_packet_read_loop_more with (more := (length bad + 1)%nat) in Hr
  end.
  apply serial_packet_read_loop_more with (more := S (length
    (received_packets (framing_type type) bad ++
     received_packet (framing_type type) len
       (recomputed_crc (framing_type type) len data) data ++ rest))) in E2.
  rewrite Nat.add_comm in E2. rewrite E2 in Hr. inversion Hr; subst r.
  cbn [is_success negb]. unfold with_context.
  cbn [g_serialContext activePeripheral sc_data set_sc_data set_isAckNeeded].
  eexists. split.
  - rewrite <- app_assoc. reflexivity.
  - reflexivity.
Qed.

(** *** What a successful read has taken from the link *)

Lemma read_data_split n t w st bytes w' :
  read_data n t w = (st, bytes, w') ->
  st = kStatus_Success ->
  incoming (activePeripheral w) = bytes ++ incoming (activePeripheral w')
  /\ length bytes = Z.to_nat n
  /\ g_serialContext w' = g_serialContext w.
Proof.
  unfold read_data, byteInterface_read.
  destruct (Z.to_nat n <=? length (incoming (activePeripheral w)))%nat eqn:E;
    intros H Hs; inversion H; subst; [|discriminate].
  apply Nat.leb_le in E.
  cbn [activePeripheral incoming g_serialContext].
  split; [symmetry; apply firstn_skipn|]. split; [|reflexivity].
  rewrite length_firstn. apply Nat.min_l. exact E.
Qed.

(** A scan that succeeds has skipped some bytes and taken the start
    byte. *)
Lemma read_start_byte_loop_split turns : forall count hdr w hdr' w',
  read_start_byte_loop turns count hdr w = Some (kStatus_Success, hdr', w') ->
  exists garbage,
    incoming (activePeripheral w)
    = garbage ++ kFramingPacketStartByte :: incoming (activePeripheral w')
    /\ startByte hdr' = kFramingPacketStartByte
    /\ g_serialContext w' = g_serialContext w.
Proof.
  induction turns as [|turns IH]; intros count hdr w hdr' w' H; [discriminate|].
  destruct w as [c [inc wr ws dl]]. simpl in H.
  destruct inc as [|b inc]; simpl in H; [discriminate|].
  destruct (kHostMaxStartByteReadCount <? count); [discriminate|].
  change (byte_at [b] 0) with b in H.
  destruct (b =? kFramingPacketStartByte) eqn:Eb.
  - apply Z.eqb_eq in Eb. inversion H; subst. exists []. simpl. auto.
  - apply IH in H. destruct H as (garbage & Hi & Hs & Hc).
    cbn [host_delay activePeripheral incoming g_serialContext] in Hi, Hc.
    exists (b :: garbage). cbn [activePeripheral incoming g_serialContext app].
    rewrite Hi. auto.
Qed.

Lemma read_header_split hdr w hdr' w' :
  read_header hdr w = (kStatus_Success, hdr', w') ->
  exists garbage,
    incoming (activePeripheral w)
    = garbage
      ++ kFramingPacketStartByte :: packetType hdr'
         :: incoming (activePeripheral w')
    /\ startByte hdr' = kFramingPacketStartByte
    /\ g_serialContext w' = g_serialContext w.
Proof.
  unfold read_header, read_start_byte. intros H.
  destruct (read_start_byte_loop _ 0 hdr w) as [[[s1 h1] w1]|] eqn:Hr;
    [|discriminate].
  destruct s1; cbn [is_success negb] in H; try discriminate.
  apply read_start_byte_loop_split in Hr.
  destruct Hr as (garbage & Hi & Hs & Hc).
  destruct (read_data 1 _ w1) as [[s2 b2] w2] eqn:E2.
  inversion H; subst s2 hdr' w2. clear H.
  apply read_data_split in E2; [|reflexivity].
  destruct E2 as (Hi2 & Hl2 & Hc2).
  change (Z.to_nat 1) with 1%nat in Hl2.
  destruct b2 as [|x [|y b2]]; try discriminate.
  exists garbage. cbn [is_success packetType startByte].
  change (byte_at [x] 0) with x.
  rewrite Hi, Hi2. split; [reflexivity|]. split; [exact Hs|congruence].
Qed.

(** [read_data_packet] succeeds only by taking a whole packet of the
    expected type from the link, behind whatever the start byte scan has
    skipped: it keeps the length field cut to the size of the receive buffer
    and the crc field, and the payload bytes it has read are at the start of
    the receive buffer. *)
Lemma read_data_packet_split fp type w fp' w' :
  read_data_packet fp type w = (kStatus_Success, fp', w') ->
  exists garbage lenb crcb data,
    incoming (activePeripheral w)
    = garbage
      ++ [kFramingPacketStartByte; framing_type type]
      ++ lenb ++ crcb ++ data ++ incoming (activePeripheral w')
    /\ length lenb = 2%nat
    /\ length crcb = 2%nat
    /\ length data = Z.to_nat (received_length (halfword lenb))
    /\ fp' = mk_framing_data_packet
               (mk_framing_header kFramingPacketStartByte (framing_type type))
               (received_length (halfword lenb)) (halfword crcb)
    /\ bytes_from (sc_data (g_serialContext w')) 0
         (received_length (halfword lenb))
       = data.
Proof.
  unfold read_data_packet. intros H.
  destruct (read_header (header fp) w) as [[s1 h1] w1] eqn:Eh.
  destruct s1; cbn [is_success negb] in H; try discriminate.
  apply read_header_split in Eh. destruct Eh as (garbage & Hi & Hs & _).
  destruct (packetType h1 =? kFramingPacketType_Ping).
  { unfold serial_send_ping_response in H.
    destruct (_ || _) in H; [|discriminate].
    unfold byteInterface_write in H. discriminate. }
  fold (framing_type type) in H.
  destruct (packetType h1 =? framing_type type) eqn:Et; cbn [negb] in H;
    [|discriminate].
  apply Z.eqb_eq in Et.
  destruct h1 as [sb pt]. cbn [startByte packetType] in Hs, Et, Hi. subst sb pt.
  unfold read_length, read_crc16 in H.
  destruct (read_data 2 _ w1) as [[s2 b2] w2] eqn:E2.
  destruct s2; cbn [is_success negb] in H; try discriminate.
  apply read_data_split in E2; [|reflexivity].
  destruct E2 as (Hi2 & Hl2 & _).
  cbn [header dp_length dp_crc16] in H.
  fold (received_length (halfword b2)) in H.
  destruct (read_data 2 _ w2) as [[s3 b3] w3] eqn:E3.
  destruct s3; cbn [is_success negb] in H; try discriminate.
  apply read_data_split in E3; [|reflexivity].
  destruct E3 as (Hi3 & Hl3 & _).
  cbn [header dp_length dp_crc16] in H.
  exists garbage, b2, b3.
  destruct (0 <? received_length (halfword b2)) eqn:Epos.
  - destruct (read_data (received_length (halfword b2)) _ w3)
      as [[s4 b4] w4] eqn:E4.
    inversion H; subst s4 fp' w'. clear H.
    apply read_data_split in E4; [|reflexivity].
    destruct E4 as (Hi4 & Hl4 & _).
    exists b4. unfold with_context.
    cbn [activePeripheral g_serialContext sc_data set_sc_data].
    rewrite Hi, Hi2, Hi3, Hi4.
    split; [reflexivity|]. split; [exact Hl2|]. split; [exact Hl3|].
    split; [exact Hl4|]. split; [reflexivity|].
    rewrite memcpy_at_0. apply bytes_from_front. exact Hl4.
  - inversion H; subst fp' w'. clear H.
    apply Z.ltb_ge in Epos.
    exists []. rewrite Hi, Hi2, Hi3.
    split; [reflexivity|]. split; [exact Hl2|]. split; [exact Hl3|].
    assert (Hz : Z.to_nat (received_length (halfword b2)) = 0%nat) by lia.
    split; [rewrite Hz; reflexivity|].
    split; [reflexivity|].
    unfold bytes_from. rewrite Hz. reflexivity.
Qed.

(** The loop of [serial_packet_read] ends with success only behind a
    packet of the expected type whose crc field holds the crc the engine
    computes for it. *)
Lemma serial_packet_read_loop_split turns : forall fp type w fp' w',
  serial_packet_read_loop turns fp type w = Some (kStatus_Success, fp', w') ->
  exists skipped lenb crcb data,
    incoming (activePeripheral w)
    = skipped
      ++ [kFramingPacketStartByte; framing_type type]
      ++ lenb ++ crcb ++ data ++ incoming (activePeripheral w')
    /\ length lenb = 2%nat
    /\ length crcb = 2%nat
    /\ length data = Z.to_nat (received_length (halfword lenb))
    /\ halfword crcb = recomputed_crc (framing_type type) (halfword lenb) data
    /\ dp_length fp' = received_length (halfword lenb)
    /\ bytes_from (sc_data (g_serialContext w')) 0
         (received_length (halfword lenb))
       = data.
Proof.
  induction turns as [|turns IH]; intros fp type w fp' w' H; [discriminate|].
  cbn [serial_packet_read_loop] in H.
  destruct (read_data_packet fp type _) as [[st fp1] w1] eqn:Er.
  destruct st; cbn [is_success negb] in H; try discriminate.
  apply read_data_packet_split in Er.
  destruct Er as (garbage & lenb & crcb & data & Hi & Hl & Hc & Hd & Hfp & Hb).
  unfold with_context in Hi. cbn [activePeripheral] in Hi.
  destruct (dp_crc16 fp1 =? _) eqn:Ecrc; cbn [negb] in H.
  - inversion H; subst fp' w'. clear H.
    apply Z.eqb_eq in Ecrc.
    exists garbage, lenb, crcb, data.
    split; [exact Hi|]. split; [exact Hl|]. split; [exact Hc|].
    split; [exact Hd|]. split; [|split; [subst fp1; reflexivity|exact Hb]].
    rewrite Hfp in Ecrc. cbn [dp_crc16] in Ecrc. rewrite Ecrc.
    unfold calculate_framing_crc16, recomputed_crc. cbn [dp_length].
    rewrite Hb. reflexivity.
  - destruct (serial_packet_send_sync kFramingPacketType_Nak w1)
      as [st2 w2] eqn:Es.
    assert (Hi2 : incoming (activePeripheral w2) = incoming (activePeripheral w1)).
    { unfold serial_packet_send_sync, write_data, byteInterface_write,
        with_context in Es.
      inversion Es; subst. reflexivity. }
    apply IH in H.
    destruct H as (skipped & lenb2 & crcb2 & data2 & Hj & Hrest).
    rewrite Hi2 in Hj.
    exists (garbage ++ [kFramingPacketStartByte; framing_type type]
            ++ lenb ++ crcb ++ data ++ skipped), lenb2, crcb2, data2.
    split; [|exact Hrest].
    rewrite Hi, Hj. rewrite <- !app_assoc. reflexivity.
Qed.

Lemma send_deferred_ack_incoming w :
  incoming (activePeripheral (snd (send_deferred_ack w)))
  = incoming (activePeripheral w).
Proof.
  unfold send_deferred_ack, serial_packet_send_sync, write_data,
    byteInterface_write, with_context.
  destruct (isAckNeeded _); [reflexivity|].
  destruct (isAckAbortNeeded _); reflexivity.
Qed.

(** C5.  A packet of the expected type whose crc field differs from the
    crc the engine computes over the header without the crc field and the
    payload is answered with a Nak, and the read goes on inside the same
    call; the call returns with success on the packet whose crc field
    matches, hands back its payload and its length and sets the ack-needed
    flag.  The engine computes the crc over the length it keeps and the
    payload bytes it reads, which for a length field above the size of the
    receive buffer is that size and as many bytes.  And a call returns with
    success only in this way: on any input, what it has taken from the link
    then ends in a packet of the expected type whose crc field holds the crc
    computed over its start byte, its type, the length kept and the payload
    bytes read; these bytes and this length are what the call hands back,
    and the ack-needed flag is set. *)
Theorem serial_packet_read_crc_mismatch type bad len data c rest wr ws dl w2 :
  Forall (fun s => s = kStatus_Success) ws ->
  Forall (crc_rejected (framing_type type)) bad ->
  0 <= len < 65536 ->
  length data = Z.to_nat (received_length len) ->
  let ftype := framing_type type in
  let w :=
    mk_serial_world c
      (mk_link
         (received_packets ftype bad
          ++ received_packet ftype len (recomputed_crc ftype len data) data
          ++ rest)
         wr ws dl) in
  let r := serial_packet_read true true type w in
  let r2 := serial_packet_read true true type w2 in
  (read_status (fst r) = kStatus_Success
   /\ read_packetLength (fst r) = Some (received_length len)
   /\ (exists buffer,
         read_packet (fst r) = Some buffer
         /\ bytes_from buffer 0 (received_length len) = data)
   /\ written (activePeripheral (snd r))
      = wr ++ deferred_ack_sync c ++ repeat nak_sync (length bad)
   /\ incoming (activePeripheral (snd r)) = rest
   /\ isAckNeeded (g_serialContext (snd r)) = true)
  /\ (read_status (fst r2) = kStatus_Success ->
      exists skipped lenb crcb data2,
        incoming (activePeripheral w2)
        = skipped
          ++ [kFramingPacketStartByte; ftype]
          ++ lenb ++ crcb ++ data2 ++ incoming (activePeripheral (snd r2))
        /\ length lenb = 2%nat
        /\ length crcb = 2%nat
        /\ length data2 = Z.to_nat (received_length (halfword lenb))
        /\ halfword crcb = recomputed_crc ftype (halfword lenb) data2
        /\ read_packetLength (fst r2)
           = Some (received_length (halfword lenb))
        /\ (exists buffer,
              read_packet (fst r2) = Some buffer
              /\ bytes_from buffer 0 (received_length (halfword lenb)) = data2)
        /\ isAckNeeded (g_serialContext (snd r2)) = true).
Proof.
  intros Hws Hbad Hlen Hdata ftype w r r2. split.
  - subst r w ftype.
    destruct (serial_packet_read_received type bad len data c rest wr ws dl
                Hws Hbad Hlen Hdata) as (c' & E & Hack).
    rewrite E. cbn [fst snd read_status read_packet read_packetLength
                    activePeripheral written incoming g_serialContext].
    repeat split; auto.
    eexists. split; [reflexivity|]. apply bytes_from_front. exact Hdata.
  - subst r2 ftype. unfold serial_packet_read. cbn [negb orb].
    pose proof (send_deferred_ack_incoming
                  (with_context w2
                     (set_isBackToBackWrite (g_serialContext w2) false)))
      as Hinc.
    unfold with_context in Hinc at 2. cbn [activePeripheral] in Hinc.
    destruct (send_deferred_ack _) as [s1 w1].
    cbn [snd] in Hinc.
    destruct s1; cbn [is_success negb fst read_status]; try discriminate.
    destruct (serial_packet_read_loop _ _ type w1) as [[[s3 fp3] w3]|] eqn:El;
      [|cbn; discriminate].
    destruct s3; cbn [is_success negb fst read_status]; try discriminate.
    intros _. apply serial_packet_read_loop_split in El.
    destruct El as (skipped & lenb & crcb & data2 & Hi & Hl & Hc & Hd & Hcrc
                    & Hfp & Hb).
    exists skipped, lenb, crcb, data2.
    unfold with_context.
    cbn [fst snd read_packet read_packetLength activePeripheral g_serialContext
         sc_data set_isAckNeeded isAckNeeded].
    rewrite <- Hinc, Hi, Hfp.
    split; [reflexivity|]. split; [exact Hl|]. split; [exact Hc|].
    split; [exact Hd|]. split; [exact Hcrc|]. split; [reflexivity|].
    split; [|reflexivity].
    eexists. split; [reflexivity|exact Hb].
Qed.

(** C6.  A Command packet with an [n] byte payload and the right crc makes
    [serial_packet_read] return that payload and the length [n]; the
    [serial_packet_write] that follows it directly then transmits an Ack
    sync packet first and its own packet next. *)
Theorem serial_packet_read_then_write payload c rest wr ws dl payload2 type2 :
  Forall (fun s => s = kStatus_Success) ws ->
  Z.of_nat (length payload) <= kIncomingPacketBufferSize ->
  Z.of_nat (length payload2) <= kOutgoingPacketBufferSize ->
  let w :=
    mk_serial_world c
      (mk_link
         (wire_packet kFramingPacketType_Command
            (wire_packet_crc kFramingPacketType_Command payload) payload
          ++ rest)
         wr ws dl) in
  let r := serial_packet_read true true kPacketType_Command w in
  let r2 :=
    serial_packet_write (Some payload2) (Z.of_nat (length payload2)) type2
      (snd r) in
  read_status (fst r) = kStatus_Success
  /\ read_packetLength (fst r) = Some (Z.of_nat (length payload))
  /\ (exists data,
        read_packet (fst r) = Some data
        /\ bytes_from data 0 (Z.of_nat (length payload)) = payload)
  /\ exists more,
       written (activePeripheral (snd r2))
       = written (activePeripheral (snd r))
         ++ [kFramingPacketStartByte; kFramingPacketType_Ack]
         :: wire_packet (framing_type type2)
              (wire_packet_crc (framing_type type2) payload2) payload2
         :: more.
Proof.
  intros Hws Hlen Hlen2 w r r2.
  destruct (serial_packet_read_frames kPacketType_Command [] payload c rest
              wr ws dl Hws (Forall_nil _) Hlen) as (c' & E & Hack & F).
  cbn [wire_packets map concat app framing_type length repeat skipn] in E, F.
  subst r2 r w. rewrite E.
  cbn [fst snd read_status read_packet read_packetLength].
  repeat split; auto.
  - eexists. split; [reflexivity|]. apply bytes_from_prefix.
  - destruct (serial_packet_write_transmits payload2 type2 c' rest
                (wr ++ deferred_ack_sync c ++ [])
                (skipn (length (deferred_ack_sync c)) ws) dl F Hlen2)
      as (c2 & dl2 & E2 & _ & _).
    rewrite E2.
    match goal with
    | |- context [wait_for_ack_packet ?w0] =>
        destruct (wait_for_ack_packet_written w0) as [more Hm]
    end.
    rewrite Hm. cbn [activePeripheral written].
    replace (deferred_ack_sync c')
      with [[kFramingPacketStartByte; kFramingPacketType_Ack]]
      by (unfold deferred_ack_sync; rewrite Hack; reflexivity).
    exists more. rewrite <- !app_assoc. reflexivity.
Qed.

(** X17.  What [serial_packet_write] puts on the wire,
    [serial_packet_read] takes off it: the packet the sender transmits after
    its deferred acknowledgement, delivered to a receiver that reads the same
    packet type, is read with [kStatus_Success], the length of the payload
    and the payload itself, whatever the contexts of the two sides hold and
    whatever follows the packet.  The payload may be empty. *)
Theorem serial_packet_write_read_round_trip payload type
    c inc wr ws dl c2 rest wr2 ws2 dl2 :
  Forall (fun s => s = kStatus_Success) ws ->
  Forall (fun s => s = kStatus_Success) ws2 ->
  Z.of_nat (length payload) <= kOutgoingPacketBufferSize ->
  Z.of_nat (length payload) <= kIncomingPacketBufferSize ->
  let sender :=
    snd (serial_packet_write (Some payload) (Z.of_nat (length payload)) type
           (mk_serial_world c (mk_link inc wr ws dl))) in
  exists packet more,
    written (activePeripheral sender)
    = wr ++ deferred_ack_sync c ++ packet :: more
    /\ let r :=
         serial_packet_read true true type
           (mk_serial_world c2 (mk_link (packet ++ rest) wr2 ws2 dl2)) in
       read_status (fst r) = kStatus_Success
       /\ read_packetLength (fst r) = Some (Z.of_nat (length payload))
       /\ (exists data,
             read_packet (fst r) = Some data
             /\ bytes_from data 0 (Z.of_nat (length payload)) = payload)
       /\ incoming (activePeripheral (snd r)) = rest.
Proof.
  intros Hws Hws2 Hout Hin sender. subst sender.
  destruct (serial_packet_write_transmits payload type c inc wr ws dl Hws Hout)
    as (c1 & dl1 & E & _ & _).
  rewrite E. clear E.
  match goal with
  | |- context [wait_for_ack_packet ?w0] =>
      destruct (wait_for_ack_packet_written w0) as [more Hmore]
  end.
  cbn [activePeripheral written] in Hmore.
  eexists _, more. split.
  { rewrite Hmore. rewrite <- !app_assoc. cbn [app]. reflexivity. }
  destruct (serial_packet_read_frames type [] payload c2 rest wr2 ws2 dl2
              Hws2 (Forall_nil _) Hin) as (c' & E & _ & _).
  cbn [wire_packets map concat app] in E.
  cbv zeta. rewrite E. cbn [fst snd read_status read_packetLength read_packet
    activePeripheral incoming].
  split; [reflexivity|]. split; [reflexivity|]. split; [|reflexivity].
  eexists. split; [reflexivity|]. apply bytes_from_prefix.
Qed.

(** X18.  After a Command packet was read, [serial_packet_abort] makes
    the next [serial_packet_write] open with an AckAbort sync packet in
    place of the Ack, before its own packet. *)
Theorem serial_packet_abort_then_write payload c rest wr ws dl payload2 type2 :
  Forall (fun s => s = kStatus_Success) ws ->
  Z.of_nat (length payload) <= kIncomingPacketBufferSize ->
  Z.of_nat (length payload2) <= kOutgoingPacketBufferSize ->
  let w :=
    mk_serial_world c
      (mk_link
         (wire_packet kFramingPacketType_Command
            (wire_packet_crc kFramingPacketType_Command payload) payload
          ++ rest)
         wr ws dl) in
  let r := serial_packet_read true true kPacketType_Command w in
  exists aborted,
    serial_packet_abort (snd r) = Some aborted
    /\ let r2 :=
         serial_packet_write (Some payload2) (Z.of_nat (length payload2)) type2
           aborted in
       exists more,
         written (activePeripheral (snd r2))
         = written (activePeripheral (snd r))
           ++ [kFramingPacketStartByte; kFramingPacketType_AckAbort]
           :: wire_packet (framing_type type2)
                (wire_packet_crc (framing_type type2) payload2) payload2
           :: more.
Proof.
  intros Hws Hin Hout w r. subst r w.
  destruct (serial_packet_read_frames kPacketType_Command [] payload c rest
              wr ws dl Hws (Forall_nil _) Hin) as (c' & E & Hack & Hws').
  cbn [wire_packets map concat app framing_type] in E. rewrite E. clear E.
  cbn [snd length skipn repeat] in *.
  unfold serial_packet_abort. cbn [g_serialContext]. rewrite Hack.
  eexists. split; [reflexivity|]. cbv zeta. unfold with_context.
  cbn [activePeripheral].
  match goal with
  | |- context [serial_packet_write _ _ _ (mk_serial_world ?c0 (mk_link ?i ?w0 ?s ?d))] =>
      destruct (serial_packet_write_transmits payload2 type2 c0 i w0 s d
                  Hws' Hout) as (c1 & dl1 & E & _ & _)
  end.
  rewrite E. clear E.
  match goal with
  | |- context [wait_for_ack_packet ?w0] =>
      destruct (wait_for_ack_packet_written w0) as [more Hmore]
  end.
  cbn [activePeripheral written] in Hmore.
  exists more. rewrite Hmore. cbn [written].
  unfold deferred_ack_sync.
  cbn [isAckNeeded isAckAbortNeeded set_isAckNeeded set_isAckAbortNeeded].
  rewrite <- !app_assoc. reflexivity.
Qed.

(** X19.  After a Command packet was read, [serial_packet_finalize]
    sends the Ack and returns [kStatus_Success]; the
    [serial_packet_write] that follows opens with its own packet: the Ack
    goes out once. *)
Theorem serial_packet_finalize_then_write payload c rest wr ws dl
    payload2 type2 :
  Forall (fun s => s = kStatus_Success) ws ->
  one_ack_pending c ->
  Z.of_nat (length payload) <= kIncomingPacketBufferSize ->
  Z.of_nat (length payload2) <= kOutgoingPacketBufferSize ->
  let w :=
    mk_serial_world c
      (mk_link
         (wire_packet kFramingPacketType_Command
            (wire_packet_crc kFramingPacketType_Command payload) payload
          ++ rest)
         wr ws dl) in
  let r := serial_packet_read true true kPacketType_Command w in
  let finalized := serial_packet_finalize (snd r) in
  let r2 :=
    serial_packet_write (Some payload2) (Z.of_nat (length payload2)) type2
      (snd finalized) in
  fst finalized = kStatus_Success
  /\ written (activePeripheral (snd finalized))
     = written (activePeripheral (snd r))
       ++ [[kFramingPacketStartByte; kFramingPacketType_Ack]]
  /\ exists more,
       written (activePeripheral (snd r2))
       = written (activePeripheral (snd finalized))
         ++ wire_packet (framing_type type2)
              (wire_packet_crc (framing_type type2) payload2) payload2
         :: more.
Proof.
  intros Hws Hone Hin Hout w r finalized r2. subst r2 finalized r.
  pose proof (serial_packet_read_ack_flags kPacketType_Command w) as Hflags.
  cbv zeta in Hflags. destruct Hflags as (_ & Habort).
  subst w. cbn [g_serialContext] in Habort. unfold one_ack_pending in Hone.
  rewrite Hone in Habort.
  destruct (serial_packet_read_frames kPacketType_Command [] payload c rest
              wr ws dl Hws (Forall_nil _) Hin) as (c' & E & Hack & Hws').
  cbn [wire_packets map concat app framing_type] in E.
  rewrite E in Habort |- *. clear E.
  cbn [snd length skipn repeat g_serialContext] in *.
  unfold serial_packet_finalize.
  match goal with
  | |- context [send_deferred_ack (mk_serial_world ?c0 (mk_link ?i ?w0 ?s ?d))] =>
      destruct (send_deferred_ack_ok c0 i w0 s d Hws') as [E F]
  end.
  rewrite E. clear E. cbn [fst snd activePeripheral written].
  assert (Hsync : deferred_ack_sync c'
                  = [[kFramingPacketStartByte; kFramingPacketType_Ack]]).
  { unfold deferred_ack_sync. rewrite Hack. reflexivity. }
  assert (Hnone : deferred_ack_sync (after_deferred_ack c') = []).
  { unfold after_deferred_ack, deferred_ack_sync. rewrite Hack.
    cbn [isAckNeeded isAckAbortNeeded set_isBackToBackWrite set_isAckNeeded].
    rewrite Habort. reflexivity. }
  rewrite Hsync in F |- *. split; [reflexivity|]. split; [reflexivity|].
  match goal with
  | |- context [serial_packet_write _ _ _ (mk_serial_world ?c0 (mk_link ?i ?w0 ?s ?d))] =>
      destruct (serial_packet_write_transmits payload2 type2 c0 i w0 s d
                  F Hout) as (c1 & dl1 & E & _ & _)
  end.
  rewrite E. clear E.
  match goal with
  | |- context [wait_for_ack_packet ?w0] =>
      destruct (wait_for_ack_packet_written w0) as [more Hmore]
  end.
  cbn [activePeripheral written] in Hmore.
  exists more. rewrite Hmore, Hnone. cbn [app].
  rewrite <- !app_assoc. reflexivity.
Qed.

End DataPackets.

Section SyncPackets.

(** The codes of the three sync packets that answer a packet differ from
    one another. *)
Hypothesis Ack_not_Nak : kFramingPacketType_Ack <> kFramingPacketType_Nak.
Hypothesis Ack_not_AckAbort :
  kFramingPacketType_Ack <> kFramingPacketType_AckAbort.
Hypothesis Nak_not_AckAbort :
  kFramingPacketType_Nak <> kFramingPacketType_AckAbort.

Lemma wait_for_ack_packet_loop_naks k : forall turns c tail wr ws dl,
  Forall (fun s => s = kStatus_Success) ws ->
  wait_for_ack_packet_loop (k + turns)
    (mk_serial_world c (mk_link (nak_packets k ++ tail) wr ws dl))
  = wait_for_ack_packet_loop turns
      (mk_serial_world c
         (mk_link tail (wr ++ repeat (retransmission c) k) (skipn k ws) dl)).
Proof.
  induction k as [|k IH]; intros turns c tail wr ws dl Hws.
  - simpl. rewrite app_nil_r. reflexivity.
  - unfold nak_packets. cbn [repeat concat app plus wait_for_ack_packet_loop].
    rewrite read_header_found. cbn [is_success negb packetType].
    rewrite Z.eqb_refl.
    replace (kFramingPacketType_Nak =? kFramingPacketType_AckAbort) with false
      by (symmetry; apply Z.eqb_neq; exact Nak_not_AckAbort).
    cbn [negb]. rewrite Bool.andb_false_r. cbn [andb g_serialContext].
    destruct (write_data_ok (retransmission c) c
                (concat (repeat [kFramingPacketStartByte; kFramingPacketType_Nak] k)
                 ++ tail) wr ws dl Hws) as [E F].
    unfold retransmission in E at 1. rewrite E. cbn [is_success negb].
    fold (nak_packets k). rewrite IH by exact F.
    rewrite <- app_assoc. cbn [app repeat].
    replace (retransmission c :: repeat (retransmission c) k)
      with (repeat (retransmission c) k ++ [retransmission c]).
    2:{ change (retransmission c :: repeat (retransmission c) k)
          with (repeat (retransmission c) (S k)).
        rewrite <- repeat_cons. reflexivity. }
    destruct ws; simpl; [rewrite skipn_nil|]; reflexivity.
Qed.

(** After [k] Naks the peer's Ack ends the wait with success and its
    AckAbort with [kStatus_AbortDataPhase]; the engine has sent the retained
    packet [k] more times and nothing else. *)
Lemma wait_for_ack_packet_naks_then k t c rest wr ws dl :
  Forall (fun s => s = kStatus_Success) ws ->
  t = kFramingPacketType_Ack \/ t = kFramingPacketType_AckAbort ->
  wait_for_ack_packet
    (mk_serial_world c
       (mk_link (nak_packets k ++ kFramingPacketStartByte :: t :: rest) wr ws dl))
  = (if t =? kFramingPacketType_AckAbort then kStatus_AbortDataPhase
     else kStatus_Success,
     mk_serial_world c
       (mk_link rest (wr ++ repeat (retransmission c) k) (skipn k ws) dl)).
Proof.
  intros Hws Ht. apply wait_for_ack_packet_eq with (turns := (k + 1)%nat).
  rewrite wait_for_ack_packet_loop_naks by exact Hws.
  cbn [wait_for_ack_packet_loop]. rewrite read_header_found.
  cbn [is_success negb packetType].
  destruct Ht as [-> | ->].
  - rewrite Z.eqb_refl. cbn [negb andb].
    replace (kFramingPacketType_Ack =? kFramingPacketType_AckAbort) with false
      by (symmetry; apply Z.eqb_neq; exact Ack_not_AckAbort).
    replace (kFramingPacketType_Ack =? kFramingPacketType_Nak) with false
      by (symmetry; apply Z.eqb_neq; exact Ack_not_Nak).
    reflexivity.
  - rewrite Z.eqb_refl. cbn [negb andb].
    rewrite Bool.andb_false_r. reflexivity.
Qed.

(** C2.  The peer answers the packet with Nak on each of the attempts
    before the last and with Ack on the last of [attempts] attempts:
    [serial_packet_write] transmits the same bytes, those of the packet it
    retains, [attempts] times
    (after the deferred acknowledgement, if one was due) and returns
    [kStatus_Success]. *)
Theorem serial_packet_write_nak_retry payload type c rest wr ws dl (attempts : nat) :
  (1 <= attempts)%nat ->
  Forall (fun s => s = kStatus_Success) ws ->
  Z.of_nat (length payload) <= kOutgoingPacketBufferSize ->
  let packet :=
    wire_packet (framing_type type)
      (wire_packet_crc (framing_type type) payload) payload in
  let w :=
    mk_serial_world c
      (mk_link
         (nak_packets (attempts - 1)
          ++ kFramingPacketStartByte :: kFramingPacketType_Ack :: rest)
         wr ws dl) in
  let r := serial_packet_write (Some payload) (Z.of_nat (length payload)) type w in
  fst r = kStatus_Success
  /\ written (activePeripheral (snd r))
     = wr ++ deferred_ack_sync c ++ repeat packet attempts
  /\ retransmission (g_serialContext (snd r)) = packet
  /\ incoming (activePeripheral (snd r)) = rest.
Proof.
  intros Hattempts Hws Hlen packet w r. subst r w.
  destruct (serial_packet_write_transmits payload type c
              (nak_packets (attempts - 1)
               ++ kFramingPacketStartByte :: kFramingPacketType_Ack :: rest)
              wr ws dl Hws Hlen) as (c2 & dl2 & E & Hre & F).
  fold packet in E, Hre. rewrite E.
  rewrite wait_for_ack_packet_naks_then by auto.
  replace (kFramingPacketType_Ack =? kFramingPacketType_AckAbort) with false
    by (symmetry; apply Z.eqb_neq; exact Ack_not_AckAbort).
  cbn [fst snd activePeripheral written incoming g_serialContext].
  rewrite Hre. repeat split.
  rewrite <- !app_assoc. do 2 f_equal.
  replace attempts with (S (attempts - 1)) at 2 by lia. reflexivity.
Qed.

(** C7.  The peer answers with AckAbort (after [k] Naks, [k] being 0 when
    the AckAbort comes in place of the first Ack): [serial_packet_write]
    returns [kStatus_AbortDataPhase]; the packet went out once for the first
    attempt and once for each Nak, and not again after the AckAbort, which is
    the last thing the call reads. *)
Theorem serial_packet_write_ack_abort payload type c rest wr ws dl (k : nat) :
  Forall (fun s => s = kStatus_Success) ws ->
  Z.of_nat (length payload) <= kOutgoingPacketBufferSize ->
  let packet :=
    wire_packet (framing_type type)
      (wire_packet_crc (framing_type type) payload) payload in
  let w :=
    mk_serial_world c
      (mk_link
         (nak_packets k
          ++ kFramingPacketStartByte :: kFramingPacketType_AckAbort :: rest)
         wr ws dl) in
  let r := serial_packet_write (Some payload) (Z.of_nat (length payload)) type w in
  fst r = kStatus_AbortDataPhase
  /\ written (activePeripheral (snd r))
     = wr ++ deferred_ack_sync c ++ repeat packet (S k)
  /\ incoming (activePeripheral (snd r)) = rest.
Proof.
  intros Hws Hlen packet w r. subst r w.
  destruct (serial_packet_write_transmits payload type c
              (nak_packets k
               ++ kFramingPacketStartByte :: kFramingPacketType_AckAbort :: rest)
              wr ws dl Hws Hlen) as (c2 & dl2 & E & Hre & F).
  fold packet in E, Hre. rewrite E.
  rewrite wait_for_ack_packet_naks_then by auto.
  rewrite Z.eqb_refl.
  cbn [fst snd activePeripheral written incoming g_serialContext].
  rewrite Hre. repeat split.
  rewrite <- !app_assoc. reflexivity.
Qed.

(** The wait for the answer when the Ack comes at once. *)
Ltac answered :=
  match goal with
  | |- context [wait_for_ack_packet
                  (mk_serial_world ?c0 (mk_link (_ :: _ :: ?r0) ?w0 ?s0 ?d0))] =>
      let Ew := fresh "Ew" in
      pose proof (wait_for_ack_packet_naks_then 0 kFramingPacketType_Ack
                    c0 r0 w0 s0 d0) as Ew;
      change (nak_packets 0
              ++ kFramingPacketStartByte :: kFramingPacketType_Ack :: r0)
        with (kFramingPacketStartByte :: kFramingPacketType_Ack :: r0) in Ew;
      change (skipn 0 s0) with s0 in Ew;
      change (repeat (retransmission c0) 0) with (@nil (list Z)) in Ew;
      rewrite Ew;
      [clear Ew
      |repeat apply Forall_skipn_keeps; assumption
      |left; reflexivity]
  end.

(** X20.  [serial_packet_write] makes its delay of 100 ms exactly when a
    sync packet went out since the last read or packet: when the
    back-to-back flag was set, or when the write has just sent a deferred
    acknowledgement itself.  It leaves the flag clear, so a packet that
    directly follows an acknowledged packet goes out without a delay. *)
Theorem serial_packet_write_delay payload type payload2 type2 c rest wr ws dl :
  Forall (fun s => s = kStatus_Success) ws ->
  one_ack_pending c ->
  Z.of_nat (length payload) <= kOutgoingPacketBufferSize ->
  Z.of_nat (length payload2) <= kOutgoingPacketBufferSize ->
  let w :=
    mk_serial_world c
      (mk_link
         (kFramingPacketStartByte :: kFramingPacketType_Ack
          :: kFramingPacketStartByte :: kFramingPacketType_Ack :: rest)
         wr ws dl) in
  let r := serial_packet_write (Some payload) (Z.of_nat (length payload)) type w in
  let r2 :=
    serial_packet_write (Some payload2) (Z.of_nat (length payload2)) type2
      (snd r) in
  fst r = kStatus_Success
  /\ delays (activePeripheral (snd r))
     = dl ++ (if isAckNeeded c || isAckAbortNeeded c || isBackToBackWrite c
              then [100] else [])
  /\ isBackToBackWrite (g_serialContext (snd r)) = false
  /\ fst r2 = kStatus_Success
  /\ delays (activePeripheral (snd r2)) = delays (activePeripheral (snd r))
  /\ incoming (activePeripheral (snd r2)) = rest.
Proof.
  intros Hws Hone Hlen Hlen2 w r r2. subst r2 r w.
  assert (Hhd : forall l, Forall (fun s => s = kStatus_Success) l ->
                  is_success (hd kStatus_Success l) = true).
  { intros l H. destruct l; [reflexivity|]. inversion H; subst. reflexivity. }
  assert (Hne : (kFramingPacketType_Ack =? kFramingPacketType_AckAbort) = false)
    by (apply Z.eqb_neq; exact Ack_not_AckAbort).
  destruct (serial_packet_write_prepared payload type c
              (kFramingPacketStartByte :: kFramingPacketType_Ack
               :: kFramingPacketStartByte :: kFramingPacketType_Ack :: rest)
              wr ws dl)
    as (c2 & E & _ & Hb & Ha & Hab);
    [apply Forall_firstn_keeps; exact Hws|exact Hlen|].
  cbv zeta in E. rewrite E. clear E.
  rewrite Hhd by (apply Forall_skipn_keeps; exact Hws).
  assert (Hws2 : Forall (fun s => s = kStatus_Success)
                   (skipn (S (length (deferred_ack_sync c))) ws))
    by (apply Forall_skipn_keeps; exact Hws).
  set (ws2 := skipn (S (length (deferred_ack_sync c))) ws) in *.
  clearbody ws2.
  answered. rewrite Hne. cbn [fst snd activePeripheral delays g_serialContext].
  split; [reflexivity|]. split; [reflexivity|]. split; [exact Hb|].
  unfold one_ack_pending in Hone. rewrite Hone in Hab.
  assert (Hnone : deferred_ack_sync c2 = []).
  { unfold deferred_ack_sync. rewrite Ha, Hab. reflexivity. }
  match goal with
  | |- context [serial_packet_write _ _ _ (mk_serial_world c2 (mk_link ?i ?w0 ?s ?d))] =>
      destruct (serial_packet_write_prepared payload2 type2 c2 i w0 s d)
        as (c3 & E & _ & _ & _ & _);
        [rewrite Hnone; constructor|exact Hlen2|]
  end.
  cbv zeta in E. rewrite E. clear E.
  rewrite Hnone. cbn [length skipn repeat]. rewrite Ha, Hab, Hb. cbn [orb].
  rewrite Hhd by exact Hws2.
  assert (Hws3 : Forall (fun s => s = kStatus_Success) (skipn 1 ws2))
    by (apply Forall_skipn_keeps; exact Hws2).
  cbn [skipn] in Hws3.
  answered. rewrite Hne. cbn [fst snd activePeripheral delays incoming].
  rewrite !app_nil_r. auto.
Qed.

End SyncPackets.

End OutgoingBuffer.

End StartByteScan.

(** ** The LED driver in the [Initialized] phase *)

Section LedConvergence.

(** A chunk is not empty and not longer than the table, and the cursor
    arithmetic stays inside a [uint8_t]. *)
Hypothesis chunk_positive : 0 < PMW_REGISTER_UPDATE_CHUNK_SIZE.
Hypothesis chunk_fits : PMW_REGISTER_UPDATE_CHUNK_SIZE <= LED_DRIVER_LED_COUNT.
Hypothesis cursor_uint8 :
  LED_DRIVER_LED_COUNT + PMW_REGISTER_UPDATE_CHUNK_SIZE <= 256.

(** Every transmitting update uses up one chunk of one of the two
    budgets: [k1] chunks for the LEDs from [b] to the end of the table, [k2]
    chunks for those between [lo] and [s]. *)
Lemma led_step_progress d d' index index' start len lo s b k1 k2 :
  cursor_inv d index lo s b ->
  led_step d d' index index' start len ->
  LED_DRIVER_LED_COUNT - b <= k1 * PMW_REGISTER_UPDATE_CHUNK_SIZE ->
  s - lo <= k2 * PMW_REGISTER_UPDATE_CHUNK_SIZE ->
  0 <= k1 -> 0 <= k2 ->
  exists lo' b' k1' k2',
    cursor_inv d' index' lo' s b'
    /\ LED_DRIVER_LED_COUNT - b' <= k1' * PMW_REGISTER_UPDATE_CHUNK_SIZE
    /\ s - lo' <= k2' * PMW_REGISTER_UPDATE_CHUNK_SIZE
    /\ 0 <= k1' /\ 0 <= k2' /\ k1' + k2' + 1 <= k1 + k2.
Proof.
  intros (Hidx & Hlo & Hs & Hb & Hclo & Hcsb & Hpos)
         (Hstart & Hlen & Hend & Hd & Hfirst & Hwin & Hle & Hidx') Hk1 Hk2 Hk1p Hk2p.
  set (wend := Z.min (start + CHUNK) LEDS) in *.
  assert (Hidx'r : 0 <= index' < LEDS).
  { rewrite Hidx'. destruct (LEDS <=? index + len) eqn:E; [lia|].
    apply Z.leb_gt in E. lia. }
  assert (Hs0' : (scan_start index <= start -> scan_start index' <= wend)
                 /\ (index' <> 0 -> scan_start index <= scan_start index')
                 /\ (index' = 0 -> scan_start index' = 0)
                 /\ (scan_start index <= start -> index' = 0 -> wend = LEDS)).
  { unfold scan_start in *. rewrite Hidx'.
    destruct (LEDS <=? index + len) eqn:E;
      [apply Z.leb_le in E|apply Z.leb_gt in E]; subst wend; lia. }
  destruct Hs0' as (Hs0w & Hs0m & Hs0z & Hs0n).
  assert (Hstart_lo : lo <= start).
  { destruct (clean_not d 0 lo start Hclo Hd); lia. }
  destruct Hfirst as [[Hge Hcl] | (Hlt & Hcl1 & Hcl2)];
    destruct Hpos as [Hin | [HbN Hs0lo]].
  - (* found ahead of the scan start, which lies in the second stretch *)
    assert (Hstart_b : b <= start).
    { destruct (clean_not d s b start Hcsb Hd); lia. }
    destruct (budget_step k1 CHUNK (LEDS - b) chunk_positive Hk1p ltac:(lia) Hk1)
      as (Hk1pos & Hk1c & Hk1e).
    exists lo, wend, (k1 - 1), k2.
    assert (Hbud : LEDS - wend <= (k1 - 1) * CHUNK).
    { subst wend. rewrite Hk1e.
      destruct (Z_le_gt_dec (start + CHUNK) LEDS);
        [rewrite Z.min_l by lia|rewrite Z.min_r by lia]; lia. }
    split; [|lia].
    unfold cursor_inv.
    split; [exact Hidx'r|]. split; [lia|]. split; [subst wend; lia|].
    split; [subst wend; lia|].
    split; [apply (clean_weaken d); assumption|].
    split.
    + apply clean_join with (b := start); [|exact Hwin].
      apply (clean_weaken d); [assumption|].
      apply clean_join with (b := b); [exact Hcsb|].
      apply clean_sub with (a := scan_start index) (b := start);
        [exact Hcl|lia|lia].
    + destruct (Z.eq_dec index' 0) as [E0|E0].
      * right. split; [apply Hs0n; assumption|rewrite Hs0z by exact E0; lia].
      * left. specialize (Hs0m E0). specialize (Hs0w Hge). lia.
  - (* found ahead of the scan start, which lies in the first stretch *)
    subst b.
    assert (Hstart_s : start < s).
    { destruct (clean_not d s LEDS start Hcsb Hd); lia. }
    destruct (budget_step k2 CHUNK (s - lo) chunk_positive Hk2p ltac:(lia) Hk2)
      as (Hk2pos & Hk2c & Hk2e).
    exists wend, LEDS, k1, (k2 - 1).
    assert (Hbud : s - wend <= (k2 - 1) * CHUNK).
    { subst wend. rewrite Hk2e.
      destruct (Z_le_gt_dec (start + CHUNK) LEDS);
        [rewrite Z.min_l by lia|rewrite Z.min_r by lia]; lia. }
    split; [|lia].
    unfold cursor_inv.
    split; [exact Hidx'r|]. split; [subst wend; lia|]. split; [lia|].
    split; [lia|].
    split.
    + apply clean_join with (b := start); [|exact Hwin].
      apply (clean_weaken d); [assumption|].
      apply clean_join with (b := lo); [exact Hclo|].
      apply clean_sub with (a := scan_start index) (b := start);
        [exact Hcl|lia|lia].
    + split; [apply (clean_weaken d); assumption|].
      right. split; [reflexivity|exact (Hs0w Hge)].
  - (* found after wrapping around, the scan start in the second stretch *)
    assert (HcsN : clean d s LEDS).
    { apply clean_join with (b := scan_start index).
      - apply clean_sub with (a := s) (b := b); [exact Hcsb|lia|lia].
      - exact Hcl1. }
    assert (Hstart_s : start < s).
    { destruct (clean_not d s LEDS start HcsN Hd); lia. }
    destruct (budget_step k2 CHUNK (s - lo) chunk_positive Hk2p ltac:(lia) Hk2)
      as (Hk2pos & Hk2c & Hk2e).
    exists wend, LEDS, 0, (k2 - 1).
    assert (Hbud : s - wend <= (k2 - 1) * CHUNK).
    { subst wend. rewrite Hk2e.
      destruct (Z_le_gt_dec (start + CHUNK) LEDS);
        [rewrite Z.min_l by lia|rewrite Z.min_r by lia]; lia. }
    split; [|lia].
    unfold cursor_inv.
    split; [exact Hidx'r|]. split; [subst wend; lia|]. split; [lia|].
    split; [lia|].
    split.
    + apply clean_join with (b := start); [|exact Hwin].
      apply (clean_weaken d); assumption.
    + split; [apply (clean_weaken d); assumption|].
      destruct (Z.eq_dec index' 0) as [E0|E0].
      * right. split; [reflexivity|rewrite Hs0z by exact E0; subst wend; lia].
      * left. specialize (Hs0m E0). unfold scan_start in *. lia.
  - (* found after wrapping around, the scan start in the first stretch:
       the LED found would lie in the settled first stretch *)
    exfalso. destruct (clean_not d 0 lo start Hclo Hd); lia.
Qed.

(** The scan of [n] LEDs from [s] that does not reach the end of the
    table. *)
Lemma find_start_index_linear source target n : forall s,
  0 <= s -> s + Z.of_nat n <= LEDS ->
  match find_start_index source target n s with
  | Some p =>
      s <= p < s + Z.of_nat n
      /\ led_differs source target p = true
      /\ clean (led_differs source target) s p
  | None => clean (led_differs source target) s (s + Z.of_nat n)
  end.
Proof.
  induction n as [|n IH]; intros s Hs Hn.
  - simpl. intros i Hi. lia.
  - cbn [find_start_index].
    destruct (led_differs source target s) eqn:Ed.
    + split; [lia|]. split; [exact Ed|]. intros i Hi. lia.
    + destruct n as [|n'].
      * simpl. intros i Hi. assert (i = s) by lia. subst i. exact Ed.
      * rewrite u8_small by lia.
        replace (LEDS <=? s + 1) with false by (symmetry; apply Z.leb_gt; lia).
        specialize (IH (s + 1) ltac:(lia) ltac:(lia)).
        destruct (find_start_index source target (S n') (s + 1)) as [p|].
        -- destruct IH as (Hp & Hdp & Hc). split; [lia|]. split; [exact Hdp|].
           intros i Hi. destruct (Z.eq_dec i s) as [->|]; [exact Ed|].
           apply Hc. lia.
        -- intros i Hi. destruct (Z.eq_dec i s) as [->|]; [exact Ed|].
           apply IH. lia.
Qed.

(** A scan that reaches the end of the table goes on at LED 0. *)
Lemma find_start_index_wrap source target n2 n1 : forall s,
  0 <= s -> (1 <= n1)%nat -> s + Z.of_nat n1 = LEDS ->
  find_start_index source target (n1 + n2) s
  = match find_start_index source target n1 s with
    | Some p => Some p
    | None => find_start_index source target n2 0
    end.
Proof.
  induction n1 as [|n1 IH]; intros s Hs H1 Hn; [lia|].
  cbn [plus find_start_index].
  destruct (led_differs source target s); [reflexivity|].
  rewrite u8_small by lia.
  destruct n1 as [|n1'].
  - replace (LEDS <=? s + 1) with true by (symmetry; apply Z.leb_le; lia).
    reflexivity.
  - replace (LEDS <=? s + 1) with false by (symmetry; apply Z.leb_gt; lia).
    apply IH; lia.
Qed.

(** The whole scan: the first differing LED in circular order from
    [s0], if any LED differs. *)
Lemma find_start_index_first source target s0 :
  0 <= s0 < LEDS ->
  match find_start_index source target (Z.to_nat LEDS) s0 with
  | Some p =>
      0 <= p < LEDS
      /\ led_differs source target p = true
      /\ ((s0 <= p /\ clean (led_differs source target) s0 p)
          \/ (p < s0
              /\ clean (led_differs source target) s0 LEDS
              /\ clean (led_differs source target) 0 p))
  | None => clean (led_differs source target) 0 LEDS
  end.
Proof.
  intros Hs0.
  replace (Z.to_nat LEDS) with (Z.to_nat (LEDS - s0) + Z.to_nat s0)%nat by lia.
  rewrite find_start_index_wrap by lia.
  pose proof (find_start_index_linear source target (Z.to_nat (LEDS - s0)) s0
                ltac:(lia) ltac:(lia)) as H1.
  destruct (find_start_index source target (Z.to_nat (LEDS - s0)) s0) as [p|].
  - destruct H1 as (Hp & Hd & Hc). split; [lia|]. split; [exact Hd|].
    left. split; [lia|exact Hc].
  - pose proof (find_start_index_linear source target (Z.to_nat s0) 0
                  ltac:(lia) ltac:(lia)) as H2.
    replace (s0 + Z.of_nat (Z.to_nat (LEDS - s0))) with LEDS in H1 by lia.
    destruct (find_start_index source target (Z.to_nat s0) 0) as [p|].
    + destruct H2 as (Hp & Hd & Hc). split; [lia|]. split; [exact Hd|].
      right. split; [lia|]. split; [exact H1|exact Hc].
    + apply clean_join with (b := s0); [|exact H1].
      replace (0 + Z.of_nat (Z.to_nat s0)) with s0 in H2 by lia. exact H2.
Qed.

(** The second loop returns the last differing LED of the window, or
    the LED it was started with when none differs. *)
Lemma find_end_index_last source target n : forall index e,
  0 <= index -> index + Z.of_nat n <= 255 ->
  let r := find_end_index source target n index e in
  (r = e \/ (index <= r < index + Z.of_nat n
             /\ led_differs source target r = true))
  /\ (forall i, index <= i < index + Z.of_nat n -> r < i ->
      led_differs source target i = false).
Proof.
  induction n as [|n IH]; intros index e Hi Hn r.
  - subst r. simpl. split; [auto|]. intros i H. lia.
  - subst r. cbn [find_end_index]. rewrite u8_small by lia.
    specialize (IH (index + 1)
                  (if led_differs source target index then index else e)
                  ltac:(lia) ltac:(lia)).
    cbv zeta in IH.
    set (r := find_end_index source target n (index + 1) _) in *.
    destruct IH as [Hr Hc]. split.
    + destruct Hr as [Hr | [Hr Hd]].
      * destruct (led_differs source target index) eqn:Ed; [|auto].
        right. split; [lia|]. rewrite Hr. exact Ed.
      * right. split; [lia|exact Hd].
    + intros i Hi2 Hlt. destruct (Z.eq_dec i index) as [->|Hne].
      * destruct (led_differs source target index) eqn:Ed; [|reflexivity].
        destruct Hr as [Hr | [Hr Hd]]; lia.
      * apply Hc; lia.
Qed.

(** One update in the [Initialized] phase: either no LED differs and
    nothing is transmitted, or the update is a [led_step] that transmits the
    register address and the run. *)
Lemma LedSlaveDriver_Update_Initialized id fw :
  let st := LedDriverStates fw id in
  let fw' := LedSlaveDriver_Update id fw in
  let st' := LedDriverStates fw' id in
  let d := led_differs (sourceLedValues st) (targetLedValues st) in
  let d' := led_differs (sourceLedValues st') (targetLedValues st') in
  led_tables_ok st ->
  led_tables_ok st'
  /\ sourceLedValues st' = sourceLedValues st
  /\ i2cAddress st' = i2cAddress st
  /\ ((clean d 0 LEDS
       /\ targetLedValues st' = targetLedValues st
       /\ i2c_log fw' = i2c_log fw)
      \/ (exists start len,
            led_step d d' (ledIndex st) (ledIndex st') start len
            /\ i2c_log fw'
               = i2c_log fw
                 ++ [I2cAsyncWrite (i2cAddress st)
                       (u8 (FRAME_REGISTER_PWM_FIRST + start)
                        :: bytes_from (sourceLedValues st) start len)])).
Proof.
  intros st fw' st' d d' (Hph & Hsrc & Htgt & Hidx).
  subst d' st' fw'. unfold LedSlaveDriver_Update. fold st. rewrite Hph.
  rewrite (u8_small (LEDS - CHUNK)) by lia.
  replace (if LEDS - CHUNK <? ledIndex st then LEDS - CHUNK else ledIndex st)
    with (scan_start (ledIndex st)).
  2:{ unfold scan_start. destruct (LEDS - CHUNK <? ledIndex st) eqn:E;
        [apply Z.ltb_lt in E|apply Z.ltb_ge in E]; lia. }
  assert (Hs0 : 0 <= scan_start (ledIndex st) < LEDS)
    by (unfold scan_start; lia).
  pose proof (find_start_index_first (sourceLedValues st) (targetLedValues st)
                (scan_start (ledIndex st)) Hs0) as Hfirst.
  fold d in Hfirst.
  destruct (find_start_index (sourceLedValues st) (targetLedValues st)
              (Z.to_nat LEDS) (scan_start (ledIndex st))) as [start|].
  - destruct Hfirst as (Hstart & Hdstart & Hwhere).
    set (maxChunk := Z.min (LEDS - start) CHUNK).
    assert (Hmc : 1 <= maxChunk <= CHUNK /\ start + maxChunk <= LEDS)
      by (subst maxChunk; lia).
    rewrite (u8_small maxChunk) by lia.
    rewrite (u8_small (start + maxChunk - 1)) by lia.
    replace (Z.to_nat (start + maxChunk - 1 - start + 1))
      with (Z.to_nat maxChunk) by lia.
    pose proof (find_end_index_last (sourceLedValues st) (targetLedValues st)
                  (Z.to_nat maxChunk) start start ltac:(lia) ltac:(lia))
      as Hend.
    cbv zeta in Hend. fold d in Hend.
    set (e := find_end_index (sourceLedValues st) (targetLedValues st)
                (Z.to_nat maxChunk) start start) in *.
    destruct Hend as [He Hafter].
    assert (Her : start <= e < start + maxChunk /\ d e = true).
    { destruct He as [-> | [He Hde]]; [split; [lia|exact Hdstart]|].
      split; [lia|exact Hde]. }
    destruct Her as [Her Hde].
    set (len := e - start + 1).
    assert (Hlen : 1 <= len <= maxChunk) by (subst len; lia).
    rewrite (u8_small len) by lia.
    rewrite (u8_small (ledIndex st + len)) by lia.
    pose proof (length_bytes_from (sourceLedValues st) start len
                  ltac:(lia) ltac:(lia) ltac:(lia)) as Hrun.
    unfold led_tables_ok, set_LedDriverState, issue.
    cbn [LedDriverStates i2c_log].
    rewrite !store_same. unfold set_ledIndex, set_targetLedValues.
    cbn [phase sourceLedValues targetLedValues ledIndex i2cAddress].
    assert (Hd' : forall i, 0 <= i ->
      led_differs (sourceLedValues st)
        (memcpy_at (targetLedValues st) start
           (bytes_from (sourceLedValues st) start len)) i
      = if (start <=? i) && (i <? start + len) then false else d i).
    { intros i Hi. unfold led_differs at 1.
      rewrite byte_at_memcpy_at by lia.
      destruct ((start <=? i) && (i <? start + len));
        [rewrite Z.eqb_refl|]; reflexivity. }
    split; [|split; [reflexivity|split; [reflexivity|right]]].
    + split; [exact Hph|]. split; [exact Hsrc|].
      split; [rewrite length_memcpy_at by lia; exact Htgt|].
      destruct (LEDS <=? ledIndex st + len) eqn:E; [lia|].
      apply Z.leb_gt in E. lia.
    + exists start, len. split.
      * unfold led_step.
        split; [exact Hstart|]. split; [lia|]. split; [lia|].
        split; [exact Hdstart|]. split; [exact Hwhere|].
        split; [|split; [|reflexivity]].
        -- intros i Hi. rewrite Hd' by lia.
           destruct ((start <=? i) && (i <? start + len)) eqn:Ein;
             [reflexivity|].
           apply Hafter; [subst maxChunk; lia|].
           apply Bool.andb_false_iff in Ein.
           destruct Ein as [Ein|Ein];
             [apply Z.leb_gt in Ein|apply Z.ltb_ge in Ein]; subst len; lia.
        -- intros i.
           destruct (Z_lt_ge_dec i 0) as [Hneg|Hpos].
           ++ rewrite (led_differs_negative _ _ i Hneg). subst d.
              rewrite (led_differs_negative _ (targetLedValues st) i Hneg).
              rewrite Hd' by lia.
              destruct ((start <=? 0) && (0 <? start + len));
                [discriminate|auto].
           ++ rewrite Hd' by lia.
              destruct ((start <=? i) && (i <? start + len));
                [discriminate|auto].
      * f_equal. f_equal. f_equal.
        change (u8 (FRAME_REGISTER_PWM_FIRST + start)
                :: bytes_from (sourceLedValues st) start len)
          with ([u8 (FRAME_REGISTER_PWM_FIRST + start)]
                ++ bytes_from (sourceLedValues st) start len).
        unfold bytes_from at 1. cbn [Z.to_nat skipn].
        apply firstn_all2. rewrite length_app. cbn [length]. lia.
  - unfold led_tables_ok, set_LedDriverState. cbn [LedDriverStates i2c_log].
    rewrite !store_same. unfold set_ledIndex.
    cbn [phase sourceLedValues targetLedValues ledIndex i2cAddress].
    split; [|split; [reflexivity|split; [reflexivity|left]]].
    + split; [exact Hph|]. split; [exact Hsrc|]. split; [exact Htgt|lia].
    + split; [exact Hfirst|]. split; reflexivity.
Qed.

Lemma clean_tables_equal source target :
  Z.of_nat (length source) = LEDS ->
  Z.of_nat (length target) = LEDS ->
  clean (led_differs source target) 0 LEDS ->
  target = source.
Proof.
  intros Hs Ht Hc. apply nth_ext with (d := 0) (d' := 0); [lia|].
  intros n Hn. specialize (Hc (Z.of_nat n) ltac:(lia)).
  unfold led_differs, byte_at in Hc. rewrite Nat2Z.id in Hc.
  apply Bool.negb_false_iff, Z.eqb_eq in Hc. congruence.
Qed.

(** With [k1 + k2] chunks of budget left, [k] further updates with
    [k1 + k2 <= k] settle every LED. *)
Lemma led_updates_settle id k : forall fw lo s b k1 k2,
  let st := LedDriverStates fw id in
  let st' := LedDriverStates (led_updates k id fw) id in
  led_tables_ok st ->
  cursor_inv (led_differs (sourceLedValues st) (targetLedValues st))
    (ledIndex st) lo s b ->
  LEDS - b <= k1 * CHUNK -> s - lo <= k2 * CHUNK -> 0 <= k1 -> 0 <= k2 ->
  k1 + k2 <= Z.of_nat k ->
  led_tables_ok st'
  /\ sourceLedValues st' = sourceLedValues st
  /\ clean (led_differs (sourceLedValues st') (targetLedValues st')) 0 LEDS.
Proof.
  induction k as [|k IH]; intros fw lo s b k1 k2 st st' Hok Hinv Hk1 Hk2 H1 H2 Hk.
  - subst st'. cbn [led_updates]. fold st.
    split; [exact Hok|]. split; [reflexivity|].
    destruct Hinv as (_ & _ & Hs & Hb & Hclo & Hcsb & _).
    assert (k1 = 0) by lia. assert (k2 = 0) by lia. subst k1 k2.
    apply clean_join with (b := lo); [exact Hclo|].
    apply clean_sub with (a := s) (b := b); [exact Hcsb|lia|lia].
  - subst st'. rewrite led_updates_first.
    pose proof (LedSlaveDriver_Update_Initialized id fw Hok) as Hstep.
    cbv zeta in Hstep. fold st in Hstep.
    destruct Hstep as (Hok1 & Hsrc1 & _ & Hcase).
    set (fw1 := LedSlaveDriver_Update id fw) in *.
    destruct Hcase as [(Hclean & Htgt & _) | (start & len & Hls & _)].
    + assert (Hinv1 :
        cursor_inv
          (led_differs (sourceLedValues (LedDriverStates fw1 id))
             (targetLedValues (LedDriverStates fw1 id)))
          (ledIndex (LedDriverStates fw1 id)) LEDS 0 LEDS).
      { rewrite Hsrc1, Htgt. destruct Hok1 as (_ & _ & _ & Hi1).
        unfold cursor_inv. split; [exact Hi1|]. split; [lia|].
        split; [lia|]. split; [lia|]. split; [exact Hclean|].
        split; [exact Hclean|]. left. unfold scan_start. lia. }
      destruct (IH fw1 LEDS 0 LEDS 0 0 Hok1 Hinv1 ltac:(lia) ltac:(lia)
                  ltac:(lia) ltac:(lia) ltac:(lia)) as (Ha & Hb & Hc).
      split; [exact Ha|]. split; [congruence|exact Hc].
    + destruct (led_step_progress _ _ _ _ _ _ _ _ _ _ _ Hinv Hls Hk1 Hk2 H1 H2)
        as (lo' & b' & k1' & k2' & Hinv' & Hk1' & Hk2' & H1' & H2' & Hsum).
      destruct (IH fw1 lo' s b' k1' k2' Hok1 Hinv' Hk1' Hk2' H1' H2'
                  ltac:(lia)) as (Ha & Hb & Hc).
      split; [exact Ha|]. split; [congruence|exact Hc].
Qed.

(** The number of chunks that cover [x] LEDs. *)
Lemma chunks_cover x :
  0 <= x ->
  let q := (x + CHUNK - 1) / CHUNK in
  0 <= q /\ x <= q * CHUNK /\ q * CHUNK < x + CHUNK.
Proof.
  intros Hx q.
  pose proof (Z.div_mod (x + CHUNK - 1) CHUNK ltac:(lia)) as Hdm.
  pose proof (Z.mod_pos_bound (x + CHUNK - 1) CHUNK chunk_positive) as Hm.
  fold q in Hdm. rewrite Z.mul_comm in Hdm.
  split; [apply Z.div_pos; lia|]. lia.
Qed.

Lemma chunk_budgets s0 :
  0 <= s0 <= LEDS ->
  exists k1 k2,
    LEDS - s0 <= k1 * CHUNK /\ s0 <= k2 * CHUNK /\ 0 <= k1 /\ 0 <= k2
    /\ k1 + k2 <= led_chunk_count + 1 /\ k1 <= led_chunk_count.
Proof.
  intros Hs0.
  destruct (chunks_cover (LEDS - s0) ltac:(lia)) as (Ha0 & Ha1 & Ha2).
  destruct (chunks_cover s0 ltac:(lia)) as (Hb0 & Hb1 & Hb2).
  destruct (chunks_cover LEDS ltac:(lia)) as (Hc0 & Hc1 & Hc2).
  fold led_chunk_count in Hc0, Hc1, Hc2.
  set (q1 := (LEDS - s0 + CHUNK - 1) / CHUNK) in *.
  set (q2 := (s0 + CHUNK - 1) / CHUNK) in *.
  exists q1, q2. repeat (split; [assumption|]). split.
  - destruct (Z_le_gt_dec (q1 + q2) (led_chunk_count + 1)) as [|Hgt]; [lia|].
    assert ((led_chunk_count + 2) * CHUNK <= (q1 + q2) * CHUNK)
      by (apply Z.mul_le_mono_nonneg_r; lia).
    lia.
  - destruct (Z_le_gt_dec q1 led_chunk_count) as [|Hgt]; [lia|].
    assert ((led_chunk_count + 1) * CHUNK <= q1 * CHUNK)
      by (apply Z.mul_le_mono_nonneg_r; lia).
    lia.
Qed.

Lemma led_updates_ok id n : forall fw,
  led_tables_ok (LedDriverStates fw id) ->
  led_tables_ok (LedDriverStates (led_updates n id fw) id).
Proof.
  induction n as [|n IH]; intros fw Hok; [exact Hok|].
  cbn [led_updates].
  apply (LedSlaveDriver_Update_Initialized id (led_updates n id fw)).
  apply IH. exact Hok.
Qed.

(** C1 (amended).  In the [Initialized] phase, whatever the two tables
    hold and wherever the cursor stands, the target table equals the source
    table after [ceil(LED_DRIVER_LED_COUNT / PMW_REGISTER_UPDATE_CHUNK_SIZE)
    + 1] calls of the update and after every further call, as long as only
    this update runs; [ceil(LED_DRIVER_LED_COUNT /
    PMW_REGISTER_UPDATE_CHUNK_SIZE)] calls are enough when no LED below the
    cursor differs, as is the case with the cursor at 0.  A call passes at
    most [PMW_REGISTER_UPDATE_CHUNK_SIZE + 1] bytes to the bus write. *)
Theorem LedSlaveDriver_Update_converges id fw (calls : nat) :
  let st := LedDriverStates fw id in
  let fw' := led_updates calls id fw in
  let st' := LedDriverStates fw' id in
  led_tables_ok st ->
  (led_chunk_count + 1 <= Z.of_nat calls ->
   targetLedValues st' = sourceLedValues st
   /\ sourceLedValues st' = sourceLedValues st)
  /\ (clean (led_differs (sourceLedValues st) (targetLedValues st)) 0
        (ledIndex st) ->
      led_chunk_count <= Z.of_nat calls ->
      targetLedValues st' = sourceLedValues st
      /\ sourceLedValues st' = sourceLedValues st)
  /\ (i2c_log (LedSlaveDriver_Update id fw') = i2c_log fw'
      \/ exists address data,
           i2c_log (LedSlaveDriver_Update id fw')
           = i2c_log fw' ++ [I2cAsyncWrite address data]
           /\ Z.of_nat (length data) <= CHUNK + 1).
Proof.
  intros st fw' st' Hok.
  pose proof Hok as (Hph & Hsrc & Htgt & Hidx).
  set (d := led_differs (sourceLedValues st) (targetLedValues st)).
  assert (Hs0 : 0 <= scan_start (ledIndex st) <= LEDS)
    by (unfold scan_start; lia).
  destruct (chunk_budgets (scan_start (ledIndex st)) Hs0)
    as (k1 & k2 & Hk1 & Hk2 & H1 & H2 & Hsum & Hk1le).
  assert (Hfinish : forall lo s b j1 j2,
    cursor_inv d (ledIndex st) lo s b ->
    LEDS - b <= j1 * CHUNK -> s - lo <= j2 * CHUNK -> 0 <= j1 -> 0 <= j2 ->
    j1 + j2 <= Z.of_nat calls ->
    targetLedValues st' = sourceLedValues st
    /\ sourceLedValues st' = sourceLedValues st).
  { intros lo s b j1 j2 Hinv Hj1 Hj2 Hp1 Hp2 Hj.
    destruct (led_updates_settle id calls fw lo s b j1 j2 Hok Hinv Hj1 Hj2
                Hp1 Hp2 Hj) as ((_ & Hs' & Ht' & _) & Hsame & Hclean).
    fold fw' st' in Hs', Ht', Hsame, Hclean.
    split; [|exact Hsame].
    transitivity (sourceLedValues st'); [|exact Hsame].
    apply clean_tables_equal; assumption. }
  split; [|split].
  - intros Hcalls.
    apply (Hfinish 0 (scan_start (ledIndex st)) (scan_start (ledIndex st))
             k1 k2); try lia.
    unfold cursor_inv. split; [exact Hidx|]. split; [lia|].
    split; [lia|]. split; [lia|].
    split; [intros i Hi; lia|]. split; [intros i Hi; lia|]. left. lia.
  - intros Hbelow Hcalls.
    apply (Hfinish (scan_start (ledIndex st)) (scan_start (ledIndex st))
             (scan_start (ledIndex st)) k1 0); try lia.
    unfold cursor_inv. split; [exact Hidx|]. split; [lia|].
    split; [lia|]. split; [lia|].
    split.
    + apply clean_sub with (a := 0) (b := ledIndex st);
        [exact Hbelow|lia|unfold scan_start; lia].
    + split; [intros i Hi; lia|]. left. lia.
  - pose proof (led_updates_ok id calls fw Hok) as Hok'. fold fw' in Hok'.
    pose proof (LedSlaveDriver_Update_Initialized id fw' Hok') as Hstep.
    cbv zeta in Hstep.
    destruct Hstep as (_ & _ & _ & [(_ & _ & Hlog) | (start & len & Hls & Hlog)]).
    + left. exact Hlog.
    + right. eexists _, _. split; [exact Hlog|].
      destruct Hok' as (_ & Hsrc' & _ & _).
      destruct Hls as (Hstart & Hlen & Hend & _).
      cbn [length]. rewrite Nat2Z.inj_succ.
      rewrite length_bytes_from by lia. lia.
Qed.

(** One update in the [Initialized] phase, spelled out: either no LED
    differs and only the cursor is reset, or the run from the first
    differing LED to the last differing LED of its window is transmitted and
    copied into the target table. *)
Lemma LedSlaveDriver_Update_Initialized_run id fw :
  let st := LedDriverStates fw id in
  let d := led_differs (sourceLedValues st) (targetLedValues st) in
  led_tables_ok st ->
  (clean d 0 LEDS
   /\ LedSlaveDriver_Update id fw = set_LedDriverState fw id (set_ledIndex st 0))
  \/ (exists start len,
        (0 <= start /\ 1 <= len <= CHUNK /\ start + len <= LEDS)
        /\ d start = true
        /\ d (start + len - 1) = true
        /\ LedSlaveDriver_Update id fw
           = set_LedDriverState
               (issue fw
                  (I2cAsyncWrite (i2cAddress st)
                     (u8 (FRAME_REGISTER_PWM_FIRST + start)
                      :: bytes_from (sourceLedValues st) start len)))
               id
               (set_ledIndex
                  (set_targetLedValues st
                     (memcpy_at (targetLedValues st) start
                        (bytes_from (sourceLedValues st) start len)))
                  (if LEDS <=? ledIndex st + len then 0
                   else ledIndex st + len))).
Proof.
  intros st d (Hph & Hsrc & Htgt & Hidx).
  unfold LedSlaveDriver_Update. fold st. rewrite Hph.
  rewrite (u8_small (LEDS - CHUNK)) by lia.
  replace (if LEDS - CHUNK <? ledIndex st then LEDS - CHUNK else ledIndex st)
    with (scan_start (ledIndex st)).
  2:{ unfold scan_start. destruct (LEDS - CHUNK <? ledIndex st) eqn:E;
        [apply Z.ltb_lt in E|apply Z.ltb_ge in E]; lia. }
  assert (Hs0 : 0 <= scan_start (ledIndex st) < LEDS)
    by (unfold scan_start; lia).
  pose proof (find_start_index_first (sourceLedValues st) (targetLedValues st)
                (scan_start (ledIndex st)) Hs0) as Hfirst.
  fold d in Hfirst.
  destruct (find_start_index (sourceLedValues st) (targetLedValues st)
              (Z.to_nat LEDS) (scan_start (ledIndex st))) as [start|].
  - right. destruct Hfirst as (Hstart & Hdstart & Hwhere).
    set (maxChunk := Z.min (LEDS - start) CHUNK).
    assert (Hmc : 1 <= maxChunk <= CHUNK /\ start + maxChunk <= LEDS)
      by (subst maxChunk; lia).
    rewrite (u8_small maxChunk) by lia.
    rewrite (u8_small (start + maxChunk - 1)) by lia.
    replace (Z.to_nat (start + maxChunk - 1 - start + 1))
      with (Z.to_nat maxChunk) by lia.
    pose proof (find_end_index_last (sourceLedValues st) (targetLedValues st)
                  (Z.to_nat maxChunk) start start ltac:(lia) ltac:(lia))
      as Hend.
    cbv zeta in Hend. fold d in Hend.
    set (e := find_end_index (sourceLedValues st) (targetLedValues st)
                (Z.to_nat maxChunk) start start) in *.
    destruct Hend as [He Hafter].
    assert (Her : start <= e < start + maxChunk /\ d e = true).
    { destruct He as [-> | [He Hde]]; [split; [lia|exact Hdstart]|].
      split; [lia|exact Hde]. }
    destruct Her as [Her Hde].
    set (len := e - start + 1).
    assert (Hlen : 1 <= len <= maxChunk) by (subst len; lia).
    rewrite (u8_small len) by lia.
    rewrite (u8_small (ledIndex st + len)) by lia.
    pose proof (length_bytes_from (sourceLedValues st) start len
                  ltac:(lia) ltac:(lia) ltac:(lia)) as Hrun.
    exists start, len.
    split; [lia|]. split; [exact Hdstart|].
    split; [replace (start + len - 1) with e by (subst len; lia); exact Hde|].
    do 3 f_equal.
    change (u8 (FRAME_REGISTER_PWM_FIRST + start)
            :: bytes_from (sourceLedValues st) start len)
      with ([u8 (FRAME_REGISTER_PWM_FIRST + start)]
            ++ bytes_from (sourceLedValues st) start len).
    unfold bytes_from at 1. cbn [Z.to_nat skipn].
    apply firstn_all2. rewrite length_app. cbn [length]. lia.
  - left. split; [exact Hfirst|reflexivity].
Qed.

Lemma app_one_not_nil {A : Type} (l : list A) x : l ++ [x] <> l.
Proof.
  intros H. apply (f_equal (@length A)) in H.
  rewrite length_app in H. cbn [length] in H. lia.
Qed.

(** X21.  In the [Initialized] phase an update is silent exactly when
    the target table equals the source table, and then it does nothing but
    reset the cursor to 0: a settled driver costs no bus traffic, and it
    stays settled until the application writes the source table. *)
Theorem LedSlaveDriver_Update_idle id fw :
  let st := LedDriverStates fw id in
  let fw' := LedSlaveDriver_Update id fw in
  led_tables_ok st ->
  (targetLedValues st = sourceLedValues st ->
   fw' = set_LedDriverState fw id (set_ledIndex st 0))
  /\ (i2c_log fw' = i2c_log fw -> targetLedValues st = sourceLedValues st)
  /\ (targetLedValues st = sourceLedValues st ->
      forall n, i2c_log (led_updates n id fw) = i2c_log fw
                /\ targetLedValues (LedDriverStates (led_updates n id fw) id)
                   = sourceLedValues st).
Proof.
  intros st fw' Hok. subst fw'.
  assert (Hsilent : forall fw0,
    led_tables_ok (LedDriverStates fw0 id) ->
    targetLedValues (LedDriverStates fw0 id)
    = sourceLedValues (LedDriverStates fw0 id) ->
    LedSlaveDriver_Update id fw0
    = set_LedDriverState fw0 id (set_ledIndex (LedDriverStates fw0 id) 0)).
  { intros fw0 Hok0 Heq.
    destruct (LedSlaveDriver_Update_Initialized_run id fw0 Hok0)
      as [(_ & E) | (start & len & _ & Hd & _)]; [exact E|].
    unfold led_differs in Hd. rewrite Heq, Z.eqb_refl in Hd. discriminate. }
  split; [apply Hsilent; exact Hok|]. split.
  - intros Hlog. pose proof Hok as (_ & Hsrc & Htgt & _).
    destruct (LedSlaveDriver_Update_Initialized_run id fw Hok)
      as [(Hclean & _) | (start & len & _ & _ & _ & E)].
    + apply clean_tables_equal; assumption.
    + fold st in E. rewrite E in Hlog.
      unfold set_LedDriverState, issue in Hlog. cbn [i2c_log] in Hlog.
      apply app_one_not_nil in Hlog. contradiction.
  - intros Heq n. induction n as [|n IH]; [split; [reflexivity|exact Heq]|].
    cbn [led_updates]. destruct IH as [IHlog IHt].
    pose proof (led_updates_ok id n fw Hok) as Hokn.
    assert (Hsrcn : sourceLedValues (LedDriverStates (led_updates n id fw) id)
                    = sourceLedValues st).
    { clear IHlog IHt Hokn. induction n as [|n IHn]; [reflexivity|].
      cbn [led_updates].
      pose proof (LedSlaveDriver_Update_Initialized id (led_updates n id fw)
                    (led_updates_ok id n fw Hok)) as Hstep.
      cbv zeta in Hstep. destruct Hstep as (_ & Hs & _). rewrite Hs. exact IHn. }
    rewrite Hsilent; [|exact Hokn|rewrite IHt, Hsrcn; reflexivity].
    unfold set_LedDriverState. cbn [i2c_log LedDriverStates].
    rewrite store_same. unfold set_ledIndex. cbn [targetLedValues].
    split; [exact IHlog|exact IHt].
Qed.

(** X22.  When the tables differ, an update in the [Initialized] phase
    hands one write to the bus: the register address of a first LED and the
    source values of a run of at most [PMW_REGISTER_UPDATE_CHUNK_SIZE] LEDs
    from it.  The first and the last LED of the run differ between the
    tables, so no byte is sent in front of or behind the change.  The
    target table receives the bytes that were transmitted, at the place
    they were transmitted for, and nothing else. *)
Theorem LedSlaveDriver_Update_transmits_run id fw :
  let st := LedDriverStates fw id in
  let fw' := LedSlaveDriver_Update id fw in
  let source := sourceLedValues st in
  let target := targetLedValues st in
  led_tables_ok st ->
  target <> source ->
  exists start len,
    (0 <= start /\ 1 <= len <= CHUNK /\ start + len <= LEDS)
    /\ i2c_log fw'
       = i2c_log fw
         ++ [I2cAsyncWrite (i2cAddress st)
               (u8 (FRAME_REGISTER_PWM_FIRST + start)
                :: bytes_from source start len)]
    /\ targetLedValues (LedDriverStates fw' id)
       = memcpy_at target start (bytes_from source start len)
    /\ byte_at source start <> byte_at target start
    /\ byte_at source (start + len - 1) <> byte_at target (start + len - 1).
Proof.
  intros st fw' source target Hok Hne. subst fw'.
  pose proof Hok as (_ & Hsrc & Htgt & _).
  destruct (LedSlaveDriver_Update_Initialized_run id fw Hok)
    as [(Hclean & _) | (start & len & Hrange & Hd1 & Hd2 & E)].
  - exfalso. apply Hne. apply clean_tables_equal; assumption.
  - fold st in E. rewrite E. exists start, len.
    unfold set_LedDriverState, issue. cbn [i2c_log LedDriverStates].
    rewrite store_same. unfold set_ledIndex, set_targetLedValues.
    cbn [targetLedValues].
    split; [exact Hrange|]. split; [reflexivity|]. split; [reflexivity|].
    unfold led_differs in Hd1, Hd2.
    apply Bool.negb_true_iff in Hd1, Hd2.
    apply Z.eqb_neq in Hd1, Hd2. auto.
Qed.

(** A chunk that lies inside the source table is read from the table
    alone. *)
Lemma source_bytes_from_inside fw id off n :
  0 <= off -> 0 <= n ->
  off + n <= Z.of_nat (length (sourceLedValues (LedDriverStates fw id))) ->
  source_bytes_from fw id off n
  = bytes_from (sourceLedValues (LedDriverStates fw id)) off n.
Proof.
  intros Ho Hn Hl. unfold source_bytes_from.
  pose proof (length_bytes_from _ off n Ho Hn Hl) as Hlen.
  replace (Z.to_nat n
           - length (bytes_from (sourceLedValues (LedDriverStates fw id)) off n))%nat
    with 0%nat by lia.
  cbn [seq map]. apply app_nil_r.
Qed.

(** A buffer of one byte more than a chunk holds the register address and
    the chunk, and nothing else. *)
Lemma updatePwmRegistersBuffer_filled x chunk :
  Z.of_nat (length chunk) = CHUNK ->
  bytes_from (memcpy_at (array_set (memset 0 (CHUNK + 1)) 0 x) 1 chunk)
    0 (CHUNK + 1)
  = x :: chunk.
Proof.
  intros Hlen. unfold memset, bytes_from.
  replace (Z.to_nat (CHUNK + 1)) with (S (length chunk)) by lia.
  cbn [repeat]. unfold array_set. cbn [length Nat.ltb Nat.leb firstn skipn app].
  unfold memcpy_at.
  change (Z.to_nat 1) with 1%nat. change (Z.to_nat 0) with 0%nat.
  cbn [firstn skipn app plus].
  rewrite skipn_all2 by (rewrite repeat_length; lia).
  rewrite app_nil_r. f_equal. apply firstn_all.
Qed.

(** One update in the [InitLedValues] phase: it hands one write to the
    bus and moves the cursor on by one chunk, or hands over to the
    [Initialized] phase when the cursor has reached the end of the table.
    When the buffer has one byte more than a chunk and the chunk lies inside
    the source table, the write is the register address and the chunk. *)
Lemma LedSlaveDriver_Update_InitLedValues id fw :
  let st := LedDriverStates fw id in
  let fw1 := LedSlaveDriver_Update id fw in
  phase st = LedDriverPhase_InitLedValues ->
  0 <= ledIndex st ->
  ledIndex st + CHUNK < 256 ->
  LedDriverStates fw1 id
  = (if LEDS <=? ledIndex st + CHUNK
     then set_phase (set_ledIndex st 0) LedDriverPhase_Initialized
     else set_ledIndex st (ledIndex st + CHUNK))
  /\ exists data,
       i2c_log fw1 = i2c_log fw ++ [I2cAsyncWrite (i2cAddress st) data]
       /\ (PWM_REGISTER_BUFFER_LENGTH = CHUNK + 1 ->
           ledIndex st + CHUNK <= Z.of_nat (length (sourceLedValues st)) ->
           data = u8 (FRAME_REGISTER_PWM_FIRST + ledIndex st)
                  :: bytes_from (sourceLedValues st) (ledIndex st) CHUNK).
Proof.
  intros st fw1 Hph Hlo Hhi. subst fw1.
  unfold LedSlaveDriver_Update. fold st. rewrite Hph.
  rewrite (u8_small (ledIndex st + CHUNK)) by lia.
  split.
  - destruct (LEDS <=? ledIndex st + CHUNK);
      unfold set_LedDriverState, issue; cbn [LedDriverStates];
      apply store_same.
  - eexists. split.
    + destruct (LEDS <=? ledIndex st + CHUNK);
        unfold set_LedDriverState, issue; cbn [i2c_log]; reflexivity.
    + intros Hbuf Hsrc. rewrite Hbuf.
      rewrite source_bytes_from_inside by (fold st; lia). fold st.
      apply updatePwmRegistersBuffer_filled.
      apply length_bytes_from; lia.
Qed.

(** The [InitLedValues] phase from chunk number [k] on: [j + 1] updates
    hand one write each to the bus and hand over to the [Initialized]
    phase.  When the buffer has one byte more than a chunk and the chunks
    lie inside the source table, the writes are the chunks that were
    left. *)
Lemma led_updates_InitLedValues id (j : nat) : forall fw (k : nat),
  let st := LedDriverStates fw id in
  let fw' := led_updates (S j) id fw in
  let st' := LedDriverStates fw' id in
  phase st = LedDriverPhase_InitLedValues ->
  ledIndex st = Z.of_nat k * CHUNK ->
  Z.of_nat k * CHUNK + Z.of_nat j * CHUNK < LEDS ->
  LEDS <= Z.of_nat k * CHUNK + Z.of_nat j * CHUNK + CHUNK ->
  phase st' = LedDriverPhase_Initialized
  /\ ledIndex st' = 0
  /\ sourceLedValues st' = sourceLedValues st
  /\ targetLedValues st' = targetLedValues st
  /\ length (i2c_log fw') = (length (i2c_log fw) + S j)%nat
  /\ (PWM_REGISTER_BUFFER_LENGTH = CHUNK + 1 ->
      Z.of_nat k * CHUNK + Z.of_nat j * CHUNK + CHUNK
      <= Z.of_nat (length (sourceLedValues st)) ->
      i2c_log fw'
      = i2c_log fw ++ map (init_led_values_request st) (seq k (S j))).
Proof.
  induction j as [|j IH]; intros fw k st fw' st' Hph Hidx Hlt Hge;
    subst st' fw'; rewrite led_updates_first;
    destruct (LedSlaveDriver_Update_InitLedValues id fw Hph)
      as (E1 & data & L1 & D1); fold st; try lia;
    fold st in E1, L1, D1; rewrite Hidx in E1.
  - cbn [led_updates seq map].
    replace (LEDS <=? Z.of_nat k * CHUNK + CHUNK) with true in E1
      by (symmetry; apply Z.leb_le; lia).
    rewrite E1, L1. unfold set_phase, set_ledIndex.
    cbn [phase ledIndex sourceLedValues targetLedValues].
    repeat split; try reflexivity.
    + rewrite length_app. reflexivity.
    + intros Hbuf Hsrc. rewrite (D1 Hbuf) by lia.
      unfold init_led_values_request. rewrite Hidx. reflexivity.
  - set (fw1 := LedSlaveDriver_Update id fw) in *.
    replace (LEDS <=? Z.of_nat k * CHUNK + CHUNK) with false in E1
      by (symmetry; apply Z.leb_gt; lia).
    assert (P1 : phase (LedDriverStates fw1 id) = LedDriverPhase_InitLedValues)
      by (rewrite E1; exact Hph).
    assert (I1 : ledIndex (LedDriverStates fw1 id) = Z.of_nat (S k) * CHUNK)
      by (rewrite E1; unfold set_ledIndex; cbn [ledIndex];
          rewrite Nat2Z.inj_succ; ring).
    destruct (IH fw1 (S k) P1 I1 ltac:(lia) ltac:(lia))
      as (P2 & I2 & S2 & T2 & N2 & L2).
    rewrite E1 in S2, T2, L2.
    unfold set_ledIndex in S2, T2, L2.
    cbn [sourceLedValues targetLedValues] in S2, T2, L2.
    split; [exact P2|]. split; [exact I2|].
    split; [exact S2|]. split; [exact T2|]. split.
    + rewrite N2, L1, length_app. cbn [length]. lia.
    + intros Hbuf Hsrc. rewrite L2 by (try exact Hbuf; lia).
      rewrite L1, (D1 Hbuf) by lia.
      rewrite <- app_assoc. f_equal.
      change (seq k (S (S j))) with (k :: seq (S k) (S j)).
      cbn [map app]. unfold init_led_values_request at 2.
      rewrite Hidx. reflexivity.
Qed.

Lemma led_updates_add a b id fw :
  led_updates (a + b) id fw = led_updates b id (led_updates a id fw).
Proof.
  induction b as [|b IH]; [rewrite Nat.add_0_r; reflexivity|].
  rewrite Nat.add_succ_r. cbn [led_updates]. rewrite IH. reflexivity.
Qed.

(** X23.  From the [SetFunctionFrame] phase with the cursor at 0, unless
    the driver is the left one while the left keyboard half is not
    connected, [4 + ceil(LED_DRIVER_LED_COUNT /
    PMW_REGISTER_UPDATE_CHUNK_SIZE)] updates bring the driver to the
    [Initialized] phase with the cursor at 0.  Each of them hands one write
    to the bus, and none of them writes the source or the target table.
    When the chunk size divides the table size, the buffer has one byte more
    than a chunk and the source table has [LED_DRIVER_LED_COUNT] entries,
    the writes are: the function frame, the normal shutdown mode, frame 1,
    the control registers command, and then the source table chunk by
    chunk, each chunk behind its register address.  With tables of
    [LED_DRIVER_LED_COUNT] entries the target table equals the source table
    after [4 + 2 * ceil(LED_DRIVER_LED_COUNT /
    PMW_REGISTER_UPDATE_CHUNK_SIZE)] updates from the start and after every
    further one, as long as nobody writes the source table. *)
Theorem LedSlaveDriver_Update_initialises id fw :
  let st := LedDriverStates fw id in
  let fw' := led_updates (4 + Z.to_nat led_chunk_count) id fw in
  let st' := LedDriverStates fw' id in
  phase st = LedDriverPhase_SetFunctionFrame ->
  ledIndex st = 0 ->
  id <> LedDriverId_Left
  \/ isConnected (Slaves fw SlaveId_LeftKeyboardHalf) = true ->
  (phase st' = LedDriverPhase_Initialized
   /\ ledIndex st' = 0
   /\ sourceLedValues st' = sourceLedValues st
   /\ targetLedValues st' = targetLedValues st
   /\ length (i2c_log fw')
      = (length (i2c_log fw) + (4 + Z.to_nat led_chunk_count))%nat)
  /\ ((CHUNK | LEDS) ->
      PWM_REGISTER_BUFFER_LENGTH = CHUNK + 1 ->
      Z.of_nat (length (sourceLedValues st)) = LEDS ->
      i2c_log fw' = i2c_log fw ++ led_init_requests st)
  /\ (Z.of_nat (length (sourceLedValues st)) = LEDS ->
      Z.of_nat (length (targetLedValues st)) = LEDS ->
      forall calls : nat,
        4 + 2 * led_chunk_count <= Z.of_nat calls ->
        targetLedValues (LedDriverStates (led_updates calls id fw) id)
        = sourceLedValues st).
Proof.
  intros st fw' st' Hph Hidx Hfree.
  assert (Hinit :
    (phase st' = LedDriverPhase_Initialized
     /\ ledIndex st' = 0
     /\ sourceLedValues st' = sourceLedValues st
     /\ targetLedValues st' = targetLedValues st
     /\ length (i2c_log fw')
        = (length (i2c_log fw) + (4 + Z.to_nat led_chunk_count))%nat)
    /\ ((CHUNK | LEDS) ->
        PWM_REGISTER_BUFFER_LENGTH = CHUNK + 1 ->
        Z.of_nat (length (sourceLedValues st)) = LEDS ->
        i2c_log fw' = i2c_log fw ++ led_init_requests st)).
  { subst st' fw'.
    assert (Hconn : (id =? LedDriverId_Left)
                    && negb (isConnected (Slaves fw SlaveId_LeftKeyboardHalf))
                    = false).
    { destruct Hfree as [H|H].
      - apply Z.eqb_neq in H. rewrite H. reflexivity.
      - rewrite H. apply Bool.andb_false_r. }
    destruct (chunks_cover LEDS ltac:(lia)) as (Hc0 & Hc1 & Hc2).
    fold led_chunk_count in Hc0, Hc1, Hc2.
    assert (Hc : 1 <= led_chunk_count).
    { destruct (Z_le_gt_dec 1 led_chunk_count) as [H|H]; [exact H|].
      assert (led_chunk_count = 0) by lia. lia. }
    replace (4 + Z.to_nat led_chunk_count)%nat
      with (S (S (S (S (S (Z.to_nat (led_chunk_count - 1))))))) by lia.
    rewrite 4 led_updates_first.
    set (fw1 := LedSlaveDriver_Update id fw).
    assert (H1 :
      phase (LedDriverStates fw1 id) = LedDriverPhase_SetShutdownModeNormal
      /\ LedDriverStates fw1 id
         = set_phase st LedDriverPhase_SetShutdownModeNormal
      /\ i2c_log fw1
         = i2c_log fw ++ [I2cAsyncWrite (i2cAddress st) setFunctionFrameBuffer]).
    { subst fw1. unfold LedSlaveDriver_Update. fold st. rewrite Hph, Hconn.
      unfold set_LedDriverState, issue. cbn [LedDriverStates i2c_log].
      rewrite store_same. auto. }
    destruct H1 as (P1 & E1 & L1).
    set (fw2 := LedSlaveDriver_Update id fw1).
    assert (H2 :
      phase (LedDriverStates fw2 id) = LedDriverPhase_SetFrame1
      /\ LedDriverStates fw2 id = set_phase st LedDriverPhase_SetFrame1
      /\ i2c_log fw2
         = i2c_log fw1
           ++ [I2cAsyncWrite (i2cAddress st) setShutdownModeNormalBuffer]).
    { subst fw2. unfold LedSlaveDriver_Update. rewrite P1.
      unfold set_LedDriverState, issue. cbn [LedDriverStates i2c_log].
      rewrite store_same, E1. auto. }
    destruct H2 as (P2 & E2 & L2).
    set (fw3 := LedSlaveDriver_Update id fw2).
    assert (H3 :
      phase (LedDriverStates fw3 id) = LedDriverPhase_InitLedControlRegisters
      /\ LedDriverStates fw3 id
         = set_phase st LedDriverPhase_InitLedControlRegisters
      /\ i2c_log fw3
         = i2c_log fw2 ++ [I2cAsyncWrite (i2cAddress st) setFrame1Buffer]).
    { subst fw3. unfold LedSlaveDriver_Update. rewrite P2.
      unfold set_LedDriverState, issue. cbn [LedDriverStates i2c_log].
      rewrite store_same, E2. auto. }
    destruct H3 as (P3 & E3 & L3).
    set (fw4 := LedSlaveDriver_Update id fw3).
    assert (H4 :
      phase (LedDriverStates fw4 id) = LedDriverPhase_InitLedValues
      /\ LedDriverStates fw4 id = set_phase st LedDriverPhase_InitLedValues
      /\ i2c_log fw4
         = i2c_log fw3
           ++ [I2cAsyncWrite (i2cAddress st)
                 (bytes_from (setupLedControlRegistersCommand st) 0
                    LED_CONTROL_REGISTERS_COMMAND_LENGTH)]).
    { subst fw4. unfold LedSlaveDriver_Update. rewrite P3.
      unfold set_LedDriverState, issue. cbn [LedDriverStates i2c_log].
      rewrite store_same, E3. auto. }
    destruct H4 as (P4 & E4 & L4).
    clearbody fw1 fw2 fw3 fw4.
    assert (Hz : Z.of_nat (Z.to_nat (led_chunk_count - 1)) = led_chunk_count - 1)
      by lia.
    assert (Hmul : (led_chunk_count - 1) * CHUNK = led_chunk_count * CHUNK - CHUNK)
      by ring.
    destruct (led_updates_InitLedValues id (Z.to_nat (led_chunk_count - 1)) fw4 0%nat)
      as (P5 & I5 & S5 & T5 & N5 & L5).
    - exact P4.
    - rewrite E4. cbn. exact Hidx.
    - rewrite Hz, Hmul. lia.
    - rewrite Hz, Hmul. lia.
    - rewrite E4 in S5, T5, L5.
      cbn [set_phase sourceLedValues targetLedValues] in S5, T5, L5.
      split.
      + split; [exact P5|]. split; [exact I5|].
        split; [exact S5|]. split; [exact T5|].
        rewrite N5, L4, L3, L2, L1. rewrite !length_app. cbn [length]. lia.
      + intros [z Hdiv] Hbuf Hsrc.
        assert (Hzc : z = led_chunk_count).
        { rewrite Hdiv in Hc1, Hc2.
          apply Z.mul_le_mono_pos_r in Hc1; [|exact chunk_positive].
          assert (Hlt : (led_chunk_count - 1) * CHUNK < z * CHUNK) by lia.
          apply Z.mul_lt_mono_pos_r in Hlt; [|exact chunk_positive]. lia. }
        rewrite L5; [|exact Hbuf|rewrite Hz, Hmul, Hsrc, Hdiv, Hzc; lia].
        rewrite L4, L3, L2, L1. unfold led_init_requests.
        rewrite <- !app_assoc. cbn [app].
        replace (S (Z.to_nat (led_chunk_count - 1))) with (Z.to_nat led_chunk_count)
          by lia.
        reflexivity. }
  destruct Hinit as (Hreach & Hlog).
  split; [exact Hreach|]. split; [exact Hlog|].
  destruct Hreach as (P5 & I5 & S5 & T5 & _).
  intros Hsrc Htgt calls Hcalls.
  destruct (chunks_cover LEDS ltac:(lia)) as (Hc0 & Hc1 & _).
  fold led_chunk_count in Hc0, Hc1.
  replace calls
    with ((4 + Z.to_nat led_chunk_count)
          + (calls - (4 + Z.to_nat led_chunk_count)))%nat by lia.
  rewrite led_updates_add. fold fw'.
  assert (Hok : led_tables_ok (LedDriverStates fw' id)).
  { fold st'. unfold led_tables_ok. rewrite P5, I5, S5, T5.
    split; [reflexivity|]. split; [exact Hsrc|]. split; [exact Htgt|lia]. }
  destruct (led_updates_settle id (calls - (4 + Z.to_nat led_chunk_count)) fw'
              0 0 0 led_chunk_count 0 Hok)
    as ((_ & Hs' & Ht' & _) & Hsame & Hclean); try lia.
  { fold st'. rewrite I5. unfold cursor_inv, scan_start.
    split; [lia|]. split; [lia|]. split; [lia|]. split; [lia|].
    split; [intros i Hi; lia|]. split; [intros i Hi; lia|]. left. lia. }
  fold st' in Hsame. rewrite S5 in Hsame.
  rewrite <- Hsame. apply clean_tables_equal; assumption.
Qed.

(** X24.  [SetLeds] fills the source table of every driver with one
    brightness and touches nothing else: no phase, no cursor, no target
    table, no bus request.  When a driver is in the [Initialized] phase, the
    brightness has reached all of its target table after
    [ceil(LED_DRIVER_LED_COUNT / PMW_REGISTER_UPDATE_CHUNK_SIZE) + 1]
    updates, wherever the cursor stood. *)
Theorem SetLeds_reaches_target id fw ledBrightness (calls : nat) :
  let st := LedDriverStates fw id in
  let fw1 := SetLeds ledBrightness fw in
  let fw' := led_updates calls id fw1 in
  0 <= id < LED_DRIVER_MAX_COUNT ->
  phase st = LedDriverPhase_Initialized ->
  Z.of_nat (length (targetLedValues st)) = LEDS ->
  0 <= ledIndex st < LEDS ->
  led_chunk_count + 1 <= Z.of_nat calls ->
  (sourceLedValues (LedDriverStates fw1 id) = memset ledBrightness LEDS
   /\ i2c_log fw1 = i2c_log fw
   /\ forall other,
        phase (LedDriverStates fw1 other) = phase (LedDriverStates fw other)
        /\ ledIndex (LedDriverStates fw1 other)
           = ledIndex (LedDriverStates fw other)
        /\ targetLedValues (LedDriverStates fw1 other)
           = targetLedValues (LedDriverStates fw other))
  /\ targetLedValues (LedDriverStates fw' id) = memset ledBrightness LEDS
  /\ sourceLedValues (LedDriverStates fw' id) = memset ledBrightness LEDS.
Proof.
  intros st fw1 fw' Hid Hph Htgt Hidx Hcalls.
  assert (Hsrc1 : sourceLedValues (LedDriverStates fw1 id)
                  = memset ledBrightness LEDS).
  { subst fw1. unfold SetLeds. cbn [LedDriverStates].
    replace ((0 <=? id) && (id <? LED_DRIVER_MAX_COUNT)) with true
      by (symmetry; apply andb_true_intro; split;
          [apply Z.leb_le|apply Z.ltb_lt]; lia).
    reflexivity. }
  assert (Hother : forall other,
    phase (LedDriverStates fw1 other) = phase (LedDriverStates fw other)
    /\ ledIndex (LedDriverStates fw1 other) = ledIndex (LedDriverStates fw other)
    /\ targetLedValues (LedDriverStates fw1 other)
       = targetLedValues (LedDriverStates fw other)).
  { intros other. subst fw1. unfold SetLeds. cbn [LedDriverStates].
    destruct ((0 <=? other) && (other <? LED_DRIVER_MAX_COUNT));
      repeat split; reflexivity. }
  split; [split; [exact Hsrc1|split; [reflexivity|exact Hother]]|].
  destruct (Hother id) as (P1 & I1 & T1). fold st in P1, I1, T1.
  assert (Hok : led_tables_ok (LedDriverStates fw1 id)).
  { unfold led_tables_ok. rewrite P1, I1, T1, Hsrc1.
    split; [exact Hph|]. split; [|split; [exact Htgt|exact Hidx]].
    unfold memset. rewrite repeat_length. lia. }
  set (index := ledIndex (LedDriverStates fw1 id)) in *.
  assert (Hs0 : 0 <= scan_start index <= LEDS)
    by (unfold scan_start; lia).
  destruct (chunk_budgets (scan_start index) Hs0)
    as (k1 & k2 & Hk1 & Hk2 & H1 & H2 & Hsum & _).
  destruct (led_updates_settle id calls fw1 0 (scan_start index)
              (scan_start index) k1 k2 Hok)
    as ((_ & Hs' & Ht' & _) & Hsame & Hclean); try lia.
  { unfold cursor_inv. fold index. split; [lia|]. split; [lia|].
    split; [lia|]. split; [lia|].
    split; [intros i Hi; lia|]. split; [intros i Hi; lia|]. left. lia. }
  fold fw' in Hs', Ht', Hsame, Hclean.
  rewrite Hsrc1 in Hsame. split; [|exact Hsame].
  rewrite <- Hsame. apply clean_tables_equal; assumption.
Qed.

End LedConvergence.

End Firmware.

(** * Runs on concrete inputs

    The constants are instantiated with the values of the keyboard's
    headers as far as they are known (144 LEDs in chunks of 8, the start
    byte 0x5a and the packet type codes 0xa1 to 0xa7, buffers of 32 bytes,
    protocol version P1.2.0) and the CRC16 utility with CRC-16/XMODEM. *)

Notation "'uhk_LedSlaveDriver_Update'" :=
  (LedSlaveDriver_Update 144 8 9 19 36 253 10 11 0 1 1 0
     example_memory_behind).
Notation "'uhk_led_updates'" :=
  (led_updates 144 8 9 19 36 253 10 11 0 1 1 0 example_memory_behind).
Notation "'uhk_SetLeds'" := (SetLeds 144 2).
Notation "'uhk_UhkModuleSlaveDriver_Update'" :=
  (UhkModuleSlaveDriver_Update 3 0 4 3 example_features_keyCount
     example_CRC16_IsMessageValid example_BoolBitsToBytes example_i2c_answer).
Notation "'uhk_serial_packet_read'" :=
  (serial_packet_read 90 161 162 163 164 165 166 167 32 2 10 0 2 1 80
     Z 0 crc16_xmodem_update crc16_xmodem_finalize).
Notation "'uhk_serial_packet_write'" :=
  (serial_packet_write 90 161 162 163 164 165 32 2 10
     Z 0 crc16_xmodem_update crc16_xmodem_finalize).
Notation "'uhk_wire_packet' ftype payload" :=
  (wire_packet 90 ftype
     (wire_packet_crc 90 Z 0 crc16_xmodem_update crc16_xmodem_finalize
        ftype payload)
     payload) (at level 10, ftype at level 9, payload at level 9).

(** The precomputed crc16 of [k_PingResponse] is the CRC-16/XMODEM of the
    ping response header and the fields before it, for version P1.2.0. *)
Example k_PingResponse_crc16 :
  crc16_xmodem_update 0 ([90; 167] ++ [0; 2; 1; 80] ++ halfword_bytes 0)
  = 60074
  /\ k_PingResponse 0 2 1 80 = [0; 2; 1; 80; 0; 0; 170; 234].
Proof. split; reflexivity. Qed.

(** C1, as stated, fails.  The left driver is in the [Initialized] phase
    with the cursor at 0 and the first four LEDs differing; one update
    transmits them and leaves the cursor at 4 with the tables equal.  Then
    [SetLeds] changes every LED.  After [ceil(144 / 8) = 18] further updates
    the LEDs 0 to 3 of the target table still hold the old value. *)
Lemma LedSlaveDriver_Update_bound_exceeded :
  let fw0 :=
    set_LedDriverState example_firmware 1
      (example_led_state 0 (repeat 255 4 ++ repeat 0 140) (repeat 0 144)) in
  let fw1 := uhk_LedSlaveDriver_Update 1 fw0 in
  let fw2 := uhk_SetLeds 128 fw1 in
  let fw3 := uhk_led_updates 18 1 fw2 in
  led_chunk_count 144 8 = 18
  /\ targetLedValues (LedDriverStates fw1 1)
     = sourceLedValues (LedDriverStates fw1 1)
  /\ phase (LedDriverStates fw2 1) = LedDriverPhase_Initialized
  /\ ledIndex (LedDriverStates fw2 1) = 4
  /\ sourceLedValues (LedDriverStates fw3 1) = repeat 128 144
  /\ targetLedValues (LedDriverStates fw3 1) = repeat 255 4 ++ repeat 128 140
  /\ targetLedValues (LedDriverStates fw3 1)
     <> sourceLedValues (LedDriverStates fw3 1).
Proof.
  vm_compute. repeat split. intros H. discriminate H.
Qed.

(** The run of the amended C1 from the same state: 19 updates settle the
    tables. *)
Lemma LedSlaveDriver_Update_converges_witness :
  let st := example_led_state 4 (repeat 128 144) (repeat 255 4 ++ repeat 0 140) in
  let fw := set_LedDriverState example_firmware 1 st in
  (0 < 8 /\ 8 <= 144 /\ 144 + 8 <= 256
   /\ led_tables_ok 144 (LedDriverStates fw 1))
  /\ targetLedValues (LedDriverStates (uhk_led_updates 19 1 fw) 1)
     = repeat 128 144.
Proof.
  assert (Hok : led_tables_ok 144
                  (LedDriverStates
                     (set_LedDriverState example_firmware 1
                        (example_led_state 4 (repeat 128 144)
                           (repeat 255 4 ++ repeat 0 140))) 1)).
  { repeat split; try reflexivity; vm_compute; congruence. }
  split; [repeat split; try lia; apply Hok|].
  destruct (LedSlaveDriver_Update_converges 144 8 9 19 36 253 10 11 0 1 1 0
              example_memory_behind
              ltac:(lia) ltac:(lia) ltac:(lia) 1 _ 19%nat Hok) as [H _].
  destruct H as [Ht _]; [vm_compute; discriminate|exact Ht].
Defined.

(** C2 at three attempts: two Naks, then the Ack. *)
Lemma serial_packet_write_nak_retry_witness :
  let packet := uhk_wire_packet 165 [1; 2; 3] in
  let w :=
    mk_serial_world idle_serial_data
      (mk_link ([90; 162] ++ [90; 162] ++ [90; 161]) [] [] []) in
  let r := uhk_serial_packet_write (Some [1; 2; 3]) 3 kPacketType_Data w in
  (161 <> 162 /\ 161 <> 163 /\ 162 <> 163 /\ 0 <= 2 /\ 32 < 65536
   /\ (1 <= 3)%nat /\ 3 <= 32)
  /\ fst r = kStatus_Success
  /\ written (activePeripheral (snd r)) = [packet; packet; packet]
  /\ packet = [90; 165; 3; 0; 19; 52; 1; 2; 3].
Proof.
  split; [repeat split; lia|].
  pose proof (serial_packet_write_nak_retry 90 161 162 163 164 165 32 2 10
                Z 0 crc16_xmodem_update crc16_xmodem_finalize
                ltac:(lia) ltac:(lia) ltac:(lia) ltac:(lia) ltac:(lia)
                [1; 2; 3] kPacketType_Data idle_serial_data [] [] [] [] 3%nat
                ltac:(lia) (Forall_nil _) ltac:(simpl; lia))
    as (Hs & Hw & _ & _).
  split; [exact Hs|]. split; [exact Hw|]. vm_compute. reflexivity.
Defined.

(** C3, as stated, fails.  A Ping header followed by a valid Command
    packet with the payload 1, 2, 3, 4: [serial_packet_read] answers the
    Ping, returns [kStatus_Ping] without a packet, and leaves the Command
    packet unread. *)
Lemma serial_packet_read_returns_ping :
  let command := uhk_wire_packet 164 [1; 2; 3; 4] in
  let w :=
    mk_serial_world idle_serial_data
      (mk_link ([90; 166] ++ command) [] [] []) in
  let r := uhk_serial_packet_read true true kPacketType_Command w in
  read_status (fst r) = kStatus_Ping
  /\ read_status (fst r) <> kStatus_Success
  /\ read_packet (fst r) = None
  /\ read_packetLength (fst r) = Some 0
  /\ incoming (activePeripheral (snd r)) = command
  /\ written (activePeripheral (snd r))
     = [[90; 167]; [0; 2; 1; 80; 0; 0; 170; 234]].
Proof.
  vm_compute. repeat split. intros H. discriminate H.
Qed.

(** The amended C3 on the same input. *)
Lemma serial_packet_read_ping_witness :
  let command := uhk_wire_packet 164 [1; 2; 3; 4] in
  let w :=
    mk_serial_world idle_serial_data
      (mk_link (90 :: 166 :: command) [] [] []) in
  let r := uhk_serial_packet_read true true kPacketType_Command w in
  (0 <= 2 /\ Forall (fun s => s = kStatus_Success) [])
  /\ fst r = mk_read_result kStatus_Ping None (Some 0)
  /\ incoming (activePeripheral (snd r)) = command
  /\ written (activePeripheral (snd r))
     = [] ++ deferred_ack_sync 90 161 163 idle_serial_data
       ++ ping_response_packets 90 167 0 2 1 80
  /\ isAckNeeded (g_serialContext (snd r)) = false.
Proof.
  split; [split; [lia|constructor]|].
  exact (serial_packet_read_ping 90 161 162 163 164 165 166 167 32 2 10
           0 2 1 80 Z 0 crc16_xmodem_update crc16_xmodem_finalize
           ltac:(lia) kPacketType_Command idle_serial_data
           (uhk_wire_packet 164 [1; 2; 3; 4]) [] [] [] (Forall_nil _)).
Defined.

(** C4 on a context as a successful read leaves it: the ping response
    goes out although the acknowledgement is pending. *)
Example serial_send_ping_response_after_read :
  let w :=
    mk_serial_world (set_isAckNeeded idle_serial_data true)
      (mk_link [] [] [] []) in
  isAckNeeded (g_serialContext w) = true
  /\ written (activePeripheral
                (snd (serial_send_ping_response 90 167 0 2 1 80 w)))
     = [[90; 167]; [0; 2; 1; 80; 0; 0; 170; 234]].
Proof. vm_compute. split; reflexivity. Qed.

(** C5 with a receive buffer of 32 bytes.  A packet of two bytes and a
    packet whose length field says 40, both with a crc field that is wrong,
    come before a packet whose length field says 40 and whose crc field holds
    the crc over the length 32 and the first 32 payload bytes: the engine
    answers two Naks, returns these 32 bytes with the length 32, and leaves
    the last 8 bytes of the payload on the link. *)
Lemma serial_packet_read_crc_mismatch_witness :
  let bad := [(2, 0, [9; 9]); (40, 4660, repeat 7 32)] in
  let data := map Z.of_nat (seq 1 32) in
  let rest := map Z.of_nat (seq 33 8) in
  let crc :=
    recomputed_crc 90 32 Z 0 crc16_xmodem_update crc16_xmodem_finalize 164 40
      data in
  let w :=
    mk_serial_world idle_serial_data
      (mk_link
         (received_packets 90 164 bad ++ received_packet 90 164 40 crc data
          ++ rest)
         [] [] []) in
  let r := uhk_serial_packet_read true true kPacketType_Command w in
  (0 <= 2 /\ 164 <> 166 /\ 165 <> 166
   /\ (forall c, 0 <= crc16_xmodem_finalize c < 65536)
   /\ Forall
        (crc_rejected 90 32 Z 0 crc16_xmodem_update crc16_xmodem_finalize 164)
        bad
   /\ 0 <= 40 < 65536
   /\ length data = Z.to_nat (received_length 32 40))
  /\ read_status (fst r) = kStatus_Success
  /\ read_packetLength (fst r) = Some 32
  /\ (exists buffer,
        read_packet (fst r) = Some buffer /\ bytes_from buffer 0 32 = data)
  /\ written (activePeripheral (snd r)) = [[90; 162]; [90; 162]]
  /\ incoming (activePeripheral (snd r)) = rest
  /\ isAckNeeded (g_serialContext (snd r)) = true.
Proof.
  assert (Hfin : forall c, 0 <= crc16_xmodem_finalize c < 65536)
    by (intros c; apply Z.mod_pos_bound; lia).
  assert (Hbad : Forall
            (crc_rejected 90 32 Z 0 crc16_xmodem_update crc16_xmodem_finalize
               164) [(2, 0, [9; 9]); (40, 4660, repeat 7 32)]).
  { constructor; [|constructor; [|constructor]];
      (split; [lia|]; split; [lia|]; split; [reflexivity|];
       vm_compute; discriminate). }
  split; [repeat split; try lia; try apply Hfin; exact Hbad|].
  pose proof (serial_packet_read_crc_mismatch 90 161 162 163 164 165 166 167
                32 2 10 0 2 1 80 Z 0 crc16_xmodem_update crc16_xmodem_finalize
                ltac:(lia) ltac:(lia) ltac:(lia) Hfin
                kPacketType_Command [(2, 0, [9; 9]); (40, 4660, repeat 7 32)]
                40 (map Z.of_nat (seq 1 32))
                idle_serial_data (map Z.of_nat (seq 33 8)) [] [] []
                (mk_serial_world idle_serial_data (mk_link [] [] [] []))
                (Forall_nil _) Hbad ltac:(lia) eq_refl)
    as ((Hs & Hl & Hd & Hw & Hi & Ha) & _).
  split; [exact Hs|]. split; [exact Hl|]. split; [exact Hd|].
  split; [exact Hw|]. split; [exact Hi|exact Ha].
Defined.

(** C6 with a four byte payload, followed by a write of two bytes that
    the peer acknowledges. *)
Lemma serial_packet_read_then_write_witness :
  let w :=
    mk_serial_world idle_serial_data
      (mk_link (uhk_wire_packet 164 [1; 2; 3; 4] ++ [90; 161]) [] [] []) in
  let r := uhk_serial_packet_read true true kPacketType_Command w in
  let r2 := uhk_serial_packet_write (Some [7; 8]) 2 kPacketType_Data (snd r) in
  (0 <= 2 /\ 32 < 65536 /\ 164 <> 166 /\ 165 <> 166 /\ 0 <= 32 < 65536
   /\ (forall c, 0 <= crc16_xmodem_finalize c < 65536)
   /\ 4 <= 32 /\ 2 <= 32)
  /\ read_status (fst r) = kStatus_Success
  /\ read_packetLength (fst r) = Some 4
  /\ (exists data,
        read_packet (fst r) = Some data /\ bytes_from data 0 4 = [1; 2; 3; 4])
  /\ exists more,
       written (activePeripheral (snd r2))
       = written (activePeripheral (snd r))
         ++ [90; 161] :: uhk_wire_packet 165 [7; 8] :: more.
Proof.
  assert (Hfin : forall c, 0 <= crc16_xmodem_finalize c < 65536)
    by (intros c; apply Z.mod_pos_bound; lia).
  split; [repeat split; try lia; apply Hfin|].
  exact (serial_packet_read_then_write 90 161 162 163 164 165 166 167
           32 32 2 10 0 2 1 80 Z 0 crc16_xmodem_update crc16_xmodem_finalize
           ltac:(lia) ltac:(lia) ltac:(lia) ltac:(lia) ltac:(lia) Hfin
           [1; 2; 3; 4] idle_serial_data [90; 161] [] [] [] [7; 8]
           kPacketType_Data (Forall_nil _) ltac:(simpl; lia) ltac:(simpl; lia)).
Defined.

(** C7 with the AckAbort in place of the first Ack. *)
Lemma serial_packet_write_ack_abort_witness :
  let packet := uhk_wire_packet 165 [1; 2; 3] in
  let w := mk_serial_world idle_serial_data (mk_link [90; 163] [] [] []) in
  let r := uhk_serial_packet_write (Some [1; 2; 3]) 3 kPacketType_Data w in
  (161 <> 162 /\ 161 <> 163 /\ 162 <> 163 /\ 0 <= 2 /\ 32 < 65536 /\ 3 <= 32)
  /\ fst r = kStatus_AbortDataPhase
  /\ written (activePeripheral (snd r)) = [packet]
  /\ incoming (activePeripheral (snd r)) = [].
Proof.
  split; [repeat split; lia|].
  exact (serial_packet_write_ack_abort 90 161 162 163 164 165 32 2 10
           Z 0 crc16_xmodem_update crc16_xmodem_finalize
           ltac:(lia) ltac:(lia) ltac:(lia) ltac:(lia) ltac:(lia)
           [1; 2; 3] kPacketType_Data idle_serial_data [] [] [] [] 0%nat
           (Forall_nil _) ltac:(simpl; lia)).
Defined.

(** C10 with a null pointer and with 33 bytes for a buffer of 32. *)
Lemma serial_packet_write_invalid_argument_witness :
  let w :=
    mk_serial_world (set_isAckNeeded idle_serial_data true)
      (mk_link [90; 161] [] [] []) in
  ((@None (list Z) = None \/ 32 < 0) /\ (Some (repeat 0 33) = None \/ 32 < 33))
  /\ uhk_serial_packet_write None 0 kPacketType_Data w
     = (kStatus_InvalidArgument, w)
  /\ uhk_serial_packet_write (Some (repeat 0 33)) 33 kPacketType_Data w
     = (kStatus_InvalidArgument, w).
Proof.
  split; [split; [left; reflexivity|right; lia]|].
  split.
  - apply (serial_packet_write_invalid_argument 90 161 162 163 164 165 32 2 10
             Z 0 crc16_xmodem_update crc16_xmodem_finalize).
    left. reflexivity.
  - apply (serial_packet_write_invalid_argument 90 161 162 163 164 165 32 2 10
             Z 0 crc16_xmodem_update crc16_xmodem_finalize).
    right. lia.
Defined.

(** C8 on a module whose test LED is to be switched on: the first update
    in the [SetTestLed] phase issues the command, the update of the
    [SetLedPwmBrightness] phase that follows issues the brightness, and when
    the cycle is back in the [SetTestLed] phase, four updates after the
    first, nothing is issued. *)
Lemma UhkModuleSlaveDriver_Update_change_gated_witness :
  let fw := example_firmware in
  let r := uhk_UhkModuleSlaveDriver_Update 0 fw in
  let fw5 :=
    snd (uhk_UhkModuleSlaveDriver_Update 0
      (snd (uhk_UhkModuleSlaveDriver_Update 0
        (snd (uhk_UhkModuleSlaveDriver_Update 0
          (snd (uhk_UhkModuleSlaveDriver_Update 0 (snd r)))))))) in
  (module_phase (uhkModuleStates fw 0) = UhkModulePhase_SetTestLed
   \/ module_phase (uhkModuleStates fw 0) = UhkModulePhase_SetLedPwmBrightness)
  /\ (exists message, i2c_log (snd r) = [I2cAsyncWriteMessage 8 message])
  /\ isTestLedOn (targetVars (uhkModuleStates (snd r) 0)) = true
  /\ module_phase (uhkModuleStates fw5 0) = UhkModulePhase_SetTestLed
  /\ i2c_log (snd (uhk_UhkModuleSlaveDriver_Update 0 fw5)) = i2c_log fw5
  /\ fst (uhk_UhkModuleSlaveDriver_Update 0 fw5) = kStatus_Uhk_NoTransfer.
Proof.
  split; [left; reflexivity|].
  destruct (UhkModuleSlaveDriver_Update_change_gated 3 0 4 3
              example_features_keyCount example_CRC16_IsMessageValid
              example_BoolBitsToBytes example_i2c_answer 0 example_firmware
              (or_introl eq_refl)) as (Hd & _ & Hl).
  destruct Hd as [Hm Ht]; [vm_compute; discriminate|].
  split; [exact Hm|]. split; [reflexivity|]. split; [reflexivity|].
  apply Hl; [|reflexivity].
  do 4 apply later_update. apply later_here.
Defined.

(** C9, as stated, fails.  With the entry of the left keyboard half
    still connected when the disconnect operation runs, the next update of
    the left LED driver in the [SetFunctionFrame] phase issues the frame
    selection and moves on.  And with the entry not connected, the update is
    held only until the entry is connected again: the entry of the left LED
    driver is still marked not connected then, and the update issues the
    transfer. *)
Lemma LedSlaveDriver_Update_after_disconnect :
  let fw1 := UhkModuleSlaveDriver_Disconnect 0 4 0 example_firmware in
  let fw2 := uhk_LedSlaveDriver_Update 1 fw1 in
  let gone :=
    set_Slaves example_firmware
      (store (Slaves example_firmware) 0 (mk_uhk_slave false)) in
  let fw3 := UhkModuleSlaveDriver_Disconnect 0 4 0 gone in
  let fw4 := uhk_LedSlaveDriver_Update 1 fw3 in
  let back := set_Slaves fw4 (store (Slaves fw4) 0 (mk_uhk_slave true)) in
  let fw5 := uhk_LedSlaveDriver_Update 1 back in
  (isConnected (Slaves fw1 4) = false
   /\ phase (LedDriverStates fw1 1) = LedDriverPhase_SetFunctionFrame
   /\ i2c_log fw2 = [I2cAsyncWrite 116 [253; 11]]
   /\ phase (LedDriverStates fw2 1) = LedDriverPhase_SetShutdownModeNormal)
  /\ (isConnected (Slaves fw3 4) = false
      /\ i2c_log fw4 = []
      /\ phase (LedDriverStates fw4 1) = LedDriverPhase_SetFunctionFrame
      /\ isConnected (Slaves back 4) = false
      /\ i2c_log fw5 = [I2cAsyncWrite 116 [253; 11]]
      /\ phase (LedDriverStates fw5 1) = LedDriverPhase_SetShutdownModeNormal).
Proof.
  vm_compute. repeat split.
Qed.

(** The amended C9 on the first of these runs. *)
Lemma UhkModuleSlaveDriver_Disconnect_left_half_witness :
  let fw1 := UhkModuleSlaveDriver_Disconnect 0 4 0 example_firmware in
  let gone :=
    set_Slaves fw1 (store (Slaves fw1) 0 (mk_uhk_slave false)) in
  0 <> 4
  /\ isConnected (Slaves fw1 4) = false
  /\ isConnected (Slaves fw1 0) = isConnected (Slaves example_firmware 0)
  /\ uhk_LedSlaveDriver_Update 1 gone = gone.
Proof.
  split; [lia|].
  destruct (UhkModuleSlaveDriver_Disconnect_left_half 144 8 9 19 36 253 10 11
              0 1 1 0 4 example_memory_behind example_firmware
              (set_Slaves (UhkModuleSlaveDriver_Disconnect 0 4 0 example_firmware)
                 (store (Slaves (UhkModuleSlaveDriver_Disconnect 0 4 0
                                   example_firmware)) 0 (mk_uhk_slave false)))
              ltac:(lia)) as (H1 & H2 & H3).
  split; [exact H1|]. split; [exact H2|].
  exact (H3 eq_refl).
Defined.

(** * Further runs on concrete inputs *)

Notation "'uhk_module_updates'" :=
  (module_updates 3 0 4 3 example_features_keyCount
     example_CRC16_IsMessageValid example_BoolBitsToBytes example_i2c_answer).

(** X3 on a module in the [ProcessKeystates] phase, with a CRC check
    that rejects every message and an unpacking routine that would
    overwrite the key states. *)
Lemma UhkModuleSlaveDriver_Update_invalid_crc_witness :
  let fw :=
    set_uhkModuleState example_firmware 0
      (mk_uhk_module_state UhkModulePhase_ProcessKeystates
         (mk_uhk_module_vars false 0) (mk_i2c_message (repeat 1 64) 3) 8 16 []) in
  let r :=
    UhkModuleSlaveDriver_Update 3 0 4 3 example_features_keyCount
      (fun _ => false) (fun src _ _ => src) example_i2c_answer 0 fw in
  (fun _ : i2c_message_t => false) (rxMessage (uhkModuleStates fw 0)) = false
  /\ CurrentKeyStates (snd r) = CurrentKeyStates fw
  /\ module_phase (uhkModuleStates (snd r) 0) = UhkModulePhase_SetTestLed.
Proof.
  split; [reflexivity|].
  destruct (UhkModuleSlaveDriver_Update_invalid_crc 3 0 4 3
              example_features_keyCount (fun _ => false) (fun src _ _ => src)
              example_i2c_answer 0
              (set_uhkModuleState example_firmware 0
                 (mk_uhk_module_state UhkModulePhase_ProcessKeystates
                    (mk_uhk_module_vars false 0)
                    (mk_i2c_message (repeat 1 64) 3) 8 16 []))
              eq_refl) as (H1 & _ & _ & H4 & _).
  split; [exact H1|exact H4].
Defined.

(** X4 for module 0 with the firmware address 8 and the maximal
    brightness 255. *)
Lemma UhkModuleSlaveDriver_Init_first_requests_witness :
  let fw0 :=
    UhkModuleSlaveDriver_Init 255 (fun _ => (8, 16)) 0 example_firmware in
  let fw' := uhk_module_updates 8 0 fw0 in
  ((2 <= length (msg_data (txMessage example_firmware)))%nat /\ u8 255 <> 0)
  /\ exists m1 m2 m3 m4,
       i2c_log fw'
       = [I2cAsyncWriteMessage 8 m1; I2cAsyncReadMessage 8;
          I2cAsyncWriteMessage 8 m2; I2cAsyncReadMessage 8;
          I2cAsyncWriteMessage 8 m3; I2cAsyncWriteMessage 8 m4]
       /\ message_bytes m1 = [3; 0]
       /\ message_bytes m2 = [4]
       /\ message_bytes m3 = [1; 1]
       /\ message_bytes m4 = [2; 255].
Proof.
  assert (Hlen : (2 <= length (msg_data (txMessage example_firmware)))%nat)
    by (vm_compute; lia).
  assert (Hmax : u8 255 <> 0) by (vm_compute; discriminate).
  split; [split; [exact Hlen|exact Hmax]|].
  destruct (UhkModuleSlaveDriver_Init_first_requests 3 0 4 255 3
              example_features_keyCount (fun _ => (8, 16))
              example_CRC16_IsMessageValid example_BoolBitsToBytes
              example_i2c_answer 0 example_firmware Hlen Hmax)
    as (m1 & m2 & m3 & m4 & Hlog & H1 & H2 & H3 & H4 & _).
  exists m1, m2, m3, m4.
  split; [exact Hlog|]. split; [exact H1|]. split; [exact H2|].
  split; [exact H3|exact H4].
Defined.

(** X7 with a display routine that does nothing: the left driver is
    initialised, then the right one. *)
Lemma LedSlaveDriver_Init_resets_witness :
  let display := fun (_ : Z) (_ : list Z) (fw : firmware) => fw in
  let fw' := LedSlaveDriver_Init 144 1 2 display 1 example_firmware in
  ((forall n text, keeps_driver_control (display n text)) /\ 0 <= 144)
  /\ phase (LedDriverStates fw' 1) = LedDriverPhase_SetFunctionFrame
  /\ byte_at (setupLedControlRegistersCommand (LedDriverStates fw' 1)) 7 = 2
  /\ setupLedControlRegistersCommand
       (LedDriverStates (LedSlaveDriver_Init 144 1 2 display 0 fw') 1)
     = setupLedControlRegistersCommand (LedDriverStates fw' 1).
Proof.
  assert (Hd : forall (n : Z) (text : list Z),
            keeps_driver_control (fun fw : firmware => fw)).
  { intros n text fw j. repeat split; reflexivity. }
  split; [split; [exact Hd|lia]|].
  destruct (LedSlaveDriver_Init_resets 144 1 2
              (fun (_ : Z) (_ : list Z) (fw : firmware) => fw) 1 0
              example_firmware Hd ltac:(lia))
    as ((H1 & _ & _) & _ & H3 & H4).
  split; [exact H1|]. split; [|exact H4].
  rewrite H3. reflexivity.
Defined.

(** X9 on a context with a pending acknowledgement and a link that
    refuses the next write. *)
Lemma serial_packet_write_clears_ack_witness :
  let w :=
    mk_serial_world (set_isAckNeeded idle_serial_data true)
      (mk_link [90; 161] [] [kStatus_Fail] []) in
  let r := uhk_serial_packet_write (Some [1; 2]) 2 kPacketType_Data w in
  2 <= 32
  /\ fst r = kStatus_Fail
  /\ isAckNeeded (g_serialContext (snd r)) = false.
Proof.
  split; [lia|]. split; [reflexivity|].
  destruct (serial_packet_write_clears_ack 90 161 162 163 164 165 166 167
              32 32 2 10 0 2 1 80 Z 0 crc16_xmodem_update crc16_xmodem_finalize
              [1; 2] 2 kPacketType_Data
              (mk_serial_world (set_isAckNeeded idle_serial_data true)
                 (mk_link [90; 161] [] [kStatus_Fail] []))
              ltac:(lia)) as ((H1 & _) & _).
  exact H1.
Defined.

(** X10 on the same context: the Ack is attempted once and lost. *)
Lemma send_deferred_ack_refused_witness :
  let c := set_isAckNeeded idle_serial_data true in
  let w := mk_serial_world c (mk_link [90; 161] [] [kStatus_Fail] []) in
  let finalized := serial_packet_finalize 90 161 163 w in
  let read := uhk_serial_packet_read true true kPacketType_Command w in
  let wrote := uhk_serial_packet_write (Some [1; 2]) 2 kPacketType_Data w in
  (kStatus_Fail <> kStatus_Success
   /\ deferred_ack_sync 90 161 163 c <> []
   /\ one_ack_pending c
   /\ 2 <= 32)
  /\ fst finalized = kStatus_Fail
  /\ written (activePeripheral (snd finalized)) = [[90; 161]]
  /\ fst read = mk_read_result kStatus_Fail None (Some 0)
  /\ fst wrote = kStatus_Fail
  /\ activePeripheral (snd wrote) = mk_link [90; 161] [[90; 161]] [] [].
Proof.
  assert (H1 : kStatus_Fail <> kStatus_Success) by discriminate.
  assert (H2 : deferred_ack_sync 90 161 163
                 (set_isAckNeeded idle_serial_data true) <> [])
    by (vm_compute; discriminate).
  assert (H3 : one_ack_pending (set_isAckNeeded idle_serial_data true))
    by reflexivity.
  split; [repeat split; try assumption; lia|].
  destruct (send_deferred_ack_refused 90 161 162 163 164 165 166 167
              32 32 2 10 0 2 1 80 Z 0 crc16_xmodem_update crc16_xmodem_finalize
              [1; 2] 2 kPacketType_Data
              (set_isAckNeeded idle_serial_data true) [90; 161] []
              kStatus_Fail [] [] H1 H2 H3 ltac:(lia))
    as ((F1 & F2 & _) & (R1 & _) & (W1 & W2 & _)).
  split; [exact F1|]. split; [rewrite F2; reflexivity|].
  split; [exact R1|]. split; [exact W1|exact W2].
Defined.

(** X11 on a packet whose length field announces 40 bytes for a buffer
    of 32: the length is clamped, 32 bytes are read, and the crc is checked
    over the header with the clamped length. *)
Lemma serial_packet_read_length_bounded_witness :
  let crc :=
    wire_packet_crc 90 Z 0 crc16_xmodem_update crc16_xmodem_finalize 164
      (repeat 7 32) in
  let w :=
    mk_serial_world idle_serial_data
      (mk_link ([90; 164; 40; 0] ++ halfword_bytes crc ++ repeat 7 40)
         [] [] []) in
  let r := uhk_serial_packet_read true true kPacketType_Command w in
  (0 <= 32
   /\ Forall is_byte (incoming (activePeripheral w))
   /\ read_status (fst r) = kStatus_Success)
  /\ read_packetLength (fst r) = Some 32
  /\ exists n data,
       read_packetLength (fst r) = Some n
       /\ read_packet (fst r) = Some data
       /\ 0 <= n <= 32
       /\ Z.of_nat (length data) = 32.
Proof.
  set (w := mk_serial_world idle_serial_data
              (mk_link
                 ([90; 164; 40; 0]
                  ++ halfword_bytes
                       (wire_packet_crc 90 Z 0 crc16_xmodem_update
                          crc16_xmodem_finalize 164 (repeat 7 32))
                  ++ repeat 7 40) [] [] [])).
  assert (Hb : Forall is_byte (incoming (activePeripheral w))).
  { vm_compute. repeat constructor; discriminate. }
  assert (Hs : read_status
                 (fst (uhk_serial_packet_read true true kPacketType_Command w))
               = kStatus_Success) by (vm_compute; reflexivity).
  cbv zeta. fold w.
  split; [split; [lia|split; [exact Hb|exact Hs]]|].
  split; [vm_compute; reflexivity|].
  destruct (serial_packet_read_length_bounded 90 161 162 163 164 165 166 167
              32 2 10 0 2 1 80 Z 0 crc16_xmodem_update crc16_xmodem_finalize
              kPacketType_Command w ltac:(lia) Hb Hs)
    as (n & data & H1 & H2 & H3 & H4 & _).
  exists n, data. auto.
Defined.

(** X12 on a buffer of 64 bytes with the write offset at 62: four bytes
    wrap around to the offset 2. *)
Lemma serial_packet_queue_bytes_ring_witness :
  let q := mk_callback_queue (repeat 0 64) 62 in
  (0 <= 6 <= 32 /\ 64 = 2 ^ 6 /\ queue_ok 64 q)
  /\ exists q',
       serial_packet_queue_bytes 64 [1; 2; 3; 4] q = Some q'
       /\ writeOffset q' = 2
       /\ (byte_at (callbackBuffer q') 62 = 1
           /\ byte_at (callbackBuffer q') 1 = 4).
Proof.
  assert (Hq : queue_ok 64 (mk_callback_queue (repeat 0 64) 62))
    by (split; [reflexivity|cbn; lia]).
  split; [split; [lia|split; [reflexivity|exact Hq]]|].
  destruct (serial_packet_queue_bytes_ring 64 6 [1; 2; 3; 4]
              (mk_callback_queue (repeat 0 64) 62)
              ltac:(lia) eq_refl Hq) as (q' & E & _ & Ho & Hb).
  exists q'. split; [exact E|]. split; [exact Ho|].
  split; [rewrite (Hb ltac:(simpl; lia) 62 ltac:(lia))
         |rewrite (Hb ltac:(simpl; lia) 1 ltac:(lia))]; reflexivity.
Defined.

(** X13 with at most two bytes allowed in front of the start byte: after
    three other bytes the start byte itself ends the scan with
    [kStatus_Timeout]. *)
Lemma read_start_byte_scan_witness :
  let w := mk_serial_world idle_serial_data (mk_link [1; 2; 3; 90; 161] [] [] []) in
  (Forall (fun x => x <> 90) [1; 2; 3]
   /\ 3 <= 2 + 1 /\ 2 + 1 < 2 ^ 32 /\ (3 = 2 + 1 \/ 90 = 90))
  /\ read_start_byte 90 2 10 (mk_framing_header 0 0) w
     = (kStatus_Timeout, mk_framing_header 90 0,
        mk_serial_world idle_serial_data (mk_link [161] [] [] [10; 10; 10])).
Proof.
  assert (Hg : Forall (fun x => x <> 90) [1; 2; 3])
    by (repeat constructor; discriminate).
  split; [split; [exact Hg|split; [lia|split; [lia|left; lia]]]|].
  exact (read_start_byte_scan 90 2 10 [1; 2; 3] 90 (mk_framing_header 0 0)
           idle_serial_data [161] [] [] [] Hg ltac:(simpl; lia) ltac:(lia)
           (or_introl eq_refl)).
Defined.

(** X14 on a Data packet that arrives when a Command packet is read. *)
Lemma serial_packet_read_unexpected_type_witness :
  let body := [2; 0; 9; 9; 7; 8] in
  let w := mk_serial_world idle_serial_data (mk_link (90 :: 165 :: body) [] [] []) in
  let r := uhk_serial_packet_read true true kPacketType_Command w in
  (0 <= 2 /\ Forall (fun s => s = kStatus_Success) [] /\ 165 <> 166
   /\ 165 <> framing_type 164 165 kPacketType_Command)
  /\ fst r = mk_read_result kStatus_Fail None (Some 0)
  /\ incoming (activePeripheral (snd r)) = body
  /\ written (activePeripheral (snd r)) = [].
Proof.
  split; [split; [lia|split; [constructor|split; [lia|simpl; lia]]]|].
  destruct (serial_packet_read_unexpected_type 90 161 162 163 164 165 166 167
              32 2 10 0 2 1 80 Z 0 crc16_xmodem_update crc16_xmodem_finalize
              ltac:(lia) kPacketType_Command 165 idle_serial_data
              [2; 0; 9; 9; 7; 8] [] [] [] (Forall_nil _) ltac:(lia)
              ltac:(simpl; lia)) as (H1 & H2 & H3 & _).
  split; [exact H1|]. split; [exact H2|exact H3].
Defined.

(** X15 on an idle context and a link that refuses the packet. *)
Lemma serial_packet_write_refused_witness :
  let w :=
    mk_serial_world idle_serial_data (mk_link [90; 161] [] [kStatus_Fail] []) in
  let r := uhk_serial_packet_write (Some [1; 2; 3]) 3 kPacketType_Data w in
  (32 < 65536 /\ kStatus_Fail <> kStatus_Success
   /\ deferred_ack_sync 90 161 163 idle_serial_data = [] /\ 3 <= 32)
  /\ fst r = kStatus_Fail
  /\ activePeripheral (snd r)
     = mk_link [90; 161] [uhk_wire_packet 165 [1; 2; 3]] [] [].
Proof.
  assert (H1 : kStatus_Fail <> kStatus_Success) by discriminate.
  split; [split; [lia|split; [exact H1|split; [reflexivity|lia]]]|].
  destruct (serial_packet_write_refused 90 161 162 163 164 165 32 2 10
              Z 0 crc16_xmodem_update crc16_xmodem_finalize ltac:(lia)
              [1; 2; 3] kPacketType_Data idle_serial_data [90; 161] []
              kStatus_Fail [] [] H1 eq_refl ltac:(simpl; lia))
    as (R1 & R2 & _).
  split; [exact R1|exact R2].
Defined.

(** X16 with a Ping header in place of the answer. *)
Lemma serial_packet_write_unexpected_answer_witness :
  let w := mk_serial_world idle_serial_data (mk_link [90; 166; 5] [] [] []) in
  let r := uhk_serial_packet_write (Some [1; 2; 3]) 3 kPacketType_Data w in
  (0 <= 2 /\ 32 < 65536 /\ Forall (fun s => s = kStatus_Success) []
   /\ 3 <= 32 /\ 166 <> 161 /\ 166 <> 162 /\ 166 <> 163)
  /\ fst r = kStatus_InvalidArgument
  /\ written (activePeripheral (snd r)) = [uhk_wire_packet 165 [1; 2; 3]]
  /\ incoming (activePeripheral (snd r)) = [5].
Proof.
  split; [repeat split; try lia; constructor|].
  destruct (serial_packet_write_unexpected_answer 90 161 162 163 164 165 32 2 10
              Z 0 crc16_xmodem_update crc16_xmodem_finalize
              ltac:(lia) ltac:(lia)
              [1; 2; 3] kPacketType_Data 166 idle_serial_data [5] [] [] []
              (Forall_nil _) ltac:(simpl; lia) ltac:(lia) ltac:(lia) ltac:(lia))
    as (R1 & R2 & R3 & _).
  split; [exact R1|]. split; [exact R2|exact R3].
Defined.

(** X17 with a payload of four bytes. *)
Lemma serial_packet_write_read_round_trip_witness :
  let sender :=
    snd (uhk_serial_packet_write (Some [1; 2; 3; 4]) 4 kPacketType_Command
           (mk_serial_world idle_serial_data (mk_link [90; 161] [] [] []))) in
  (0 <= 2 /\ 32 < 65536 /\ 164 <> 166 /\ 165 <> 166 /\ 0 <= 32 < 65536
   /\ (forall c, 0 <= crc16_xmodem_finalize c < 65536)
   /\ 4 <= 32)
  /\ exists packet more,
       written (activePeripheral sender) = packet :: more
       /\ let r :=
            uhk_serial_packet_read true true kPacketType_Command
              (mk_serial_world idle_serial_data
                 (mk_link (packet ++ [90]) [] [] [])) in
          read_status (fst r) = kStatus_Success
          /\ read_packetLength (fst r) = Some 4
          /\ (exists data,
                read_packet (fst r) = Some data
                /\ bytes_from data 0 4 = [1; 2; 3; 4])
          /\ incoming (activePeripheral (snd r)) = [90].
Proof.
  assert (Hfin : forall c, 0 <= crc16_xmodem_finalize c < 65536)
    by (intros c; apply Z.mod_pos_bound; lia).
  split; [repeat split; try lia; apply Hfin|].
  exact (serial_packet_write_read_round_trip 90 161 162 163 164 165 166 167
           32 32 2 10 0 2 1 80 Z 0 crc16_xmodem_update crc16_xmodem_finalize
           ltac:(lia) ltac:(lia) ltac:(lia) ltac:(lia) ltac:(lia) Hfin
           [1; 2; 3; 4] kPacketType_Command idle_serial_data [90; 161] [] [] []
           idle_serial_data [90] [] [] []
           (Forall_nil _) (Forall_nil _) ltac:(simpl; lia) ltac:(simpl; lia)).
Defined.

(** X18 after a Command packet of four bytes. *)
Lemma serial_packet_abort_then_write_witness :
  let w :=
    mk_serial_world idle_serial_data
      (mk_link (uhk_wire_packet 164 [1; 2; 3; 4] ++ [90; 161]) [] [] []) in
  let r := uhk_serial_packet_read true true kPacketType_Command w in
  (0 <= 2 /\ 32 < 65536 /\ 164 <> 166 /\ 165 <> 166 /\ 0 <= 32 < 65536
   /\ (forall c, 0 <= crc16_xmodem_finalize c < 65536)
   /\ 4 <= 32 /\ 2 <= 32)
  /\ exists aborted,
       serial_packet_abort (snd r) = Some aborted
       /\ let r2 :=
            uhk_serial_packet_write (Some [7; 8]) 2 kPacketType_Data aborted in
          exists more,
            written (activePeripheral (snd r2))
            = written (activePeripheral (snd r))
              ++ [90; 163] :: uhk_wire_packet 165 [7; 8] :: more.
Proof.
  assert (Hfin : forall c, 0 <= crc16_xmodem_finalize c < 65536)
    by (intros c; apply Z.mod_pos_bound; lia).
  split; [repeat split; try lia; apply Hfin|].
  exact (serial_packet_abort_then_write 90 161 162 163 164 165 166 167
           32 32 2 10 0 2 1 80 Z 0 crc16_xmodem_update crc16_xmodem_finalize
           ltac:(lia) ltac:(lia) ltac:(lia) ltac:(lia) ltac:(lia) Hfin
           [1; 2; 3; 4] idle_serial_data [90; 161] [] [] [] [7; 8]
           kPacketType_Data (Forall_nil _) ltac:(simpl; lia) ltac:(simpl; lia)).
Defined.

(** X19 after the same packet. *)
Lemma serial_packet_finalize_then_write_witness :
  let w :=
    mk_serial_world idle_serial_data
      (mk_link (uhk_wire_packet 164 [1; 2; 3; 4] ++ [90; 161]) [] [] []) in
  let r := uhk_serial_packet_read true true kPacketType_Command w in
  let finalized := serial_packet_finalize 90 161 163 (snd r) in
  let r2 :=
    uhk_serial_packet_write (Some [7; 8]) 2 kPacketType_Data (snd finalized) in
  (0 <= 2 /\ 32 < 65536 /\ 164 <> 166 /\ 165 <> 166 /\ 0 <= 32 < 65536
   /\ (forall c, 0 <= crc16_xmodem_finalize c < 65536)
   /\ one_ack_pending idle_serial_data /\ 4 <= 32 /\ 2 <= 32)
  /\ fst finalized = kStatus_Success
  /\ written (activePeripheral (snd finalized)) = [[90; 161]]
  /\ exists more,
       written (activePeripheral (snd r2))
       = written (activePeripheral (snd finalized))
         ++ uhk_wire_packet 165 [7; 8] :: more.
Proof.
  assert (Hfin : forall c, 0 <= crc16_xmodem_finalize c < 65536)
    by (intros c; apply Z.mod_pos_bound; lia).
  split; [repeat split; try lia; apply Hfin|].
  destruct (serial_packet_finalize_then_write 90 161 162 163 164 165 166 167
              32 32 2 10 0 2 1 80 Z 0 crc16_xmodem_update crc16_xmodem_finalize
              ltac:(lia) ltac:(lia) ltac:(lia) ltac:(lia) ltac:(lia) Hfin
              [1; 2; 3; 4] idle_serial_data [90; 161] [] [] [] [7; 8]
              kPacketType_Data (Forall_nil _) eq_refl ltac:(simpl; lia)
              ltac:(simpl; lia)) as (F1 & F2 & F3).
  split; [exact F1|]. split; [exact F2|exact F3].
Defined.

(** X20 on a context with a pending acknowledgement: the first packet
    is delayed, the second is not. *)
Lemma serial_packet_write_delay_witness :
  let c := set_isAckNeeded idle_serial_data true in
  let w := mk_serial_world c (mk_link [90; 161; 90; 161] [] [] []) in
  let r := uhk_serial_packet_write (Some [1; 2; 3]) 3 kPacketType_Data w in
  let r2 := uhk_serial_packet_write (Some [4]) 1 kPacketType_Data (snd r) in
  (0 <= 2 /\ 32 < 65536 /\ 161 <> 162 /\ 161 <> 163 /\ 162 <> 163
   /\ Forall (fun s => s = kStatus_Success) [] /\ one_ack_pending c
   /\ 3 <= 32 /\ 1 <= 32)
  /\ fst r = kStatus_Success
  /\ delays (activePeripheral (snd r)) = [100]
  /\ fst r2 = kStatus_Success
  /\ delays (activePeripheral (snd r2)) = [100].
Proof.
  split; [repeat split; try lia; constructor|].
  destruct (serial_packet_write_delay 90 161 162 163 164 165 32 2 10
              Z 0 crc16_xmodem_update crc16_xmodem_finalize
              ltac:(lia) ltac:(lia) ltac:(lia) ltac:(lia) ltac:(lia)
              [1; 2; 3] kPacketType_Data [4] kPacketType_Data
              (set_isAckNeeded idle_serial_data true) [] [] [] []
              (Forall_nil _) eq_refl ltac:(simpl; lia) ltac:(simpl; lia))
    as (D1 & D2 & _ & D4 & D5 & _).
  split; [exact D1|]. split; [exact D2|]. split; [exact D4|].
  exact (eq_trans D5 D2).
Defined.

(** X21 on a driver whose tables both hold the brightness 128. *)
Lemma LedSlaveDriver_Update_idle_witness :
  let st := example_led_state 4 (repeat 128 144) (repeat 128 144) in
  let fw := set_LedDriverState example_firmware 1 st in
  (0 < 8 /\ 8 <= 144 /\ 144 + 8 <= 256
   /\ led_tables_ok 144 (LedDriverStates fw 1)
   /\ targetLedValues (LedDriverStates fw 1)
      = sourceLedValues (LedDriverStates fw 1))
  /\ uhk_LedSlaveDriver_Update 1 fw
     = set_LedDriverState fw 1 (set_ledIndex (LedDriverStates fw 1) 0)
  /\ i2c_log (uhk_led_updates 5 1 fw) = i2c_log fw.
Proof.
  assert (Hok : led_tables_ok 144
                  (LedDriverStates
                     (set_LedDriverState example_firmware 1
                        (example_led_state 4 (repeat 128 144) (repeat 128 144)))
                     1)).
  { repeat split; try reflexivity; vm_compute; congruence. }
  split; [repeat split; try lia; apply Hok|].
  destruct (LedSlaveDriver_Update_idle 144 8 9 19 36 253 10 11 0 1 1 0
              example_memory_behind
              ltac:(lia) ltac:(lia) ltac:(lia) 1 _ Hok) as (H1 & _ & H3).
  split; [exact (H1 eq_refl)|].
  destruct (H3 eq_refl 5%nat) as [Hlog _]. exact Hlog.
Defined.

(** X22 on a driver whose LEDs 2 to 5 differ: the run of four bytes is
    sent for the register 36 + 2. *)
Lemma LedSlaveDriver_Update_transmits_run_witness :
  let source := repeat 0 2 ++ repeat 128 4 ++ repeat 0 138 in
  let st := example_led_state 0 source (repeat 0 144) in
  let fw := set_LedDriverState example_firmware 1 st in
  (0 < 8 /\ 8 <= 144 /\ 144 + 8 <= 256
   /\ led_tables_ok 144 (LedDriverStates fw 1)
   /\ targetLedValues (LedDriverStates fw 1)
      <> sourceLedValues (LedDriverStates fw 1))
  /\ (exists start len,
        i2c_log (uhk_LedSlaveDriver_Update 1 fw)
        = i2c_log fw
          ++ [I2cAsyncWrite 116
                (u8 (36 + start) :: bytes_from source start len)]
        /\ targetLedValues (LedDriverStates (uhk_LedSlaveDriver_Update 1 fw) 1)
           = memcpy_at (repeat 0 144) start (bytes_from source start len))
  /\ i2c_log (uhk_LedSlaveDriver_Update 1 fw)
     = [I2cAsyncWrite 116 [38; 128; 128; 128; 128]].
Proof.
  set (fw := set_LedDriverState example_firmware 1
               (example_led_state 0
                  (repeat 0 2 ++ repeat 128 4 ++ repeat 0 138) (repeat 0 144))).
  assert (Hok : led_tables_ok 144 (LedDriverStates fw 1)).
  { repeat split; try reflexivity; vm_compute; congruence. }
  assert (Hne : targetLedValues (LedDriverStates fw 1)
                <> sourceLedValues (LedDriverStates fw 1))
    by (vm_compute; discriminate).
  cbv zeta. fold fw.
  split; [repeat split; try lia; first [apply Hok | exact Hne]|].
  split; [|vm_compute; reflexivity].
  destruct (LedSlaveDriver_Update_transmits_run 144 8 9 19 36 253 10 11 0 1 1 0
              example_memory_behind
              ltac:(lia) ltac:(lia) ltac:(lia) 1 fw Hok Hne)
    as (start & len & _ & Hlog & Htgt & _).
  exists start, len. split; [exact Hlog|exact Htgt].
Defined.

(** X23 for the left driver with the left keyboard half connected and
    every LED to be switched on, with 144 LEDs in chunks of 8 and a buffer
    of 9 bytes: 22 updates with 22 bus writes reach the [Initialized] phase,
    and after 40 updates the target table holds the source table. *)
Lemma LedSlaveDriver_Update_initialises_witness :
  let st :=
    mk_led_driver_state LedDriverPhase_SetFunctionFrame 0 116 (repeat 255 144)
      (repeat 0 144) (repeat 0 19) in
  let fw := set_LedDriverState example_firmware 1 st in
  let fw' := uhk_led_updates 22 1 fw in
  (0 < 8 /\ 8 <= 144 /\ 144 + 8 <= 256
   /\ phase (LedDriverStates fw 1) = LedDriverPhase_SetFunctionFrame
   /\ ledIndex (LedDriverStates fw 1) = 0
   /\ (1 <> 1 \/ isConnected (Slaves fw 0) = true)
   /\ (8 | 144)
   /\ 9 = 8 + 1
   /\ Z.of_nat (length (sourceLedValues (LedDriverStates fw 1))) = 144
   /\ Z.of_nat (length (targetLedValues (LedDriverStates fw 1))) = 144
   /\ 4 + 2 * led_chunk_count 144 8 <= Z.of_nat 40)
  /\ phase (LedDriverStates fw' 1) = LedDriverPhase_Initialized
  /\ ledIndex (LedDriverStates fw' 1) = 0
  /\ i2c_log fw'
     = led_init_requests 144 8 19 36 253 10 11 0 1 (LedDriverStates fw 1)
  /\ length (i2c_log fw') = 22%nat
  /\ nth 21 (i2c_log fw') (I2cAsyncReadMessage 0)
     = I2cAsyncWrite 116 (172 :: repeat 255 8)
  /\ targetLedValues (LedDriverStates (uhk_led_updates 40 1 fw) 1)
     = repeat 255 144.
Proof.
  set (fw := set_LedDriverState example_firmware 1
               (mk_led_driver_state LedDriverPhase_SetFunctionFrame 0 116
                  (repeat 255 144) (repeat 0 144) (repeat 0 19))).
  assert (Hcalls : 4 + 2 * led_chunk_count 144 8 <= Z.of_nat 40)
    by (vm_compute; congruence).
  assert (Hdiv : (8 | 144)) by (exists 18; reflexivity).
  cbv zeta. fold fw.
  split.
  { repeat split; try lia; try reflexivity; try exact Hcalls; try exact Hdiv.
    right; reflexivity. }
  destruct (LedSlaveDriver_Update_initialises 144 8 9 19 36 253 10 11 0 1 1 0
              example_memory_behind
              ltac:(lia) ltac:(lia) ltac:(lia) 1 fw
              eq_refl eq_refl (or_intror eq_refl))
    as ((H1 & H2 & _ & _ & _) & Hlog & Hconv).
  split; [exact H1|]. split; [exact H2|].
  split; [exact (Hlog Hdiv eq_refl eq_refl)|].
  split; [vm_compute; reflexivity|].
  split; [vm_compute; reflexivity|].
  exact (Hconv eq_refl eq_refl 40%nat Hcalls).
Defined.

(** X24 on the left driver with the cursor at 4. *)
Lemma SetLeds_reaches_target_witness :
  let st := example_led_state 4 (repeat 255 144) (repeat 255 144) in
  let fw := set_LedDriverState example_firmware 1 st in
  let fw' := uhk_led_updates 19 1 (uhk_SetLeds 128 fw) in
  (0 < 8 /\ 8 <= 144 /\ 144 + 8 <= 256 /\ 0 <= 1 < 2
   /\ phase (LedDriverStates fw 1) = LedDriverPhase_Initialized
   /\ Z.of_nat (length (targetLedValues (LedDriverStates fw 1))) = 144
   /\ 0 <= ledIndex (LedDriverStates fw 1) < 144
   /\ led_chunk_count 144 8 + 1 <= Z.of_nat 19)
  /\ targetLedValues (LedDriverStates fw' 1) = repeat 128 144.
Proof.
  split.
  { repeat split; try lia; try reflexivity; vm_compute; congruence. }
  destruct (SetLeds_reaches_target 144 8 9 19 36 253 10 11 0 1 1 0
              example_memory_behind 2
              ltac:(lia) ltac:(lia) ltac:(lia) 1
              (set_LedDriverState example_firmware 1
                 (example_led_state 4 (repeat 255 144) (repeat 255 144)))
              128 19%nat ltac:(lia) eq_refl eq_refl
              ltac:(vm_compute; split; congruence)
              ltac:(vm_compute; congruence))
    as (_ & Ht & _).
  exact Ht.
Defined.

(** X5 on a module whose test LED and brightness are settled. *)
Lemma module_updates_steady_round_witness :
  let fw :=
    set_uhkModuleState example_firmware 0
      (mk_uhk_module_state UhkModulePhase_RequestKeyStates
         (mk_uhk_module_vars true 255) (mk_i2c_message (repeat 0 64) 0) 8 16 []) in
  let fw' := uhk_module_updates 5 0 fw in
  (module_phase (uhkModuleStates fw 0) = UhkModulePhase_RequestKeyStates
   /\ targetVars (uhkModuleStates fw 0) = UhkModuleVars fw 0
   /\ (1 <= length (msg_data (txMessage fw)))%nat)
  /\ (exists message,
        i2c_log fw' = [I2cAsyncWriteMessage 8 message; I2cAsyncReadMessage 8]
        /\ message_bytes message = [4])
  /\ module_phase (uhkModuleStates fw' 0) = UhkModulePhase_RequestKeyStates.
Proof.
  set (fw := set_uhkModuleState example_firmware 0
               (mk_uhk_module_state UhkModulePhase_RequestKeyStates
                  (mk_uhk_module_vars true 255)
                  (mk_i2c_message (repeat 0 64) 0) 8 16 [])).
  assert (Hlen : (1 <= length (msg_data (txMessage fw)))%nat)
    by (vm_compute; lia).
  cbv zeta. fold fw.
  split; [split; [reflexivity|split; [reflexivity|exact Hlen]]|].
  destruct (module_updates_steady_round 3 0 4 3 example_features_keyCount
              example_CRC16_IsMessageValid example_BoolBitsToBytes
              example_i2c_answer 0 fw eq_refl eq_refl Hlen)
    as (Hlog & Hp & _).
  split; [exact Hlog|exact Hp].
Defined.
